(** * cvision: resume screener pipeline

    A shallow embedding of the specifiable logic of the repository
    (AI_based_resume_screener/fapp.py, resume_scraper/f.py,
    resume_scraper/scraper.py, resume_scraper/resume_processor.py and
    resume_scraper/resume_praser.py) and the properties the design document
    states about it.

    Python values are embedded as follows.
    - [str] is [string]; a character stands for the code point of the same
      number, so the strings of the model are those over code points 0..255.
    - [int] is [Z].
    - a value produced by [json.loads] is a [json]; a [dict] is a [gmap]
      keyed by strings (dict equality does not look at insertion order).
    - an exception is a value of [exn]; code that can raise returns a
      [result].
    - everything outside the repository (the browser driver, the HTML
      parser, the PDF reader, the two language models, [json.loads] and a few
      builtins whose text is fixed by the interpreter) is a field of [Env];
      effects on the process state are threaded through [World]. *)

From stdpp Require Import gmap strings list.
From Stdlib Require Import ZArith Ascii String Permutation Sorted Lia.

#[local] Set Warnings "-register-all".
#[local] Arguments String.append !_ _ / : simpl nomatch.
#[local] Open Scope Z_scope.
#[local] Open Scope string_scope.

(** ** Python builtins used by the sources *)

Module Py.

(** Exceptions. The four builtin classes are the ones the sources can
    raise themselves; [JSONDecodeError] (a subclass of [ValueError]) is
    raised by [json.loads], which also raises a plain [ValueError] (an
    integer literal over the digit limit) and [RecursionError] (nesting
    too deep); [External] stands for an exception raised inside a library
    call (selenium, ollama, the Gemini client, file i/o). All of them are
    subclasses of [Exception]. *)
Inductive exn :=
  | AttributeError
  | TypeError
  | KeyError
  | ValueError
  | RecursionError
  | JSONDecodeError (msg : string)
  | External (msg : string).

Inductive result (A : Type) :=
  | Ok (a : A)
  | Raise (e : exn).
Arguments Ok {A} a.
Arguments Raise {A} e.

Definition bind {A B} (r : result A) (k : A -> result B) : result B :=
  match r with
  | Ok a => k a
  | Raise e => Raise e
  end.

(** [try: r except (ValueError, json.JSONDecodeError): h] *)
Definition except_ValueError {A} (r : result A) (h : exn -> result A) : result A :=
  match r with
  | Ok a => Ok a
  | Raise ValueError => h ValueError
  | Raise (JSONDecodeError m) => h (JSONDecodeError m)
  | Raise e => Raise e
  end.

(** [try: r except json.JSONDecodeError: h]: a plain [ValueError] is not
    caught. *)
Definition except_JSONDecodeError {A} (r : result A) (h : exn -> result A) : result A :=
  match r with
  | Raise (JSONDecodeError m) => h (JSONDecodeError m)
  | _ => r
  end.

(** *** Characters and strings *)

Definition nl : ascii := "010"%char.
Definition dquote : ascii := "034"%char.

Definition code (c : ascii) : nat := nat_of_ascii c.

Definition between (lo hi n : nat) : bool := (Nat.leb lo n && Nat.leb n hi)%bool.

(** [c.isspace()] for a code point below 256: TAB..CR, FS..US, space, NEL
    and the no-break space. *)
Definition isspace (c : ascii) : bool :=
  let n := code c in
  (between 9 13 n || between 28 32 n || Nat.eqb n 133 || Nat.eqb n 160)%bool.

(** [c.lower()] for a code point below 256: A-Z and the Latin-1 capitals
    (all of 0xC0..0xDE but the multiplication sign) move up by 32. *)
Definition lower_char (c : ascii) : ascii :=
  let n := code c in
  if (between 65 90 n || (between 192 222 n && negb (Nat.eqb n 215)))%bool
  then ascii_of_nat (n + 32) else c.

Fixpoint lower (s : string) : string :=
  match s with
  | EmptyString => EmptyString
  | String c s' => String (lower_char c) (lower s')
  end.

Definition len (s : string) : Z := Z.of_nat (String.length s).

(** Decimal digits: the longest run at the head of a text, and the number
    a run denotes. *)
Definition is_digit (c : ascii) : bool := between 48 57 (code c).

Fixpoint take_digits (s : string) : string * string :=
  match s with
  | EmptyString => (EmptyString, EmptyString)
  | String c s' =>
      if is_digit c then let '(d, r) := take_digits s' in (String c d, r)
      else (EmptyString, s)
  end.

Fixpoint digits_value (d : string) (acc : Z) : Z :=
  match d with
  | EmptyString => acc
  | String c d' => digits_value d' (10 * acc + Z.of_nat (code c - 48))%Z
  end.

Definition nonempty (s : string) : bool :=
  match s with
  | EmptyString => false
  | String _ _ => true
  end.

Fixpoint lstrip (s : string) : string :=
  match s with
  | EmptyString => EmptyString
  | String c s' => if isspace c then lstrip s' else s
  end.

Fixpoint rstrip (s : string) : string :=
  match s with
  | EmptyString => EmptyString
  | String c s' =>
      match rstrip s' with
      | EmptyString => if isspace c then EmptyString else String c EmptyString
      | r => String c r
      end
  end.

(** [s.strip()] *)
Definition strip (s : string) : string := rstrip (lstrip s).

(** [needle in hay] on two strings *)
Fixpoint str_contains (needle hay : string) : bool :=
  (String.prefix needle hay ||
   match hay with
   | EmptyString => false
   | String _ hay' => str_contains needle hay'
   end)%bool.

Fixpoint find_char (c : ascii) (s : string) : option nat :=
  match s with
  | EmptyString => None
  | String a s' => if Ascii.eqb a c then Some O else option_map S (find_char c s')
  end.

Fixpoint rfind_char (c : ascii) (s : string) : option nat :=
  match s with
  | EmptyString => None
  | String a s' =>
      match rfind_char c s' with
      | Some i => Some (S i)
      | None => if Ascii.eqb a c then Some O else None
      end
  end.

(** [s.index(c)] and [s.rindex(c)] for a one-character [c] *)
Definition index (c : ascii) (s : string) : result nat :=
  match find_char c s with
  | Some i => Ok i
  | None => Raise ValueError
  end.

Definition rindex (c : ascii) (s : string) : result nat :=
  match rfind_char c s with
  | Some i => Ok i
  | None => Raise ValueError
  end.

(** [s[start:stop]] for non-negative bounds *)
Definition slice (s : string) (start stop : nat) : string :=
  substring start (stop - start) s.

(** [s.replace(pat, rep)] for a non-empty [pat]: the occurrences are taken
    from the left and do not overlap. [skip] counts the characters of a
    matched occurrence still to be dropped. *)
Fixpoint replace_from (pat rep : string) (skip : nat) (s : string) : string :=
  match s with
  | EmptyString => EmptyString
  | String c s' =>
      match skip with
      | S k => replace_from pat rep k s'
      | O =>
          if String.prefix pat s
          then rep +:+ replace_from pat rep (String.length pat - 1) s'
          else String c (replace_from pat rep O s')
      end
  end.

Definition replace (pat rep s : string) : string := replace_from pat rep O s.

(** [s.split(c)] for a one-character separator: never the empty list *)
Fixpoint split (c : ascii) (s : string) : list string :=
  match s with
  | EmptyString => [EmptyString]
  | String a s' =>
      if Ascii.eqb a c then EmptyString :: split c s'
      else match split c s' with
           | x :: xs => String a x :: xs
           | [] => [String a EmptyString]
           end
  end.

(** [sep.join(parts)] *)
Fixpoint join (sep : string) (parts : list string) : string :=
  match parts with
  | [] => EmptyString
  | [x] => x
  | x :: rest => x +:+ sep +:+ join sep rest
  end.

(** [re.sub(r'[\x00-\x1f\x7f-\x9f]', '', s)] *)
Definition is_control (c : ascii) : bool :=
  let n := code c in (between 0 31 n || between 127 159 n)%bool.

Fixpoint strip_control (s : string) : string :=
  match s with
  | EmptyString => EmptyString
  | String c s' => if is_control c then strip_control s' else String c (strip_control s')
  end.

End Py.

(** ** JSON values and the Python operations applied to them *)

Module Json.
Import Py.

(** The values [json.loads] produces. A number with a fraction or an
    exponent becomes a Python float; the model keeps its literal text. *)
Inductive json :=
  | JNull
  | JBool (b : bool)
  | JNum (z : Z)
  | JFloat (lit : string)
  | JStr (s : string)
  | JArr (items : list json)
  | JObj (fields : gmap string json).

(** The outcome of [json.loads] on a [str]: a value, a
    [json.JSONDecodeError], or another exception ([ValueError] for an
    integer literal longer than the interpreter's digit limit,
    [RecursionError] for nesting deeper than its stack allows). *)
Inductive parse_result :=
  | Parsed (v : json)
  | DecodeError (msg : string)
  | LoadsRaised (e : exn).

(** [json.loads(text)] as the expression the sources evaluate. *)
Definition loads_result (r : parse_result) : result json :=
  match r with
  | Parsed v => Ok v
  | DecodeError msg => Raise (JSONDecodeError msg)
  | LoadsRaised e => Raise e
  end.

(** The digits and the decimal exponent of a float literal
    [-? int (. frac)? ([eE] [+-]? digits)?]: the literal denotes
    [m * 10 ^ e]. [NaN] and the infinities have no digits. *)
Definition float_parts (lit : string) : option (Z * Z) :=
  let body := match lit with String "-" t => t | _ => lit end in
  match take_digits body with
  | (EmptyString, _) => None
  | (int_part, r1) =>
      let '(frac, r2) :=
        match r1 with
        | String "." t => take_digits t
        | _ => (EmptyString, r1)
        end in
      let exponent :=
        match r2 with
        | String _ (String "-" t) => (- digits_value (fst (take_digits t)) 0)%Z
        | String _ (String "+" t) => digits_value (fst (take_digits t)) 0
        | String _ t => digits_value (fst (take_digits t)) 0
        | EmptyString => 0%Z
        end in
      Some (digits_value (int_part +:+ frac) 0,
            (exponent - Z.of_nat (String.length frac))%Z)
  end.

(** Whether [float(lit)] is zero. The conversion rounds to the nearest
    double, ties to even, so a literal is zero when its digits are all 0
    or when it is at most [2 ^ -1075], half the smallest double above
    zero. *)
Definition float_is_zero (lit : string) : bool :=
  match float_parts lit with
  | None => false
  | Some (m, e) =>
      if (m =? 0)%Z then true
      else if (0 <=? e)%Z then false
      else (m * 2 ^ 1075 <=? 10 ^ (- e))%Z
  end.

(** [bool(v)]: the test behind [if v], [not v] and [v or w]. *)
Definition truthy (v : json) : bool :=
  match v with
  | JNull => false
  | JBool b => b
  | JNum z => negb (z =? 0)%Z
  | JFloat lit => negb (float_is_zero lit)
  | JStr s => nonempty s
  | JArr items => match items with [] => false | _ :: _ => true end
  | JObj fields => match map_to_list fields with [] => false | _ :: _ => true end
  end.

(** [v.get(key, default)]: only a dict has the method. *)
Definition get (v : json) (key : string) (default : json) : result json :=
  match v with
  | JObj fields => Ok (match fields !! key with Some x => x | None => default end)
  | _ => Raise AttributeError
  end.

Definition is_str (key : string) (v : json) : bool :=
  match v with
  | JStr s => String.eqb s key
  | _ => false
  end.

(** [key in v] for a string [key]: key membership in a dict, element
    membership in a list, substring test in a string; [TypeError]
    otherwise. *)
Definition contains (key : string) (v : json) : result bool :=
  match v with
  | JObj fields => Ok (match fields !! key with Some _ => true | None => false end)
  | JArr items => Ok (existsb (is_str key) items)
  | JStr s => Ok (str_contains key s)
  | _ => Raise TypeError
  end.

(** [{**v, key: x}]: unpacking needs a mapping. *)
Definition with_key (v : json) (key : string) (x : json) : result json :=
  match v with
  | JObj fields => Ok (JObj (<[key := x]> fields))
  | _ => Raise TypeError
  end.

(** The elements a [for] loop or a generator draws from [v]: the items of
    a list, the characters of a string, the keys of a dict; the other
    values are not iterable. *)
Definition iter (v : json) : result (list json) :=
  match v with
  | JArr items => Ok items
  | JStr s => Ok (map (fun c => JStr (String c EmptyString)) (list_ascii_of_string s))
  | JObj fields => Ok (map (fun kv => JStr (fst kv)) (map_to_list fields))
  | _ => Raise TypeError
  end.

(** [v[key]] for a string [key]: a dict that has it; a list or a string
    takes no string subscript. *)
Definition subscript_str (v : json) (key : string) : result json :=
  match v with
  | JObj fields =>
      match fields !! key with
      | Some x => Ok x
      | None => Raise (External "KeyError")
      end
  | _ => Raise TypeError
  end.

(** A Python [int] among the JSON values ([bool] is a subclass of [int]). *)
Definition as_int (v : json) : option Z :=
  match v with
  | JNum z => Some z
  | JBool b => Some (if b then 1 else 0)
  | _ => None
  end.

Definition obj (kvs : list (string * json)) : json := JObj (list_to_map kvs).

(** The value is a dict. *)
Definition is_mapping (v : json) : Prop := exists fields, v = JObj fields.

End Json.

(** ** The environment and the process state *)

Module Sys.
Import Py Json.

(** What the Ollama model is asked: the prompt text is a fixed template
    filled with these values. *)
Inductive prompt :=
  | JobExtractPrompt (job_content : string)
  | MatchingPrompt (resume_details job_listing : json).

(** The world outside the repository. The nondeterministic calls are
    indexed by the number of earlier calls of the same kind. *)
Record Env := {
  (** [json.loads] *)
  json_loads : string -> parse_result;
  (** [str(v)] for a value that is not a [str] *)
  repr : json -> string;
  (** [a < b] when one of the two is not an [int] *)
  lt_other : json -> json -> result bool;
  (** [str(e)] *)
  exn_str : exn -> string;
  (** [werkzeug.utils.secure_filename] *)
  secure_filename : string -> string;
  (** [webdriver.Chrome(options=...)], the n-th launch *)
  chrome : nat -> result ();
  (** [driver.get(url)], [driver.page_source] and [driver.quit()] of a
      session *)
  driver_get : nat -> string -> result ();
  page_source : nat -> string -> result string;
  driver_quit : nat -> result ();
  (** [BeautifulSoup(html).body.get_text(...)] ([None]: no body) and
      [BeautifulSoup(html).get_text(...)] *)
  soup_body_text : string -> option string;
  soup_text : string -> string;
  (** [OllamaLLM.invoke], the n-th invocation *)
  ollama : nat -> prompt -> result string;
  (** writing the uploaded bytes to [__DATA__/file.pdf] *)
  write_data_file : string -> result ();
  (** [PdfReader(path)] on those bytes and [page.extract_text()] of each
      page ([None] is a page without text) *)
  pdf_reader : string -> result (list (result (option string)));
  (** [model.generate_content(...)], the n-th call, and the [.text] of the
      response *)
  gemini : nat -> string -> result (result string)
}.

Inductive flash :=
  | Flash (message category : string)
  (** [flash(f'{prefix}{str(e)}', category)] *)
  | FlashExn (prefix : string) (e : exn) (category : string).

Record World := {
  llm_calls : nat;
  gemini_calls : nat;
  launched : nat;
  (** browser sessions started and not quit *)
  open_sessions : gset nat;
  (** the files under [upload/], by path *)
  upload_dir : gmap string string;
  (** [__DATA__/file.pdf] *)
  data_file : option string;
  (** [output/top_5_matched_jobs.json], as the value [json.dump] wrote *)
  result_file : option (list json);
  (** the messages flashed to the user, oldest first *)
  flashed : list flash
}.

Definition M (A : Type) : Type := World -> result A * World.

Definition ret {A} (a : A) : M A := fun w => (Ok a, w).
Definition raise {A} (e : exn) : M A := fun w => (Raise e, w).
Definition lift {A} (r : result A) : M A := fun w => (r, w).
Definition mbind {A B} (m : M A) (k : A -> M B) : M B :=
  fun w => match m w with
           | (Ok a, w') => k a w'
           | (Raise e, w') => (Raise e, w')
           end.

(** [try: m except Exception as e: h e] *)
Definition try_except {A} (m : M A) (h : exn -> M A) : M A :=
  fun w => match m w with
           | (Ok a, w') => (Ok a, w')
           | (Raise e, w') => h e w'
           end.

Definition modify (f : World -> World) : M () := fun w => (Ok (), f w).
Definition gets {A} (f : World -> A) : M A := fun w => (Ok (f w), w).

Definition set_llm_calls n w :=
  {| llm_calls := n; gemini_calls := gemini_calls w; launched := launched w;
     open_sessions := open_sessions w; upload_dir := upload_dir w;
     data_file := data_file w; result_file := result_file w; flashed := flashed w |}.
Definition set_gemini_calls n w :=
  {| llm_calls := llm_calls w; gemini_calls := n; launched := launched w;
     open_sessions := open_sessions w; upload_dir := upload_dir w;
     data_file := data_file w; result_file := result_file w; flashed := flashed w |}.
Definition set_sessions n s w :=
  {| llm_calls := llm_calls w; gemini_calls := gemini_calls w; launched := n;
     open_sessions := s; upload_dir := upload_dir w;
     data_file := data_file w; result_file := result_file w; flashed := flashed w |}.
Definition set_upload_dir d w :=
  {| llm_calls := llm_calls w; gemini_calls := gemini_calls w; launched := launched w;
     open_sessions := open_sessions w; upload_dir := d;
     data_file := data_file w; result_file := result_file w; flashed := flashed w |}.
Definition set_data_file f w :=
  {| llm_calls := llm_calls w; gemini_calls := gemini_calls w; launched := launched w;
     open_sessions := open_sessions w; upload_dir := upload_dir w;
     data_file := f; result_file := result_file w; flashed := flashed w |}.
Definition set_result_file f w :=
  {| llm_calls := llm_calls w; gemini_calls := gemini_calls w; launched := launched w;
     open_sessions := open_sessions w; upload_dir := upload_dir w;
     data_file := data_file w; result_file := f; flashed := flashed w |}.
Definition set_flashed l w :=
  {| llm_calls := llm_calls w; gemini_calls := gemini_calls w; launched := launched w;
     open_sessions := open_sessions w; upload_dir := upload_dir w;
     data_file := data_file w; result_file := result_file w; flashed := l |}.

(** [flash(message, category)] *)
Definition do_flash (f : flash) : M () :=
  modify (fun w => set_flashed (flashed w ++ [f])%list w).

(** [os.remove(path)] on a file of the upload folder *)
Definition os_remove (path : string) : M () :=
  fun w => match upload_dir w !! path with
           | Some _ => (Ok (), set_upload_dir (delete path (upload_dir w)) w)
           | None => (Raise (External "FileNotFoundError"), w)
           end.

(** [open(path, 'rb')] followed by the read of the whole file *)
Definition open_rb (path : string) : M string :=
  fun w => match upload_dir w !! path with
           | Some bytes => (Ok bytes, w)
           | None => (Raise (External "FileNotFoundError"), w)
           end.

End Sys.

Notation "'let*' x ':=' r 'in' k" := (Py.bind r (fun x => k))
  (at level 10, x name, r at level 100, k at level 200).
Notation "'let!' x ':=' m 'in' k" := (Sys.mbind m (fun x => k))
  (at level 10, x name, m at level 100, k at level 200).

(** ** resume_scraper/scraper.py *)

Module Scraper.
Import Py Json Sys.

Section WithEnv.
Variable E : Env.

(** [create_webdriver()]: a session that starts is open until it is
    quit. The user agent drawn by [random_user_agent] only reaches the
    browser's options. *)
Definition create_webdriver : M nat :=
  fun w =>
    let sid := launched w in
    match chrome E sid with
    | Ok _ => (Ok sid, set_sessions (S sid) ({[sid]} ∪ open_sessions w) w)
    | Raise e => (Raise e, w)
    end.

Definition get (sid : nat) (url : string) : M () := lift (driver_get E sid url).

Definition read_page_source (sid : nat) (url : string) : M string :=
  lift (page_source E sid url).

Definition quit (sid : nat) : M () :=
  fun w =>
    match driver_quit E sid with
    | Ok _ => (Ok (), set_sessions (launched w) (open_sessions w ∖ {[sid]}) w)
    | Raise e => (Raise e, w)
    end.

(** [scrape_website(url, timeout=30)]; [timeout] is not used by the
    body and the sleep has no effect on the state. *)
Definition scrape_website (url : string) : M string :=
  try_except
    (let! driver := create_webdriver in
     let! _got := get driver url in
     let! html := read_page_source driver url in
     let! _quit := quit driver in
     ret html)
    (fun _ => ret EmptyString).

(** [clean_body_content(html)] *)
Definition clean_body_content (html : string) : string :=
  match soup_body_text E html with
  | Some text => text
  | None => soup_text E html
  end.

End WithEnv.

(** One round of the loop of [split_dom_content]: the state is
    [(chunks, current_chunk)]. *)
Definition split_step (max_chars : Z) (st : list string * string) (paragraph : string)
  : list string * string :=
  let '(chunks, current_chunk) := st in
  if (len current_chunk + len paragraph + 1 >? max_chars)%Z
  then ((chunks ++ [strip current_chunk])%list, paragraph)
  else (chunks, current_chunk +:+ String nl paragraph).

(** [split_dom_content(content, max_chars)] *)
Definition split_dom_content (content : string) (max_chars : Z) : list string :=
  let paragraphs := split nl content in
  let '(chunks, current_chunk) :=
    fold_left (split_step max_chars) paragraphs ([], EmptyString) in
  if nonempty current_chunk then (chunks ++ [strip current_chunk])%list else chunks.

Definition default_max_chars : Z := 2000.

End Scraper.

(** ** resume_scraper/resume_praser.py *)

Module ResumePraser.
Import Py Json Sys.

Definition fence_json : string := "```json".
Definition fence : string := "```".

(** [clean_json_response(text)]: returns a string, not a parsed value. *)
Definition clean_json_response (text : string) : string :=
  let text := replace fence EmptyString (replace fence_json EmptyString text) in
  match
    except_ValueError
      (let* start := index "{" text in
       let* last := rindex "}" text in
       let json_str := slice text start (last + 1) in
       Ok (strip_control json_str))
      (fun _ => Ok text)
  with
  | Ok r => r
  | Raise _ => text
  end.

Definition error_mapping (msg : string) (raw_response : json) : json :=
  obj [("error", JStr msg); ("raw_response", raw_response)].

Section WithEnv.
Variable E : Env.

(** [ats_extractor(resume_data)]. When [generate_content] raises, no
    [response] is bound and the handler stores [None]; when reading
    [response.text] raises, the handler reads it again and the exception
    leaves the function; whatever [json.loads] raises is caught. *)
Definition ats_extractor (resume_data : string) : M json :=
  fun w =>
    let w' := set_gemini_calls (S (gemini_calls w)) w in
    match gemini E (gemini_calls w) resume_data with
    | Raise e => (Ok (error_mapping (exn_str E e) JNull), w')
    | Ok (Raise e) => (Raise e, w')
    | Ok (Ok text) =>
        match loads_result (json_loads E (clean_json_response text)) with
        | Ok parsed_data => (Ok parsed_data, w')
        | Raise e => (Ok (error_mapping (exn_str E e) (JStr text)), w')
        end
    end.

End WithEnv.
End ResumePraser.

(** ** resume_scraper/resume_processor.py *)

Module ResumeProcessor.
Import Py Json Sys.

Definition data_path : string := "__DATA__/file.pdf".

Section WithEnv.
Variable E : Env.

(** [save_file(file_object)]: the path, or [None] when writing fails. *)
Definition save_file (file_object : string) : M (option string) :=
  fun w =>
    match write_data_file E file_object with
    | Ok _ => (Ok (Some data_path), set_data_file (Some file_object) w)
    | Raise _ => (Ok None, w)
    end.

(** The text added to [data] for each page ([extract_text()], or the empty
    string when it returns [None]) over the pages; a page that
    raises is skipped. *)
Definition page_text (p : result (option string)) : string :=
  match p with
  | Ok (Some t) => t
  | Ok None => EmptyString
  | Raise _ => EmptyString
  end.

Fixpoint pages_text (pages : list (result (option string))) : string :=
  match pages with
  | [] => EmptyString
  | p :: rest => page_text p +:+ pages_text rest
  end.

(** [extract_text_from_pdf(file_path)] for the path [save_file]
    returned. *)
Definition extract_text_from_pdf (file_path : string) : M (option string) :=
  fun w =>
    match data_file w with
    | None => (Ok None, w)
    | Some bytes =>
        match pdf_reader E bytes with
        | Ok pages => (Ok (Some (pages_text pages)), w)
        | Raise _ => (Ok None, w)
        end
    end.

(** [parse_resume_from_file(file_object)] *)
Definition parse_resume_from_file (file_object : string) : M json :=
  let! file_path := save_file file_object in
  match file_path with
  | None => ret (obj [("error", JStr "Failed to save file")])
  | Some path =>
      let! resume_data := extract_text_from_pdf path in
      match resume_data with
      | None | Some EmptyString =>
          ret (obj [("error", JStr "Failed to extract text from PDF")])
      | Some text =>
          let! prased_data := ResumePraser.ats_extractor E text in
          let! has_error := lift (contains "error" prased_data) in
          if has_error
          then (* the branch prints [prased_data['error']] *)
            let! _msg := lift (subscript_str prased_data "error") in
            ret prased_data
          else ret prased_data
      end
  end.

End WithEnv.
End ResumeProcessor.

(** ** class ResumeJobMatcher of fapp.py *)

Module Matcher.
Import Py Json Sys.

Definition fence_json : string := "```json".
Definition fence : string := "```".

(** The placeholder of the [try] branch, used when the sanitizer's value
    is falsy. *)
Definition no_match_data : json :=
  obj [("match_score", JNum 0);
       ("matched_skills", JArr []);
       ("missing_skills", JArr []);
       ("match_reasoning", JStr "No match data available.");
       ("matched_experience", JArr []);
       ("improvement_suggestions", JArr []);
       ("additional_comments", JStr EmptyString)].

(** The placeholder of the [except] branch. *)
Definition error_match_data (comment : string) : json :=
  obj [("match_score", JNum 0);
       ("matched_skills", JArr []);
       ("missing_skills", JArr []);
       ("match_reasoning", JStr "Error during matching.");
       ("matched_experience", JArr []);
       ("improvement_suggestions", JArr []);
       ("additional_comments", JStr comment)].

Section WithEnv.
Variable E : Env.

(** [str(v)] *)
Definition str (v : json) : string :=
  match v with
  | JStr s => s
  | _ => repr E v
  end.

(** [a < b] *)
Definition lt (a b : json) : result bool :=
  match as_int a, as_int b with
  | Some x, Some y => Ok (x <? y)%Z
  | _, _ => lt_other E a b
  end.

(** [self.llm.invoke(prompt)] *)
Definition invoke (p : prompt) : M string :=
  fun w => (ollama E (llm_calls w) p, set_llm_calls (S (llm_calls w)) w).

(** [_clean_json_response(response)]: the outer handler names
    [json.JSONDecodeError] only, so any other exception of the first
    [json.loads] leaves the function; the inner one also catches
    [ValueError]. *)
Definition _clean_json_response (response : string) : result json :=
  let response :=
    strip (replace fence EmptyString (replace fence_json EmptyString response)) in
  except_JSONDecodeError
    (loads_result (json_loads E response))
    (fun _ =>
       except_ValueError
         (let* start := index "{" response in
          let* last := rindex "}" response in
          let json_str := slice response start (last + 1) in
          let json_str := strip_control json_str in
          loads_result (json_loads E json_str))
         (fun _ => Ok (JObj ∅))).

(** [_extract_job_details(content)]; Python's [None] is [JNull]. *)
Definition _extract_job_details (content : string) : M json :=
  try_except
    (let! response := invoke (JobExtractPrompt content) in
     lift (_clean_json_response response))
    (fun _ => ret JNull).

(** The inner loop of [scrape_job_listings] over the chunks of a page. *)
Fixpoint extract_all (split_contents : list string) (job_listings : list json)
  : M (list json) :=
  match split_contents with
  | [] => ret job_listings
  | content :: rest =>
      let! job_listing := _extract_job_details content in
      if truthy job_listing
      then extract_all rest (job_listings ++ [job_listing])%list
      else extract_all rest job_listings
  end.

(** [scrape_job_listings(job_sites)]. Nothing the [try] block calls
    raises in this model, so its handler is not reached. *)
Fixpoint scrape_sites (job_sites : list string) (job_listings : list json)
  : M (list json) :=
  match job_sites with
  | [] => ret job_listings
  | site :: rest =>
      let! html_content := Scraper.scrape_website E site in
      if nonempty html_content
      then
        let cleaned_content := Scraper.clean_body_content E html_content in
        let split_contents :=
          Scraper.split_dom_content cleaned_content Scraper.default_max_chars in
        let! job_listings := extract_all split_contents job_listings in
        scrape_sites rest job_listings
      else scrape_sites rest job_listings
  end.

Definition scrape_job_listings (job_sites : list string) : M (list json) :=
  scrape_sites job_sites [].

(** [any(keyword in req.lower() for req in reqs)]: the generator stops at
    the first hit; an element without [lower] raises when it is
    reached. *)
Fixpoint any_requirement (keyword : string) (reqs : list json) : result bool :=
  match reqs with
  | [] => Ok false
  | JStr req :: rest =>
      if str_contains keyword (lower req) then Ok true
      else any_requirement keyword rest
  | _ :: _ => Raise AttributeError
  end.

(** [location in job_location or not location] *)
Definition location_match (location job_location : string) : bool :=
  (str_contains location job_location || negb (nonempty location))%bool.

(** [keyword in job_title or keyword in job_description or any(...)]: the
    requirements are read only when title and description do not match. *)
Definition keyword_match (keyword job_title job_description : string) (job : json)
  : result bool :=
  if str_contains keyword job_title then Ok true
  else if str_contains keyword job_description then Ok true
  else
    let* reqs_v := get job "requirements" (JArr []) in
    let* reqs := iter reqs_v in
    any_requirement keyword reqs.

(** The body of the loop of [filter_jobs] for one job, with [location]
    and [keyword] already lower-cased: whether the job is kept. *)
Definition job_passes (location keyword : string) (job : json) : result bool :=
  let* v_location := get job "location" (JStr EmptyString) in
  let job_location := lower (str v_location) in
  let* v_title := get job "job_title" (JStr EmptyString) in
  let job_title := lower (str v_title) in
  let* v_description := get job "description" (JStr EmptyString) in
  let job_description := lower (str v_description) in
  let location_ok := location_match location job_location in
  let* keyword_ok := keyword_match keyword job_title job_description job in
  Ok (location_ok && keyword_ok)%bool.

Fixpoint filter_loop (location keyword : string) (job_listings filtered : list json)
  : result (list json) :=
  match job_listings with
  | [] => Ok filtered
  | job :: rest =>
      let* keep := job_passes location keyword job in
      filter_loop location keyword rest (if keep then filtered ++ [job] else filtered)%list
  end.

(** [filter_jobs(job_listings, location, keyword)] (fapp.py 179-199;
    resume_scraper/f.py 152-172 is the same text). *)
Definition filter_jobs (job_listings : list json) (location keyword : string)
  : result (list json) :=
  let location := lower location in
  let keyword := lower keyword in
  let* filtered := filter_loop location keyword job_listings [] in
  Ok (firstn 5 filtered).

(** One round of the matching loop of fapp.py (lines 136-171): the
    entry appended for [job]. The log line reads [job.get]; both
    branches unpack [job]. *)
Definition match_one (resume_data job : json) : M json :=
  try_except
    (let! _title := lift (get job "job_title" (JStr "Unknown Title")) in
     let! match_result := invoke (MatchingPrompt resume_data job) in
     let! match_data := lift (_clean_json_response match_result) in
     lift (with_key job "match_details"
             (if truthy match_data then match_data else no_match_data)))
    (fun e =>
       lift (with_key job "match_details" (error_match_data (exn_str E e)))).

Fixpoint match_loop (resume_data : json) (job_listings matched_jobs : list json)
  : M (list json) :=
  match job_listings with
  | [] => ret matched_jobs
  | job :: rest =>
      let! matched_job := match_one resume_data job in
      match_loop resume_data rest (matched_jobs ++ [matched_job])%list
  end.

(** [x.get("match_details", {}).get("match_score", 0)] *)
Definition score_key (x : json) : result json :=
  let* details := get x "match_details" (JObj ∅) in
  get details "match_score" (JNum 0).

Fixpoint keys_of (l : list json) : result (list (json * json)) :=
  match l with
  | [] => Ok []
  | x :: rest =>
      let* k := score_key x in
      let* ks := keys_of rest in
      Ok ((k, x) :: ks)
  end.

(** [list.sort(key=..., reverse=True)]: the keys are computed first, then
    the entries are ordered by decreasing key, entries with equal keys
    staying in their order. The sort compares with [<] only; here it is
    an insertion sort, which orders as every stable sort does when no
    comparison raises. *)
Fixpoint insert_desc (kx : json * json) (sorted : list (json * json))
  : result (list (json * json)) :=
  match sorted with
  | [] => Ok [kx]
  | ky :: rest =>
      let* smaller := lt (fst kx) (fst ky) in
      if smaller
      then let* r := insert_desc kx rest in Ok (ky :: r)
      else Ok (kx :: sorted)
  end.

Fixpoint sort_desc (l : list (json * json)) : result (list (json * json)) :=
  match l with
  | [] => Ok []
  | kx :: rest =>
      let* sorted := sort_desc rest in
      insert_desc kx sorted
  end.

Definition sort_by_score (matched_jobs : list json) : result (list json) :=
  let* keyed := keys_of matched_jobs in
  let* sorted := sort_desc keyed in
  Ok (map snd sorted).

(** [match_resume_to_jobs(resume_file, job_listings)] of fapp.py *)
Definition match_resume_to_jobs (resume_file : string) (job_listings : list json)
  : M (list json) :=
  let! resume_data := ResumeProcessor.parse_resume_from_file E resume_file in
  let! failed := lift (contains "error" resume_data) in
  if failed then ret []
  else
    let! matched_jobs := match_loop resume_data job_listings [] in
    lift (sort_by_score matched_jobs).

End WithEnv.
End Matcher.

(** ** class ResumeJobMatcher of resume_scraper/f.py

    The class repeats the one of fapp.py; its matching loop differs. *)

Module F.
Import Py Json Sys.

Section WithEnv.
Variable E : Env.

(** One round of the matching loop of f.py (lines 128-144): the entry
    appended for [job], or [None] when the handler only logs. *)
Definition match_one (resume_data job : json) : M (option json) :=
  try_except
    (let! _title := lift (get job "job_title" JNull) in
     let! match_result := Matcher.invoke E (MatchingPrompt resume_data job) in
     let! match_data := lift (Matcher._clean_json_response E match_result) in
     let! matched_job := lift (with_key job "match_details" match_data) in
     ret (Some matched_job))
    (fun _ => ret None).

Fixpoint match_loop (resume_data : json) (job_listings matched_jobs : list json)
  : M (list json) :=
  match job_listings with
  | [] => ret matched_jobs
  | job :: rest =>
      let! appended := match_one resume_data job in
      match appended with
      | Some matched_job => match_loop resume_data rest (matched_jobs ++ [matched_job])%list
      | None => match_loop resume_data rest matched_jobs
      end
  end.

(** [match_resume_to_jobs(resume_file, job_listings)] of f.py *)
Definition match_resume_to_jobs (resume_file : string) (job_listings : list json)
  : M (list json) :=
  let! resume_data := ResumeProcessor.parse_resume_from_file E resume_file in
  let! failed := lift (contains "error" resume_data) in
  if failed then ret []
  else
    let! matched_jobs := match_loop resume_data job_listings [] in
    lift (Matcher.sort_by_score E matched_jobs).

End WithEnv.
End F.

(** ** The Flask application of fapp.py *)

Module Fapp.
Import Py Json Sys.

Definition ALLOWED_EXTENSIONS : list string := ["pdf"; "docx"; "doc"; "rtf"].
Definition UPLOAD_FOLDER : string := "upload".

(** [allowed_file(filename)] *)
Definition allowed_file (filename : string) : bool :=
  match rfind_char "." filename with
  | None => false
  | Some i =>
      let ext := lower (substring (S i) (String.length filename) filename) in
      existsb (String.eqb ext) ALLOWED_EXTENSIONS
  end.

Inductive http_method := GET | POST.

(** The parts of the request [upload] reads: the method, the uploaded
    file under the field [resume] (its name and its bytes) and the two
    form fields. A request is one whose body is within
    [MAX_CONTENT_LENGTH]: for a larger one werkzeug raises when the view
    first reads [request.files], before any of the code below runs. *)
Record request := {
  method : http_method;
  file_resume : option (string * string);
  form_location : option string;
  form_job_preference : option string
}.

Inductive response :=
  | Redirect (endpoint : string)
  | Render (template : string).

Definition form_get (field : option string) : string :=
  match field with
  | Some v => v
  | None => EmptyString
  end.

Definition search_url (job_preference location : string) : string :=
  "https://www.linkedin.com/jobs/search/?keywords="
    +:+ replace " " "%20" job_preference
    +:+ "&location=" +:+ replace " " "%20" location.

Definition flash_success : flash :=
  Flash "Resume uploaded and processed successfully!" "success".

Section WithEnv.
Variable E : Env.

(** The [try] block of [upload] (lines 235-273). *)
Definition process (filepath location job_preference : string) : M response :=
  let job_sites := [search_url job_preference location] in
  let! job_listings := Matcher.scrape_job_listings E job_sites in
  let! filtered_jobs := lift (Matcher.filter_jobs E job_listings location job_preference) in
  match filtered_jobs with
  | [] =>
      let! _f := do_flash (Flash "No jobs matched your criteria." "error") in
      let! _r := os_remove filepath in
      ret (Redirect "upload")
  | _ :: _ =>
      let! resume_file := open_rb filepath in
      let! matched_jobs := Matcher.match_resume_to_jobs E resume_file filtered_jobs in
      let! _r := os_remove filepath in
      let matched_jobs :=
        match matched_jobs with
        | [] => filtered_jobs
        | _ :: _ => matched_jobs
        end in
      let top_matches := firstn 5 matched_jobs in
      let! _w := modify (set_result_file (Some top_matches)) in
      let! _f := do_flash flash_success in
      ret (Redirect "results")
  end.

(** The handler of that block (lines 275-280). *)
Definition on_error (filepath : string) (e : exn) : M response :=
  let! _f := do_flash (FlashExn "Error processing resume: " e "error") in
  let! present := gets (fun w => upload_dir w !! filepath) in
  match present with
  | Some _ => let! _r := os_remove filepath in ret (Redirect "upload")
  | None => ret (Redirect "upload")
  end.

(** [os.path.join(UPLOAD_FOLDER, secure_filename(file.filename))] *)
Definition filepath_of (file_name : string) : string :=
  UPLOAD_FOLDER +:+ "/" +:+ secure_filename E file_name.

(** [file.save(filepath)], which runs before the [try] block: the state
    after a save that succeeds. A save that raises ends [upload] with that
    exception and is not part of [upload] below, which describes the
    requests whose file is saved. *)
Definition save_upload (filepath bytes : string) (w : World) : World :=
  set_upload_dir (<[filepath := bytes]> (upload_dir w)) w.

(** [request.form.get(name, '').strip().lower()] *)
Definition form_field (field : option string) : string :=
  lower (strip (form_get field)).

(** [upload()], on the requests described above: within the size limit,
    and with a file that [file.save] saves when one is accepted. The
    validation, the [try] block and its handler are the code's; rendering
    the form for a GET is taken to succeed. *)
Definition upload (req : request) : M response :=
  match method req with
  | GET => ret (Render "upload.html")
  | POST =>
      match file_resume req with
      | None =>
          let! _f := do_flash (Flash "No file part in the request" "error") in
          ret (Redirect "upload")
      | Some (file_name, bytes) =>
          if negb (nonempty file_name) then
            let! _f := do_flash (Flash "No selected file" "error") in
            ret (Redirect "upload")
          else if negb (allowed_file file_name) then
            let! _f := do_flash
              (Flash "File type not allowed. Please upload PDF, DOCX, DOC, or RTF." "error") in
            ret (Redirect "upload")
          else
            let filepath := filepath_of file_name in
            let! _s := modify (save_upload filepath bytes) in
            let location := form_field (form_location req) in
            let job_preference := form_field (form_job_preference req) in
            try_except (process filepath location job_preference) (on_error filepath)
      end
  end.

End WithEnv.
End Fapp.

(** ** A reference [json.loads]

    The general statements below hold for every [json_loads]; the concrete
    scenarios are run with this reader of JSON texts. It follows the
    grammar [json.loads] accepts (objects, arrays, strings with their
    escapes, numbers, [true], [false], [null], [NaN] and the infinities,
    JSON white space around tokens, a repeated key keeping its last value).
    An integer literal of more than 4300 digits ends the call with a plain
    [ValueError], as CPython's limit on [int] conversion does. An escape
    above code point 255 is outside the model's strings and is refused; the
    text of the error message is not reproduced, and neither is the
    [RecursionError] of a text nested deeper than the interpreter's stack
    allows, a depth that depends on the caller. *)

Module JsonText.
Import Py Json.

Definition is_ws (c : ascii) : bool :=
  (Ascii.eqb c " " || Ascii.eqb c "009" || Ascii.eqb c "010" || Ascii.eqb c "013")%bool.

Fixpoint skip_ws (s : string) : string :=
  match s with
  | EmptyString => EmptyString
  | String c s' => if is_ws c then skip_ws s' else s
  end.

Definition hex_value (c : ascii) : option nat :=
  let n := code c in
  if between 48 57 n then Some (n - 48)%nat
  else if between 65 70 n then Some (n - 55)%nat
  else if between 97 102 n then Some (n - 87)%nat
  else None.

Definition hex4 (a b c d : ascii) : option nat :=
  match hex_value a, hex_value b, hex_value c, hex_value d with
  | Some x, Some y, Some z, Some t => Some (((x * 16 + y) * 16 + z) * 16 + t)%nat
  | _, _, _, _ => None
  end.

Definition cons_char (c : ascii) (r : option (string * string)) : option (string * string) :=
  match r with
  | Some (body, rest) => Some (String c body, rest)
  | None => None
  end.

(** The characters after an opening quote, up to the closing one. *)
Fixpoint read_string (s : string) : option (string * string) :=
  match s with
  | EmptyString => None
  | String c s' =>
      if Ascii.eqb c dquote then Some (EmptyString, s')
      else if Ascii.eqb c "\" then
        match s' with
        | String e s'' =>
            if Ascii.eqb e dquote then cons_char dquote (read_string s'')
            else if Ascii.eqb e "\" then cons_char "\" (read_string s'')
            else if Ascii.eqb e "/" then cons_char "/" (read_string s'')
            else if Ascii.eqb e "b" then cons_char "008" (read_string s'')
            else if Ascii.eqb e "f" then cons_char "012" (read_string s'')
            else if Ascii.eqb e "n" then cons_char "010" (read_string s'')
            else if Ascii.eqb e "r" then cons_char "013" (read_string s'')
            else if Ascii.eqb e "t" then cons_char "009" (read_string s'')
            else if Ascii.eqb e "u" then
              match s'' with
              | String h1 (String h2 (String h3 (String h4 s5))) =>
                  match hex4 h1 h2 h3 h4 with
                  | Some n =>
                      if Nat.ltb n 256 then cons_char (ascii_of_nat n) (read_string s5)
                      else None
                  | None => None
                  end
              | _ => None
              end
            else None
        | EmptyString => None
        end
      else if Nat.ltb (code c) 32 then None
      else cons_char c (read_string s')
  end.

(** The integer part: [0] or a digit 1..9 followed by digits. *)
Definition take_int (s : string) : option (string * string) :=
  match s with
  | String c s' =>
      if Ascii.eqb c "0" then Some ("0", s')
      else if is_digit c then Some (take_digits s)
      else None
  | EmptyString => None
  end.

Definition take_frac (s : string) : string * string :=
  match s with
  | String "." s' =>
      match take_digits s' with
      | (EmptyString, _) => (EmptyString, s)
      | (d, r) => (String "." d, r)
      end
  | _ => (EmptyString, s)
  end.

Definition take_exp (s : string) : string * string :=
  match s with
  | String c s' =>
      if (Ascii.eqb c "e" || Ascii.eqb c "E")%bool then
        let '(sign, s'') :=
          match s' with
          | String "+" t => ("+", t)
          | String "-" t => ("-", t)
          | _ => (EmptyString, s')
          end in
        match take_digits s'' with
        | (EmptyString, _) => (EmptyString, s)
        | (d, r) => (String c (sign +:+ d), r)
        end
      else (EmptyString, s)
  | EmptyString => (EmptyString, s)
  end.

(** What reading one value from the head of a text gives: the value and
    the rest of the text, no value, or the exception that ends the whole
    [json.loads]. *)
Inductive scan :=
  | Got (v : json) (rest : string)
  | Bad
  | Gave_up (e : exn).

Definition of_option (r : option (json * string)) : scan :=
  match r with
  | Some (v, rest) => Got v rest
  | None => Bad
  end.

(** [sys.int_info.default_max_str_digits]: [int] refuses a longer run of
    digits with a plain [ValueError]. *)
Definition max_str_digits : nat := 4300.

Definition read_number (s : string) : scan :=
  let '(sign, body) :=
    match s with
    | String "-" t => ("-", t)
    | _ => (EmptyString, s)
    end in
  match take_int body with
  | None => Bad
  | Some (int_part, r1) =>
      let '(frac, r2) := take_frac r1 in
      let '(exp, r3) := take_exp r2 in
      match frac, exp with
      | EmptyString, EmptyString =>
          if Nat.ltb max_str_digits (String.length int_part) then Gave_up ValueError
          else
            let n := digits_value int_part 0 in
            Got (JNum (if nonempty sign then - n else n)%Z) r3
      | _, _ => Got (JFloat (sign +:+ int_part +:+ frac +:+ exp)) r3
      end
  end.

Definition literals : list (string * json) :=
  [("null", JNull); ("true", JBool true); ("false", JBool false);
   ("NaN", JFloat "NaN"); ("Infinity", JFloat "Infinity");
   ("-Infinity", JFloat "-Infinity")].

Fixpoint read_literal (table : list (string * json)) (s : string) : option (json * string) :=
  match table with
  | [] => None
  | (word, v) :: rest =>
      if String.prefix word s
      then Some (v, substring (String.length word) (String.length s) s)
      else read_literal rest s
  end.

Definition tag_str (r : option (string * string)) : scan :=
  match r with
  | Some (body, rest) => Got (JStr body) rest
  | None => Bad
  end.

Fixpoint read_value (fuel : nat) (s : string) {struct fuel} : scan :=
  match fuel with
  | O => Bad
  | S f =>
      match skip_ws s with
      | EmptyString => Bad
      | String c rest =>
          if Ascii.eqb c "{" then
            match skip_ws rest with
            | String "}" rest' => Got (JObj ∅) rest'
            | _ => read_members f rest ∅
            end
          else if Ascii.eqb c "[" then
            match skip_ws rest with
            | String "]" rest' => Got (JArr []) rest'
            | _ => read_elements f rest []
            end
          else if Ascii.eqb c dquote then tag_str (read_string rest)
          else
            match read_literal literals (String c rest) with
            | Some r => of_option (Some r)
            | None => read_number (String c rest)
            end
      end
  end
with read_elements (fuel : nat) (s : string) (acc : list json) {struct fuel} : scan :=
  match fuel with
  | O => Bad
  | S f =>
      match read_value f s with
      | Got v rest =>
          match skip_ws rest with
          | String "," rest' => read_elements f rest' (acc ++ [v])%list
          | String "]" rest' => Got (JArr (acc ++ [v])%list) rest'
          | _ => Bad
          end
      | stop => stop
      end
  end
with read_members (fuel : nat) (s : string) (acc : gmap string json) {struct fuel}
  : scan :=
  match fuel with
  | O => Bad
  | S f =>
      match skip_ws s with
      | String c rest =>
          if Ascii.eqb c dquote then
            match read_string rest with
            | None => Bad
            | Some (key, rest1) =>
                match skip_ws rest1 with
                | String ":" rest2 =>
                    match read_value f rest2 with
                    | Got v rest3 =>
                        match skip_ws rest3 with
                        | String "," rest4 => read_members f rest4 (<[key := v]> acc)
                        | String "}" rest4 => Got (JObj (<[key := v]> acc)) rest4
                        | _ => Bad
                        end
                    | stop => stop
                    end
                | _ => Bad
                end
            end
          else Bad
      | EmptyString => Bad
      end
  end.

Definition loads (s : string) : parse_result :=
  match read_value (S (String.length s)) s with
  | Got v rest =>
      match skip_ws rest with
      | EmptyString => Parsed v
      | String _ _ => DecodeError "Extra data"
      end
  | Bad => DecodeError "Expecting value"
  | Gave_up e => LoadsRaised e
  end.

End JsonText.

(** ** Concrete environments for the scenarios *)

Module Demo.
Import Py Json Sys.

Definition q : string := String dquote EmptyString.

Definition exn_text (e : exn) : string :=
  match e with
  | AttributeError => "AttributeError"
  | TypeError => "TypeError"
  | KeyError => "KeyError"
  | ValueError => "ValueError"
  | RecursionError => "RecursionError"
  | JSONDecodeError m => m
  | External m => m
  end.

(** An environment in which the browser, the upload folder and the data
    file work; what the page holds, what the two models answer and what
    the PDF reader finds are the parameters. *)
Definition env
    (get_outcome : result ())
    (page_text : string)
    (llm : nat -> prompt -> result string)
    (pages : result (list (result (option string))))
    (gem : result (result string)) : Env :=
  {| json_loads := JsonText.loads;
     repr := fun _ => "<value>";
     lt_other := fun _ _ => Raise TypeError;
     exn_str := exn_text;
     secure_filename := fun name => name;
     chrome := fun _ => Ok ();
     driver_get := fun _ _ => get_outcome;
     page_source := fun _ _ => Ok "<html>";
     driver_quit := fun _ => Ok ();
     soup_body_text := fun _ => Some page_text;
     soup_text := fun _ => page_text;
     ollama := llm;
     write_data_file := fun _ => Ok ();
     pdf_reader := fun _ => pages;
     gemini := fun _ _ => gem |}.

(** Only [json.loads] matters to the sanitizer. *)
Definition reader_env : Env :=
  env (Ok ()) EmptyString (fun _ _ => Raise (External "offline"))
      (Ok []) (Raise (External "offline")).

Definition world0 : World :=
  {| llm_calls := 0; gemini_calls := 0; launched := 0; open_sessions := ∅;
     upload_dir := ∅; data_file := None; result_file := None; flashed := [] |}.

(** The sanitizer scenario of the design document:
    Here is the result: / ```json / {"match_score": 85} / ``` *)
Definition fenced_score : string :=
  "Here is the result:" +:+ String nl ("```json" +:+ String nl
    ("{" +:+ q +:+ "match_score" +:+ q +:+ ": 85}" +:+ String nl "```")).

(** A run of 4301 digits, one more than [int] converts. *)
Definition long_number : string := string_of_list_ascii (repeat "1"%char 4301).

(** An object as [json.dumps(..., indent=2)] prints it. *)
Definition pretty_object : string :=
  "{" +:+ String nl ("  " +:+ q +:+ "a" +:+ q +:+ ": 1," +:+ String nl
    ("  " +:+ q +:+ "b" +:+ q +:+ ": " +:+ q +:+ "x" +:+ q +:+ String nl "}")).

(** A reply whose prose uses braces before the object. *)
Definition braces_in_prose : string :=
  "Score {high}: {" +:+ q +:+ "match_score" +:+ q +:+ ": 85}".

(** A one-page resume the Gemini model turns into a profile. *)
Definition resume_pages : result (list (result (option string))) :=
  Ok [Ok (Some "Jane Doe, engineer")].

Definition resume_reply : result (result string) :=
  Ok (Ok ("{" +:+ q +:+ "Full Name" +:+ q +:+ ": " +:+ q +:+ "Jane Doe" +:+ q +:+ "}")).

Definition titled (title : string) : json := obj [("job_title", JStr title)].

Definition title (x : json) : string :=
  match get x "job_title" JNull with
  | Ok (JStr t) => t
  | _ => EmptyString
  end.

(** The ranking scenario of the design document: seven jobs whose match
    scores come back as 90, 40, 90, 10, 70, 0, 55. *)
Definition seven_jobs : list json :=
  map titled ["J1"; "J2"; "J3"; "J4"; "J5"; "J6"; "J7"].

Definition score_reply (n : nat) : result string :=
  match nth_error ["90"; "40"; "90"; "10"; "70"; "0"; "55"] n with
  | Some digits => Ok ("{" +:+ q +:+ "match_score" +:+ q +:+ ": " +:+ digits +:+ "}")
  | None => Raise (External "no reply")
  end.

Definition ranking_env : Env :=
  env (Ok ()) EmptyString (fun n _ => score_reply n) resume_pages resume_reply.

(** The model behind the matching step is down. *)
Definition llm_down_env : Env :=
  env (Ok ()) EmptyString (fun _ _ => Raise (External "connection refused"))
      resume_pages resume_reply.

Definition pdf_bytes : string := "%PDF-1.7".

(** What that resume parses to, and the state the parse leaves. *)
Definition profile : json := obj [("Full Name", JStr "Jane Doe")].

Definition after_parse : World :=
  set_gemini_calls 1 (set_data_file (Some pdf_bytes) world0).

(** A page the browser cannot reach. *)
Definition unreachable_env : Env :=
  env (Raise (External "net::ERR_NAME_NOT_RESOLVED")) EmptyString
      (fun _ _ => Raise (External "offline")) (Ok []) (Raise (External "offline")).

(** One job on the results page, and an uploaded PDF without any text. *)
Definition kathmandu_job : json :=
  obj [("job_title", JStr "Software Engineer"); ("location", JStr "Kathmandu, Nepal")].

Definition kathmandu_reply : string :=
  "{" +:+ q +:+ "job_title" +:+ q +:+ ": " +:+ q +:+ "Software Engineer" +:+ q +:+ ", "
      +:+ q +:+ "location" +:+ q +:+ ": " +:+ q +:+ "Kathmandu, Nepal" +:+ q +:+ "}".

Definition blank_pdf_env : Env :=
  env (Ok ()) "Software Engineer, Acme, Kathmandu, Nepal"
      (fun _ _ => Ok kathmandu_reply) (Ok [Ok None]) resume_reply.

Definition upload_request : Fapp.request :=
  {| Fapp.method := Fapp.POST;
     Fapp.file_resume := Some ("cv.pdf", pdf_bytes);
     Fapp.form_location := Some "Kathmandu";
     Fapp.form_job_preference := Some "Engineer" |}.

End Demo.

(** ** What a claim about the sanitizer quantifies over *)

Module SanitizerSpec.
Import Py Json Sys.

(** [c] does not occur in [s]. *)
Definition lacks (c : ascii) (s : string) : Prop := find_char c s = None.

(** [t] is the text of a JSON object: from [{] to [}], and [loads] reads
    an object from it. *)
Definition first_is (c : ascii) (t : string) : bool :=
  match t with
  | String a _ => Ascii.eqb a c
  | EmptyString => false
  end.

Fixpoint last_is (c : ascii) (t : string) : bool :=
  match t with
  | EmptyString => false
  | String a EmptyString => Ascii.eqb a c
  | String _ t' => last_is c t'
  end.

Definition is_object_text (loads : string -> parse_result) (t : string) : bool :=
  (first_is "{" t && last_is "}" t &&
   match loads t with
   | Parsed (JObj _) => true
   | _ => false
   end)%bool.

(** The spans [(start, length)] of [raw] that are object texts. *)
Definition spans (n : nat) : list (nat * nat) :=
  flat_map (fun i => map (fun k => (i, S k)) (seq 0 (n - i))) (seq 0 n).

Definition object_spans (loads : string -> parse_result) (raw : string) : list (nat * nat) :=
  filter (fun sp => is_object_text loads (substring (fst sp) (snd sp) raw) = true)
         (spans (String.length raw)).

(** What the sanitizer does to the text before it parses. *)
Definition cleaned (raw : string) : string :=
  strip (replace Matcher.fence EmptyString (replace Matcher.fence_json EmptyString raw)).

End SanitizerSpec.

(** ** What a claim about the chunker quantifies over *)

Module ChunkSpec.
Import Py.

Definition starts_clean (s : string) : bool :=
  match s with
  | EmptyString => false
  | String c _ => negb (isspace c)
  end.

Fixpoint ends_clean (s : string) : bool :=
  match s with
  | EmptyString => false
  | String c EmptyString => negb (isspace c)
  | String _ s' => ends_clean s'
  end.

(** A line that is not empty and neither starts nor ends with white
    space. *)
Definition tidy (line : string) : Prop :=
  starts_clean line = true /\ ends_clean line = true.

(** The chunks with their newlines put back: the non-empty chunks joined
    by a newline. *)
Definition rejoin (chunks : list string) : string :=
  join (String nl EmptyString) (List.filter nonempty chunks).

(** The text has no newline in it: it is a single line. *)
Definition single_line (s : string) : Prop := find_char nl s = None.

(** The chunk is at most [max_chars] long, or it is a single line longer
    than that. *)
Definition fits (max_chars : Z) (chunk : string) : Prop :=
  (len chunk <= max_chars)%Z \/ (single_line chunk /\ (len chunk > max_chars)%Z).

(** The same with the origin of the long chunk: it is a line of [content],
    trimmed, and that line is longer than [max_chars]. *)
Definition within (content : string) (max_chars : Z) (chunk : string) : Prop :=
  (len chunk <= max_chars)%Z \/
  exists line, In line (split nl content) /\ chunk = strip line /\ (len line > max_chars)%Z.

(** What the loop keeps true of its state [(chunks, current_chunk)]: the
    chunks closed so far fit, and the open chunk is within the bound or a
    single line. *)
Definition fitting_state (max_chars : Z) (st : list string * string) : Prop :=
  Forall (fits max_chars) (fst st) /\
  ((len (snd st) <= max_chars)%Z \/ single_line (snd st)).

(** The same with the origin: the open chunk is within the bound or a line
    of [content] that is over it. *)
Definition bounded_state (content : string) (max_chars : Z) (st : list string * string)
  : Prop :=
  Forall (within content max_chars) (fst st) /\
  ((len (snd st) <= max_chars)%Z \/
   (In (snd st) (split nl content) /\ (len (snd st) > max_chars)%Z)).

(** What the loop keeps true once [done], the lines read so far, is not
    empty: the open chunk is a tidy text [g], or [g] after the newline the
    first round puts in front, and the closed chunks followed by [g] rejoin
    to the lines read. *)
Definition joined_state (done : list string) (st : list string * string) : Prop :=
  done <> [] /\
  exists g, tidy g /\
    (snd st = g \/ snd st = String nl g) /\
    join (String nl EmptyString) (List.filter nonempty (fst st) ++ [g])%list
    = join (String nl EmptyString) done.

End ChunkSpec.

(** ** What a claim about the filter quantifies over *)

Module FilterSpec.
Import Py Json Sys.

Definition is_string (v : json) : bool :=
  match v with
  | JStr _ => true
  | _ => false
  end.

(** A job as the data model has it, as far as the filter reads it: a
    mapping whose requirements, when present, are a list of strings. *)
Definition job_listing (job : json) : Prop :=
  exists fields, job = JObj fields /\
    match fields !! "requirements" with
    | None => True
    | Some (JArr reqs) => forallb is_string reqs = true
    | Some _ => False
    end.

(** The job passes both tests. *)
Definition passes (E : Env) (location keyword : string) (job : json) : bool :=
  match Matcher.job_passes E location keyword job with
  | Ok true => true
  | _ => false
  end.

(** The keyword test on one job, as [filter_jobs] evaluates it. *)
Definition keyword_test (E : Env) (keyword : string) (job : json) : result bool :=
  let* v_title := get job "job_title" (JStr EmptyString) in
  let* v_description := get job "description" (JStr EmptyString) in
  Matcher.keyword_match keyword (lower (Matcher.str E v_title))
    (lower (Matcher.str E v_description)) job.

(** *** The two tests in the words of the design document

    Section 4.4: the match is a case-insensitive substring match; a job
    passes the location test if [location] is empty or [location] is a
    substring of the job's location field; it passes the keyword test if
    [keyword] is a substring of the title, or of the description, or of any
    requirement string; a job is kept only if it passes both tests. These
    definitions follow that text, not the code, and are what the code is
    compared with. *)

Definition is_substring (needle hay : string) : Prop :=
  exists before after, hay = before +:+ needle +:+ after.

(** Case-insensitive: the two texts are compared in lower case. *)
Definition occurs_in (needle hay : string) : Prop :=
  is_substring (lower needle) (lower hay).

(** A field of a job as text: empty when the job has no such field. *)
Definition field_text (E : Env) (job : json) (key : string) : string :=
  match job with
  | JObj fields =>
      match fields !! key with
      | Some (JStr s) => s
      | Some v => repr E v
      | None => EmptyString
      end
  | _ => EmptyString
  end.

Definition requirement_strings (job : json) : list string :=
  match job with
  | JObj fields =>
      match fields !! "requirements" with
      | Some (JArr reqs) =>
          flat_map (fun req => match req with JStr s => [s] | _ => [] end) reqs
      | _ => []
      end
  | _ => []
  end.

Definition passes_location_test (E : Env) (location : string) (job : json) : Prop :=
  location = EmptyString \/ occurs_in location (field_text E job "location").

Definition passes_keyword_test (E : Env) (keyword : string) (job : json) : Prop :=
  occurs_in keyword (field_text E job "job_title") \/
  occurs_in keyword (field_text E job "description") \/
  exists req, In req (requirement_strings job) /\ occurs_in keyword req.

Definition passes_both_tests (E : Env) (location keyword : string) (job : json) : Prop :=
  passes_location_test E location job /\ passes_keyword_test E keyword job.

End FilterSpec.

(** ** What a claim about matching and ranking quantifies over *)

Module MatchSpec.
Import Py Json Sys.

(** The integer the sort key of a matched job denotes, 0 when there is
    none. *)
Definition score (x : json) : Z :=
  match Matcher.score_key x with
  | Ok k => match as_int k with Some z => z | None => 0%Z end
  | Raise _ => 0%Z
  end.

(** A matched job of the data model: its [match_details] is a mapping
    whose [match_score], when present, is an integer. *)
Definition scored (x : json) : Prop :=
  exists k z, Matcher.score_key x = Ok k /\ as_int k = Some z.

Definition scoredb (x : json) : bool :=
  match Matcher.score_key x with
  | Ok k => match as_int k with Some _ => true | None => false end
  | Raise _ => false
  end.

(** Earlier entries have scores at least those of later entries. *)
Definition descending (l : list json) : Prop :=
  StronglySorted (fun a b => (score a >= score b)%Z) l.

(** [out] keeps, score by score, the order the entries have in [l]. *)
Definition ties_in_order (l out : list json) : Prop :=
  forall s : Z,
    List.filter (fun x => (score x =? s)%Z) out
    = List.filter (fun x => (score x =? s)%Z) l.

(** The same notions on the keyed entries the sort works on. *)
Definition zkey (kx : json * json) : Z :=
  match as_int (fst kx) with Some z => z | None => 0%Z end.

Definition int_keyed (kx : json * json) : Prop := exists z, as_int (fst kx) = Some z.

Definition key_is (s : Z) (kx : json * json) : bool := (zkey kx =? s)%Z.

Definition key_ge (a b : json * json) : Prop := (zkey a >= zkey b)%Z.

(** The entry the matching step of fapp.py makes of [job] when the model
    call raises [e]. *)
Definition error_entry (E : Env) (job : json) (e : exn) (entry : json) : Prop :=
  with_key job "match_details" (Matcher.error_match_data (exn_str E e)) = Ok entry.

(** [entry] is [job] with a [match_details] key set. *)
Definition entry_of (job entry : json) : Prop :=
  exists details, with_key job "match_details" details = Ok entry.

(** What the matching step of fapp.py stores under [match_details] for
    [job] when its model call is the [n]-th: the error placeholder when the
    call (or the sanitizer) raises, the sanitizer's value when it is truthy,
    the other placeholder when it is not. *)
Definition details_for (E : Env) (resume_data job : json) (n : nat) : json :=
  match ollama E n (MatchingPrompt resume_data job) with
  | Raise e => Matcher.error_match_data (exn_str E e)
  | Ok text =>
      match Matcher._clean_json_response E text with
      | Ok match_data => if truthy match_data then match_data else Matcher.no_match_data
      | Raise e => Matcher.error_match_data (exn_str E e)
      end
  end.

Definition entry_for (E : Env) (resume_data : json) (n : nat) (job : json) : json :=
  match job with
  | JObj fields => JObj (<["match_details" := details_for E resume_data job n]> fields)
  | _ => job
  end.

(** The entries the loop appends for [jobs] when the first model call is
    the [n]-th. *)
Fixpoint entries_from (E : Env) (resume_data : json) (n : nat) (jobs : list json)
  : list json :=
  match jobs with
  | [] => []
  | job :: rest => entry_for E resume_data n job :: entries_from E resume_data (S n) rest
  end.

(** The resume parses without an error and the matching loop of fapp.py
    ends with the list [matched]. *)
Definition matched_by (E : Env) (resume_file : string) (jobs : list json) (w : World)
    (matched : list json) (w' : World) : Prop :=
  exists resume_data w1,
    ResumeProcessor.parse_resume_from_file E resume_file w = (Ok resume_data, w1) /\
    contains "error" resume_data = Ok false /\
    Matcher.match_loop E resume_data jobs [] w1 = (Ok matched, w').

(** The resume parse reports an error. *)
Definition resume_fails (E : Env) (resume_file : string) (w w' : World) : Prop :=
  exists resume_data,
    ResumeProcessor.parse_resume_from_file E resume_file w = (Ok resume_data, w') /\
    contains "error" resume_data = Ok true.

(** The parts of the state the scraper, the models and the resume parser
    leave alone. *)
Definition frame (w w' : World) : Prop :=
  upload_dir w' = upload_dir w /\ flashed w' = flashed w /\ result_file w' = result_file w.

Definition preserves {A} (m : M A) : Prop :=
  forall w r w', m w = (r, w') -> frame w w'.

End MatchSpec.

(** ** What a claim about the upload flow quantifies over *)

Module AppSpec.
Import Py Json Sys.

Definition is_error (f : flash) : Prop :=
  match f with
  | Flash _ category => category = "error"
  | FlashExn _ _ category => category = "error"
  end.

(** The request reaches the matching step: it is a POST with an allowed
    file, scraping from the state [w0] left by saving the file ends in [w1]
    with listings of which the filter keeps [filtered], not empty. *)
Definition reaches_matching (E : Env) (req : Fapp.request) (w : World)
    (bytes : string) (filtered : list json) (w1 : World) : Prop :=
  exists file_name listings,
    Fapp.method req = Fapp.POST /\
    Fapp.file_resume req = Some (file_name, bytes) /\
    nonempty file_name = true /\
    Fapp.allowed_file file_name = true /\
    Matcher.scrape_job_listings E
      [Fapp.search_url (Fapp.form_field (Fapp.form_job_preference req))
                       (Fapp.form_field (Fapp.form_location req))]
      (Fapp.save_upload (Fapp.filepath_of E file_name) bytes w)
    = (Ok listings, w1) /\
    Matcher.filter_jobs E listings (Fapp.form_field (Fapp.form_location req))
      (Fapp.form_field (Fapp.form_job_preference req))
    = Ok filtered /\
    filtered <> [].

End AppSpec.

(** ** Notions used by the further properties *)

Module CoverSpec.
Import Py Json Sys.

(** [m] relates the state it starts in to the state it ends in by [R]. *)
Definition keeps {A} (R : World -> World -> Prop) (m : M A) : Prop :=
  forall w r w', m w = (r, w') -> R w w'.

(** The matching model was not invoked. *)
Definition same_llm (w w' : World) : Prop := llm_calls w' = llm_calls w.

(** The resume was not touched: no data file written, no profile asked. *)
Definition same_resume_state (w w' : World) : Prop :=
  gemini_calls w' = gemini_calls w /\ data_file w' = data_file w.

(** The browser was not started. *)
Definition same_browser (w w' : World) : Prop :=
  launched w' = launched w /\ open_sessions w' = open_sessions w.

(** Every open session was launched earlier. *)
Definition sessions_known (w : World) : Prop :=
  forall sid, sid ∈ open_sessions w -> (sid < launched w)%nat.

(** The page gave no text: [extract_text()] raised, or returned [None] or
    the empty string. *)
Definition no_text (p : result (option string)) : Prop :=
  ResumeProcessor.page_text p = EmptyString.

(** [entry] has the fields of [job], but for [match_details]. *)
Definition same_fields (job entry : json) : Prop :=
  forall key, key <> "match_details" ->
    get entry key JNull = get job key JNull.

(** The value is not a dict. *)
Definition not_mapping (v : json) : Prop :=
  match v with
  | JObj _ => False
  | _ => True
  end.

(** The extension of [ext] is one the application accepts. *)
Definition allowed_ext (ext : string) : bool :=
  existsb (String.eqb (lower ext)) Fapp.ALLOWED_EXTENSIONS.

(** The request carries a file the application accepts. *)
Definition accepted (req : Fapp.request) (file_name bytes : string) : Prop :=
  Fapp.method req = Fapp.POST /\
  Fapp.file_resume req = Some (file_name, bytes) /\
  nonempty file_name = true /\
  Fapp.allowed_file file_name = true.

(** The request is turned away before anything is saved. *)
Definition turned_away (req : Fapp.request) : Prop :=
  Fapp.method req = Fapp.POST /\
  match Fapp.file_resume req with
  | None => True
  | Some (file_name, _) => nonempty file_name = false \/ Fapp.allowed_file file_name = false
  end.

(** What the matching step of f.py appends for [job] when its model call
    is the [n]-th: the job with the sanitizer's value under [match_details],
    or nothing when the call raises. *)
Definition f_entry (E : Env) (resume_data : json) (n : nat) (job : json) : option json :=
  match job with
  | JObj fields =>
      match ollama E n (MatchingPrompt resume_data job) with
      | Ok text =>
          match Matcher._clean_json_response E text with
          | Ok match_data => Some (JObj (<["match_details" := match_data]> fields))
          | Raise _ => None
          end
      | Raise _ => None
      end
  | _ => None
  end.

Fixpoint f_entries_from (E : Env) (resume_data : json) (n : nat) (jobs : list json)
  : list json :=
  match jobs with
  | [] => []
  | job :: rest =>
      match f_entry E resume_data n job with
      | Some entry => entry :: f_entries_from E resume_data (S n) rest
      | None => f_entries_from E resume_data (S n) rest
      end
  end.

(** What [parse_resume_from_file] does with a parsed reply that is not a
    mapping: [in] looks for an element or a substring, and a hit is then
    subscripted with a string. *)
Definition non_mapping_outcome (v : json) : result json :=
  match contains "error" v with
  | Ok false => Ok v
  | _ => Raise TypeError
  end.

End CoverSpec.

(** Scenarios for the properties of the further code. *)
Module Scenes.
Import Py Json Sys.

(** A three-page file whose middle page cannot be read. *)
Definition torn_pdf_env : Env :=
  Demo.env (Ok ()) EmptyString (fun _ _ => Raise (External "offline"))
    (Ok [Ok (Some "Jane "); Raise (External "bad page"); Ok (Some "Doe")])
    Demo.resume_reply.

(** A scanned file: two pages, neither with text. *)
Definition scanned_pdf_env : Env :=
  Demo.env (Ok ()) EmptyString (fun _ _ => Raise (External "offline"))
    (Ok [Ok None; Ok (Some EmptyString)]) Demo.resume_reply.

(** The resume model answers in prose. *)
Definition prose_gemini_env : Env :=
  Demo.env (Ok ()) EmptyString (fun _ _ => Raise (External "offline"))
    Demo.resume_pages (Ok (Ok "I cannot read this resume.")).

(** The matching model answers with a bare number. *)
Definition bare_number_env : Env :=
  Demo.env (Ok ()) EmptyString (fun _ _ => Ok "85") Demo.resume_pages Demo.resume_reply.

(** Three ranked entries, two of them tied. *)
Definition scored_job (title : string) (score : Z) : json :=
  obj [("job_title", JStr title); ("match_details", obj [("match_score", JNum score)])].

Definition ranked_jobs : list json :=
  [scored_job "J1" 90; scored_job "J2" 40; scored_job "J3" 40].

(** The resume model answers with a JSON list. *)
Definition list_gemini_env : Env :=
  Demo.env (Ok ()) EmptyString (fun _ _ => Raise (External "offline"))
    Demo.resume_pages (Ok (Ok "[1, 2]")).

(** The extraction model answers with a JSON list. *)
Definition list_listing_env : Env :=
  Demo.env (Ok ()) "Software Engineer, Acme, Kathmandu, Nepal"
    (fun _ _ => Ok "[1]") Demo.resume_pages Demo.resume_reply.

End Scenes.

(** * Properties *)

(** ** Strings *)

Section StringFacts.
Import Py.

Lemma append_empty_r (s : string) : s +:+ EmptyString = s.
Proof. induction s as [|a s IH]; simpl; [reflexivity | now rewrite IH]. Qed.

Lemma append_assoc (s t u : string) : (s +:+ t) +:+ u = s +:+ (t +:+ u).
Proof. induction s as [|a s IH]; simpl; [reflexivity | now rewrite IH]. Qed.

Lemma length_append (s t : string) :
  String.length (s +:+ t) = (String.length s + String.length t)%nat.
Proof. induction s as [|a s IH]; simpl; [reflexivity | now rewrite IH]. Qed.

Lemma rfind_none_iff (c : ascii) (s : string) :
  rfind_char c s = None <-> find_char c s = None.
Proof.
  induction s as [|a s IH]; simpl; [tauto |].
  destruct (rfind_char c s), (find_char c s), (Ascii.eqb a c); simpl;
    intuition congruence.
Qed.

Lemma find_char_append_none (c : ascii) (s t : string) :
  find_char c (s +:+ t) = None <-> find_char c s = None /\ find_char c t = None.
Proof.
  induction s as [|a s IH]; simpl; [tauto |].
  destruct (Ascii.eqb a c); [intuition congruence |].
  destruct (find_char c (s +:+ t)), (find_char c s); simpl in *;
    intuition congruence.
Qed.

(** Dropping text never brings in a character. *)
Lemma lstrip_lacks (c : ascii) (s : string) :
  find_char c s = None -> find_char c (lstrip s) = None.
Proof.
  induction s as [|a s IH]; simpl; [tauto |].
  destruct (isspace a); [| simpl; tauto].
  destruct (Ascii.eqb a c); [discriminate |].
  destruct (find_char c s); [discriminate | auto].
Qed.

Lemma rstrip_lacks (c : ascii) (s : string) :
  find_char c s = None -> find_char c (rstrip s) = None.
Proof.
  induction s as [|a s IH]; simpl; [tauto |].
  destruct (Ascii.eqb a c) eqn:Hac; [discriminate |].
  destruct (find_char c s); [discriminate |]. intros _.
  specialize (IH eq_refl).
  destruct (rstrip s) as [|b r].
  - destruct (isspace a); simpl; [reflexivity | now rewrite Hac].
  - change (find_char c (String a (String b r)))
      with (if Ascii.eqb a c then Some O else option_map S (find_char c (String b r))).
    now rewrite Hac, IH.
Qed.

Lemma strip_lacks (c : ascii) (s : string) :
  find_char c s = None -> find_char c (strip s) = None.
Proof. intros H. unfold strip. now apply rstrip_lacks, lstrip_lacks. Qed.

Lemma replace_from_cons (pat rep : string) (skip : nat) (a : ascii) (s : string) :
  replace_from pat rep skip (String a s) =
  match skip with
  | S k => replace_from pat rep k s
  | O =>
      if String.prefix pat (String a s)
      then rep +:+ replace_from pat rep (String.length pat - 1) s
      else String a (replace_from pat rep O s)
  end.
Proof. reflexivity. Qed.

Lemma find_char_cons (c a : ascii) (s : string) :
  find_char c (String a s) =
  if Ascii.eqb a c then Some O else option_map S (find_char c s).
Proof. reflexivity. Qed.

Lemma remove_from_lacks (c : ascii) (pat : string) (s : string) :
  forall skip, find_char c s = None ->
    find_char c (replace_from pat EmptyString skip s) = None.
Proof.
  induction s as [|a s IH]; intros skip H; [reflexivity |].
  rewrite find_char_cons in H.
  destruct (Ascii.eqb a c) eqn:Hac; [discriminate |].
  destruct (find_char c s) eqn:Hs; [discriminate |].
  rewrite replace_from_cons.
  destruct skip as [|k]; [| now apply IH].
  destruct (String.prefix pat (String a s)).
  - simpl. now apply IH.
  - rewrite find_char_cons, Hac. now rewrite IH.
Qed.

Lemma remove_lacks (c : ascii) (pat s : string) :
  find_char c s = None -> find_char c (replace pat EmptyString s) = None.
Proof. apply remove_from_lacks. Qed.

(** *** Removing a pattern from a text laid out as prefix, body, suffix *)

Lemma prefix_boundary (c : ascii) (u : string) (pat : string) :
  find_char c pat = None ->
  forall t, String.prefix pat (t +:+ String c u) = String.prefix pat t.
Proof.
  induction pat as [|p pat IH]; intros Hc t; [now destruct t |].
  rewrite find_char_cons in Hc.
  destruct (Ascii.eqb p c) eqn:Hpc; [discriminate |].
  destruct (find_char c pat) eqn:Hpat; [discriminate |].
  destruct t as [|a t]; simpl.
  - destruct (ascii_dec p c) as [->|]; [| reflexivity].
    now rewrite Ascii.eqb_refl in Hpc.
  - destruct (ascii_dec p a); [| reflexivity]. now apply IH.
Qed.

Lemma prefix_length (pat t : string) :
  String.prefix pat t = true -> (String.length pat <= String.length t)%nat.
Proof.
  revert pat. induction t as [|a t IH]; intros [|p pat] H; simpl in *;
    try lia; try discriminate.
  destruct (ascii_dec p a); [| discriminate].
  apply IH in H. lia.
Qed.

Lemma remove_from_boundary (c : ascii) (u pat : string) :
  find_char c pat = None ->
  forall pre skip, (skip <= String.length pre)%nat ->
    replace_from pat EmptyString skip (pre +:+ String c u) =
    replace_from pat EmptyString skip pre +:+ replace_from pat EmptyString O (String c u).
Proof.
  intros Hc. induction pre as [|a pre IH]; intros skip Hskip.
  - simpl in Hskip. now replace skip with O by lia.
  - change (String a pre +:+ String c u) with (String a (pre +:+ String c u)).
    rewrite !replace_from_cons.
    destruct skip as [|k]; [| apply IH; simpl in Hskip; lia].
    change (String a (pre +:+ String c u)) with (String a pre +:+ String c u).
    rewrite (prefix_boundary c u pat Hc).
    destruct (String.prefix pat (String a pre)) eqn:Hp.
    + apply prefix_length in Hp. simpl in Hp. simpl. apply IH. lia.
    + simpl. f_equal. apply IH. lia.
Qed.

Lemma remove_keeps_body (p0 : ascii) (pat' body u : string) :
  find_char p0 body = None ->
  replace_from (String p0 pat') EmptyString O (body +:+ u) =
  body +:+ replace_from (String p0 pat') EmptyString O u.
Proof.
  induction body as [|a body IH]; intros H; [reflexivity |].
  rewrite find_char_cons in H.
  destruct (Ascii.eqb a p0) eqn:Ha; [discriminate |].
  destruct (find_char p0 body); [discriminate |].
  change (String a body +:+ u) with (String a (body +:+ u)).
  rewrite replace_from_cons.
  assert (Hp : String.prefix (String p0 pat') (String a (body +:+ u)) = false).
  { simpl. destruct (ascii_dec p0 a) as [->|]; [| reflexivity].
    now rewrite Ascii.eqb_refl in Ha. }
  rewrite Hp. simpl. f_equal. now apply IH.
Qed.

(** The pattern starts with [p0]; the body starts with [c], which the
    pattern lacks, and has no [p0]. *)
Lemma remove_around_body (p0 c : ascii) (pat' pre mid post : string) :
  find_char c (String p0 pat') = None ->
  find_char p0 (String c mid) = None ->
  replace (String p0 pat') EmptyString (pre +:+ String c mid +:+ post) =
  replace (String p0 pat') EmptyString pre +:+ String c mid
    +:+ replace (String p0 pat') EmptyString post.
Proof.
  intros Hc Hb. unfold replace.
  change (String c mid +:+ post) with (String c (mid +:+ post)).
  rewrite (remove_from_boundary c (mid +:+ post) _ Hc pre O) by lia.
  f_equal.
  change (String c (mid +:+ post)) with (String c mid +:+ post).
  now apply remove_keeps_body.
Qed.

(** *** Trimming such a text *)

Lemma lstrip_before (c : ascii) (x pre : string) :
  isspace c = false ->
  exists pre', lstrip (pre +:+ String c x) = pre' +:+ String c x /\
               forall d, find_char d pre = None -> find_char d pre' = None.
Proof.
  intros Hc. induction pre as [|a pre IH].
  - exists EmptyString. simpl. rewrite Hc. auto.
  - simpl. destruct (isspace a).
    + destruct IH as (pre' & -> & Hl). exists pre'. split; [reflexivity |].
      intros d Hd. cbn [find_char] in Hd.
      destruct (Ascii.eqb a d); [discriminate |].
      destruct (find_char d pre) eqn:Hpre; [discriminate |].
      now apply Hl.
    + exists (String a pre). auto.
Qed.

Lemma rstrip_cons (a : ascii) (s : string) :
  rstrip (String a s) =
  match rstrip s with
  | EmptyString => if isspace a then EmptyString else String a EmptyString
  | r => String a r
  end.
Proof. reflexivity. Qed.

Lemma rstrip_after (c : ascii) (post w : string) :
  isspace c = false ->
  rstrip (w +:+ String c post) = w +:+ String c (rstrip post).
Proof.
  intros Hc. induction w as [|a w IH].
  - simpl append. rewrite rstrip_cons, Hc. now destruct (rstrip post).
  - change (String a w +:+ String c post) with (String a (w +:+ String c post)).
    rewrite rstrip_cons, IH. now destruct w.
Qed.

(** *** Locating the braces and cutting the span *)

Lemma find_char_first (c : ascii) (pre x : string) :
  find_char c pre = None ->
  find_char c (pre +:+ String c x) = Some (String.length pre).
Proof.
  induction pre as [|a pre IH]; intros H.
  - simpl. now rewrite Ascii.eqb_refl.
  - rewrite find_char_cons in H.
    destruct (Ascii.eqb a c) eqn:Ha; [discriminate |].
    destruct (find_char c pre); [discriminate |].
    simpl. now rewrite Ha, IH.
Qed.

Lemma rfind_char_last (c : ascii) (w post : string) :
  find_char c post = None ->
  rfind_char c (w +:+ String c post) = Some (String.length w).
Proof.
  intros H. apply rfind_none_iff in H. induction w as [|a w IH].
  - simpl. now rewrite H, Ascii.eqb_refl.
  - simpl. now rewrite IH.
Qed.

Lemma substring_whole (s t : string) :
  substring 0 (String.length s) (s +:+ t) = s.
Proof. induction s as [|a s IH]; simpl; [now destruct t | now rewrite IH]. Qed.

Lemma substring_skip (pre s : string) (n : nat) :
  substring (String.length pre) n (pre +:+ s) = substring 0 n s.
Proof. induction pre as [|a pre IH]; simpl; auto. Qed.

Lemma slice_middle (pre body post : string) :
  slice (pre +:+ body +:+ post) (String.length pre)
        (String.length pre + String.length body) = body.
Proof.
  unfold slice.
  replace (String.length pre + String.length body - String.length pre)%nat
    with (String.length body) by lia.
  rewrite substring_skip. apply substring_whole.
Qed.

End StringFacts.

(** ** The response sanitizer *)

Section Sanitizer.
Import Py Json Sys SanitizerSpec.
Variable E : Env.

Lemma cleaned_lacks (c : ascii) (raw : string) :
  lacks c raw -> lacks c (cleaned raw).
Proof.
  unfold lacks, cleaned. intros H.
  now apply strip_lacks, remove_lacks, remove_lacks.
Qed.

Lemma clean_unfold (raw : string) :
  Matcher._clean_json_response E raw =
  except_JSONDecodeError
    (loads_result (json_loads E (cleaned raw)))
    (fun _ =>
       except_ValueError
         (let* start := index "{" (cleaned raw) in
          let* last := rindex "}" (cleaned raw) in
          loads_result
            (json_loads E (strip_control (slice (cleaned raw) start (last + 1)))))
         (fun _ => Ok (JObj ∅))).
Proof. reflexivity. Qed.

(** When the first [json.loads] returns, so does the sanitizer. *)
Lemma clean_whole_parsed (raw : string) (v : json) :
  json_loads E (cleaned raw) = Parsed v -> Matcher._clean_json_response E raw = Ok v.
Proof. intros H. rewrite clean_unfold, H. reflexivity. Qed.

(** On a text without an opening or without a closing brace the repair
    finds nothing to slice: only the first [json.loads] decides. *)
Lemma clean_brace_free (raw : string) :
  lacks "{" raw \/ lacks "}" raw ->
  Matcher._clean_json_response E raw
  = except_JSONDecodeError (loads_result (json_loads E (cleaned raw)))
      (fun _ => Ok (JObj ∅)).
Proof.
  intros H. rewrite clean_unfold.
  assert (Hrepair :
    except_ValueError
      (let* start := index "{" (cleaned raw) in
       let* last := rindex "}" (cleaned raw) in
       loads_result
         (json_loads E (strip_control (slice (cleaned raw) start (last + 1)))))
      (fun _ => Ok (JObj ∅)) = Ok (JObj ∅)).
  { unfold index, rindex.
    destruct H as [H | H]; apply cleaned_lacks in H; unfold lacks in H.
    - now rewrite H.
    - apply rfind_none_iff in H. rewrite H.
      now destruct (find_char "{" (cleaned raw)). }
  destruct (loads_result (json_loads E (cleaned raw))) as [v|[]]; cbn;
    try reflexivity. exact Hrepair.
Qed.

Lemma first_is_inv (c : ascii) (t : string) :
  first_is c t = true -> exists mid, t = String c mid.
Proof.
  destruct t as [|a t]; [discriminate |]. simpl. intros H.
  apply Ascii.eqb_eq in H. subst. eauto.
Qed.

Lemma last_is_inv (c : ascii) (t : string) :
  last_is c t = true -> exists t0, t = t0 +:+ String c EmptyString.
Proof.
  induction t as [|a t IH]; [discriminate |]. intros H.
  destruct t as [|b t].
  - simpl in H. apply Ascii.eqb_eq in H. subst. now exists EmptyString.
  - destruct IH as (t0 & Ht0); [exact H |]. exists (String a t0).
    simpl. now rewrite <- Ht0.
Qed.

(** *** Fence markers around a body that holds none *)

Lemma prefix_cons (p : ascii) (pat : string) (a : ascii) (t : string) :
  String.prefix (String p pat) (String a t)
  = if ascii_dec p a then String.prefix pat t else false.
Proof. reflexivity. Qed.

Lemma prefix_of_prefix (p1 p2 t : string) :
  String.prefix (p1 +:+ p2) t = true -> String.prefix p1 t = true.
Proof.
  revert t. induction p1 as [|a p1 IH]; intros t H; [now destruct t |].
  destruct t as [|b t]; [discriminate H |].
  change (String.prefix (String a (p1 +:+ p2)) (String b t) = true) in H.
  rewrite prefix_cons in *.
  destruct (ascii_dec a b); [now apply IH | discriminate].
Qed.

(** A body that ends in a closing brace and does not start with a fence
    marker does not start with one when a text follows it either. *)
Lemma fence_not_at_body (body u : string) :
  String.prefix "```" body = false -> last_is "}" body = true ->
  String.prefix "```" (body +:+ u) = false.
Proof.
  intros Hp Hl. destruct body as [|a [|b [|c body]]]; [discriminate Hl | | |].
  - simpl in Hl. apply Ascii.eqb_eq in Hl. subst a.
    change (String "}" EmptyString +:+ u) with (String "}" u).
    rewrite prefix_cons. now destruct (ascii_dec "`" "}").
  - simpl in Hl. apply Ascii.eqb_eq in Hl. subst b.
    change (String a (String "}" EmptyString) +:+ u) with (String a (String "}" u)).
    rewrite !prefix_cons. destruct (ascii_dec "`" a); [| reflexivity].
    now destruct (ascii_dec "`" "}").
  - change (String a (String b (String c body)) +:+ u)
      with (String a (String b (String c (body +:+ u)))).
    rewrite !prefix_cons in *.
    destruct (ascii_dec "`" a); [| reflexivity].
    destruct (ascii_dec "`" b); [| reflexivity].
    destruct (ascii_dec "`" c); [| reflexivity].
    now destruct body.
Qed.

Lemma remove_keeps_fenceless (pat' body u : string) :
  str_contains "```" body = false -> last_is "}" body = true ->
  replace_from ("```" +:+ pat') EmptyString O (body +:+ u)
  = body +:+ replace_from ("```" +:+ pat') EmptyString O u.
Proof.
  induction body as [|a body IH]; intros Hc Hl; [discriminate Hl |].
  cbn [str_contains] in Hc. apply orb_false_elim in Hc as [Hp Hc].
  change (String a body +:+ u) with (String a (body +:+ u)).
  rewrite replace_from_cons.
  assert (Hno : String.prefix ("```" +:+ pat') (String a (body +:+ u)) = false).
  { destruct (String.prefix ("```" +:+ pat') (String a (body +:+ u))) eqn:Hq;
      [| reflexivity].
    apply prefix_of_prefix in Hq.
    change (String a (body +:+ u)) with (String a body +:+ u) in Hq.
    now rewrite (fence_not_at_body (String a body) u Hp Hl) in Hq. }
  rewrite Hno. cbn [append]. f_equal.
  destruct body as [|b body]; [reflexivity |]. now apply IH.
Qed.

Lemma remove_around_fenceless (pat' pre body post : string) :
  find_char "{" ("```" +:+ pat') = None ->
  first_is "{" body = true -> last_is "}" body = true ->
  str_contains "```" body = false ->
  replace ("```" +:+ pat') EmptyString (pre +:+ body +:+ post) =
  replace ("```" +:+ pat') EmptyString pre +:+ body
    +:+ replace ("```" +:+ pat') EmptyString post.
Proof.
  intros Hpat Hfirst Hlast Hfence. unfold replace.
  destruct (first_is_inv _ _ Hfirst) as (mid & Hmid). rewrite Hmid at 1.
  change (String "{" mid +:+ post) with (String "{" (mid +:+ post)).
  rewrite (remove_from_boundary "{" (mid +:+ post) _ Hpat pre O) by lia.
  f_equal.
  change (String "{" (mid +:+ post)) with (String "{" mid +:+ post).
  rewrite <- Hmid. now apply remove_keeps_fenceless.
Qed.

(** The text the sanitizer parses keeps the object where it was, between
    a prefix without [{] and a suffix without [}]. *)
Lemma cleaned_shape (pre body post : string) :
  first_is "{" body = true -> last_is "}" body = true ->
  lacks "{" pre -> lacks "}" post -> str_contains "```" body = false ->
  exists pre' post',
    cleaned (pre +:+ body +:+ post) = pre' +:+ body +:+ post' /\
    lacks "{" pre' /\ lacks "}" post'.
Proof.
  intros Hfirst Hlast Hpre Hpost Hfence.
  unfold cleaned, Matcher.fence, Matcher.fence_json.
  pose proof (remove_around_fenceless "json" pre body post eq_refl Hfirst Hlast Hfence)
    as Hjson.
  change ("```" +:+ "json") with "```json" in Hjson. rewrite Hjson. clear Hjson.
  pose proof (remove_around_fenceless EmptyString
                (replace "```json" EmptyString pre) body
                (replace "```json" EmptyString post) eq_refl Hfirst Hlast Hfence)
    as Hfences.
  change ("```" +:+ EmptyString) with "```" in Hfences. rewrite Hfences. clear Hfences.
  set (pre2 := replace "```" EmptyString (replace "```json" EmptyString pre)).
  set (post2 := replace "```" EmptyString (replace "```json" EmptyString post)).
  assert (Hpre2 : lacks "{" pre2) by now apply remove_lacks, remove_lacks.
  assert (Hpost2 : lacks "}" post2) by now apply remove_lacks, remove_lacks.
  destruct (first_is_inv _ _ Hfirst) as (mid & ->).
  unfold strip.
  change (String "{" mid +:+ post2) with (String "{" (mid +:+ post2)).
  destruct (lstrip_before "{" (mid +:+ post2) pre2 eq_refl) as (pre3 & -> & Hpre3).
  change (String "{" (mid +:+ post2)) with (String "{" mid +:+ post2).
  destruct (last_is_inv _ _ Hlast) as (b0 & Hb0).
  exists pre3, (rstrip post2). split; [| split].
  - rewrite Hb0.
    rewrite !append_assoc. simpl append.
    rewrite <- append_assoc.
    rewrite (rstrip_after "}" post2 (pre3 +:+ b0) eq_refl).
    now rewrite append_assoc.
  - now apply Hpre3.
  - now apply rstrip_lacks.
Qed.

Lemma clean_of_shape (raw pre body post : string) (obj : json) :
  cleaned raw = pre +:+ body +:+ post ->
  first_is "{" body = true -> last_is "}" body = true ->
  lacks "{" pre -> lacks "}" post ->
  json_loads E (strip_control body) = Parsed obj ->
  (json_loads E (cleaned raw) = Parsed obj \/
   exists m, json_loads E (cleaned raw) = DecodeError m) ->
  Matcher._clean_json_response E raw = Ok obj.
Proof.
  intros Hshape Hfirst Hlast Hpre Hpost Hbody [Hwhole | [m Hwhole]];
    [now apply clean_whole_parsed |].
  rewrite clean_unfold, Hwhole, Hshape. cbn [loads_result except_JSONDecodeError].
  destruct (first_is_inv _ _ Hfirst) as (mid & Hmid).
  destruct (last_is_inv _ _ Hlast) as (b0 & Hb0).
  assert (Hstart : index "{" (pre +:+ body +:+ post) = Ok (String.length pre)).
  { unfold index. rewrite Hmid.
    change (String "{" mid +:+ post) with (String "{" (mid +:+ post)).
    now rewrite find_char_first. }
  assert (Hend : rindex "}" (pre +:+ body +:+ post)
                 = Ok (String.length pre + String.length b0)%nat).
  { unfold rindex. rewrite Hb0, append_assoc. simpl append.
    rewrite <- append_assoc, rfind_char_last by exact Hpost.
    now rewrite length_append. }
  rewrite Hstart, Hend. simpl bind.
  replace (String.length pre + String.length b0 + 1)%nat
    with (String.length pre + String.length body)%nat
    by (rewrite Hb0, length_append; simpl; lia).
  rewrite slice_middle, Hbody. reflexivity.
Qed.

Lemma clean_embedded_object (raw pre body post : string) (obj : json) :
  raw = pre +:+ body +:+ post ->
  first_is "{" body = true -> last_is "}" body = true ->
  lacks "{" pre -> lacks "}" post -> str_contains "```" body = false ->
  json_loads E body = Parsed obj ->
  json_loads E (strip_control body) = json_loads E body ->
  (json_loads E (cleaned raw) = Parsed obj \/
   exists m, json_loads E (cleaned raw) = DecodeError m) ->
  Matcher._clean_json_response E raw = Ok obj.
Proof.
  intros -> Hfirst Hlast Hpre Hpost Htick Hbody Hctl Hwhole.
  destruct (cleaned_shape pre body post Hfirst Hlast Hpre Hpost Htick)
    as (pre' & post' & Hshape & Hpre' & Hpost').
  eapply clean_of_shape; eauto. now rewrite Hctl.
Qed.

End Sanitizer.

(** C3, on fapp.py 78-94: a text without braces does not always give the
    empty mapping, and the sanitizer can raise. The reply [42] is valid
    JSON, so the first [json.loads] returns the number, which is not a
    mapping; on 4301 digits the first [json.loads] raises a plain
    [ValueError], which the handler for [json.JSONDecodeError] does not
    catch. A brace-free reply that is not JSON gives the empty mapping, as
    the claim says. *)
Theorem clean_brace_free_diverges :
  Matcher._clean_json_response Demo.reader_env "42" = Py.Ok (Json.JNum 42) /\
  Matcher._clean_json_response Demo.reader_env Demo.long_number
  = Py.Raise Py.ValueError /\
  Matcher._clean_json_response Demo.reader_env "no match" = Py.Ok (Json.JObj ∅).
Proof. repeat split; vm_compute; reflexivity. Qed.

(** C4, as amended. The raw string is a prefix without an opening brace,
    then the text of a JSON object from its opening to its closing brace,
    without a fence marker in it, then a suffix without a closing brace. When the
    object's text reads the same with its control characters removed (the
    line breaks of a pretty-printed object among them), and the whole
    text, fence markers removed and trimmed, either is not JSON or parses
    to that object, the sanitizer returns the parsed form of the object.
    On the design document's fenced reply it returns the mapping of
    match_score to 85. *)
Theorem clean_returns_embedded_object :
  (forall (E : Sys.Env) (raw pre body post : string) (obj : Json.json),
      raw = pre +:+ body +:+ post ->
      SanitizerSpec.first_is "{" body = true ->
      SanitizerSpec.last_is "}" body = true ->
      SanitizerSpec.lacks "{" pre ->
      SanitizerSpec.lacks "}" post ->
      Py.str_contains "```" body = false ->
      Sys.json_loads E body = Json.Parsed obj ->
      Sys.json_loads E (Py.strip_control body) = Sys.json_loads E body ->
      (Sys.json_loads E (SanitizerSpec.cleaned raw) = Json.Parsed obj \/
       exists m, Sys.json_loads E (SanitizerSpec.cleaned raw) = Json.DecodeError m) ->
      Matcher._clean_json_response E raw = Py.Ok obj) /\
  Matcher._clean_json_response Demo.reader_env Demo.fenced_score
  = Py.Ok (Json.obj [("match_score", Json.JNum 85)]).
Proof.
  split.
  - intros E raw pre body post obj. apply clean_embedded_object.
  - vm_compute. reflexivity.
Qed.

(** The statement at an object between two pieces of prose, at a
    pretty-printed object after prose, and at a reply that is only a
    fenced object. *)
Lemma clean_returns_embedded_object_witness :
  Matcher._clean_json_response Demo.reader_env
    ("Result: " +:+ ("{" +:+ Demo.q +:+ "a" +:+ Demo.q +:+ ": [1, 2]}") +:+ " (end)")
  = Py.Ok (Json.obj [("a", Json.JArr [Json.JNum 1; Json.JNum 2])]) /\
  Matcher._clean_json_response Demo.reader_env
    ("Result: " +:+ Demo.pretty_object +:+ EmptyString)
  = Py.Ok (Json.obj [("a", Json.JNum 1); ("b", Json.JStr "x")]) /\
  Matcher._clean_json_response Demo.reader_env
    (("```json" +:+ String Py.nl EmptyString) +:+ Demo.pretty_object
       +:+ String Py.nl "```")
  = Py.Ok (Json.obj [("a", Json.JNum 1); ("b", Json.JStr "x")]).
Proof.
  split; [| split].
  - refine (proj1 clean_returns_embedded_object Demo.reader_env _
              "Result: " ("{" +:+ Demo.q +:+ "a" +:+ Demo.q +:+ ": [1, 2]}") " (end)"
              _ eq_refl _ _ _ _ _ _ _ _); try (vm_compute; reflexivity).
    right. eexists. vm_compute. reflexivity.
  - refine (proj1 clean_returns_embedded_object Demo.reader_env _
              "Result: " Demo.pretty_object EmptyString
              _ eq_refl _ _ _ _ _ _ _ _); try (vm_compute; reflexivity).
    right. eexists. vm_compute. reflexivity.
  - refine (proj1 clean_returns_embedded_object Demo.reader_env _
              ("```json" +:+ String Py.nl EmptyString) Demo.pretty_object
              (String Py.nl "```")
              _ eq_refl _ _ _ _ _ _ _ _); try (vm_compute; reflexivity).
    left. vm_compute. reflexivity.
Defined.

(** C4, as stated, fails: in the reply
    Score {high}: {"match_score": 85}
    the only span that is the text of a JSON object is the trailing one, and
    the sanitizer returns the empty mapping. *)
Lemma clean_returns_embedded_object_counterexample :
  ~ (forall (raw : string) (span : nat * nat) (d : gmap string Json.json),
       SanitizerSpec.object_spans JsonText.loads raw = [span] ->
       JsonText.loads (substring (fst span) (snd span) raw) = Json.Parsed (Json.JObj d) ->
       Matcher._clean_json_response Demo.reader_env raw = Py.Ok (Json.JObj d)).
Proof.
  intros H.
  specialize (H Demo.braces_in_prose (14, 19)%nat {[ "match_score" := Json.JNum 85 ]}).
  assert (Hres : Matcher._clean_json_response Demo.reader_env Demo.braces_in_prose
                 = Py.Ok (Json.JObj ∅)) by (vm_compute; reflexivity).
  rewrite Hres in H.
  assert (Hne : Py.Ok (Json.JObj ∅)
                <> Py.Ok (Json.JObj ({[ "match_score" := Json.JNum 85 ]} : gmap string Json.json))).
  { intros Heq.
    apply (f_equal (fun r => match r with
                             | Py.Ok (Json.JObj m) => m !! "match_score"
                             | _ => None
                             end)) in Heq.
    vm_compute in Heq. discriminate Heq. }
  apply Hne, H; vm_compute; reflexivity.
Qed.

(** Each condition of the amended C4 is one the code forces. A list around
    the object is valid JSON as a whole and is returned as the list; a
    control character inside a string of the object is removed before the
    object is parsed; a fence marker inside a string is removed with the
    others; and a long run of digits before the object makes the first
    [json.loads] raise. *)
Example embedded_object_limits :
  Matcher._clean_json_response Demo.reader_env
    ("[{" +:+ Demo.q +:+ "a" +:+ Demo.q +:+ ": 1}]")
  = Py.Ok (Json.JArr [Json.obj [("a", Json.JNum 1)]]) /\
  Matcher._clean_json_response Demo.reader_env
    ("x {" +:+ Demo.q +:+ "a" +:+ Demo.q +:+ ": " +:+ Demo.q
       +:+ String "p" (String "127" "q") +:+ Demo.q +:+ "}")
  = Py.Ok (Json.obj [("a", Json.JStr "pq")]) /\
  Matcher._clean_json_response Demo.reader_env
    ("x {" +:+ Demo.q +:+ "a" +:+ Demo.q +:+ ": " +:+ Demo.q +:+ "```" +:+ Demo.q +:+ "}")
  = Py.Ok (Json.obj [("a", Json.JStr EmptyString)]) /\
  Matcher._clean_json_response Demo.reader_env
    (Demo.long_number +:+ " {" +:+ Demo.q +:+ "a" +:+ Demo.q +:+ ": 1}")
  = Py.Raise Py.ValueError.
Proof. repeat split; vm_compute; reflexivity. Qed.

(** ** The chunker *)

Section Chunker.
Import Py Scraper ChunkSpec.

Lemma lstrip_length (s : string) : (String.length (lstrip s) <= String.length s)%nat.
Proof.
  induction s as [|a s IH]; simpl; [lia |].
  destruct (isspace a); simpl; lia.
Qed.

Lemma rstrip_length (s : string) : (String.length (rstrip s) <= String.length s)%nat.
Proof.
  induction s as [|a s IH]; [simpl; lia |].
  rewrite rstrip_cons. destruct (rstrip s) as [|b r].
  - destruct (isspace a); simpl; lia.
  - simpl in *. lia.
Qed.

Lemma strip_len (s : string) : (len (strip s) <= len s)%Z.
Proof.
  unfold len, strip.
  pose proof (rstrip_length (lstrip s)). pose proof (lstrip_length s). lia.
Qed.

Lemma len_append (s t : string) : len (s +:+ t) = (len s + len t)%Z.
Proof. unfold len. rewrite length_append. lia. Qed.

Section Bound.
Variable content : string.
Variable max_chars : Z.

Lemma close_within (current_chunk : string) :
  ((len current_chunk <= max_chars)%Z \/
   (In current_chunk (split nl content) /\ (len current_chunk > max_chars)%Z)) ->
  within content max_chars (strip current_chunk).
Proof.
  intros [H | [Hin Hlen]].
  - left. pose proof (strip_len current_chunk). lia.
  - right. exists current_chunk. auto.
Qed.

Lemma split_step_bounded (st : list string * string) (paragraph : string) :
  In paragraph (split nl content) ->
  bounded_state content max_chars st ->
  bounded_state content max_chars (split_step max_chars st paragraph).
Proof.
  destruct st as [chunks current_chunk]. intros Hin [Hchunks Hcur].
  unfold split_step.
  destruct (len current_chunk + len paragraph + 1 >? max_chars)%Z eqn:Hcmp.
  - split; simpl.
    + apply Forall_app. split; [exact Hchunks |].
      constructor; [now apply close_within | constructor].
    + destruct (Z_le_gt_dec (len paragraph) max_chars); [left | right]; auto.
  - split; simpl; [exact Hchunks |]. left.
    rewrite len_append. change (len (String nl paragraph)) with (len (String nl EmptyString +:+ paragraph)).
    rewrite len_append. change (len (String nl EmptyString)) with 1%Z. lia.
Qed.

Lemma fold_bounded (paragraphs : list string) :
  forall st,
    (forall p, In p paragraphs -> In p (split nl content)) ->
    bounded_state content max_chars st ->
    bounded_state content max_chars (fold_left (split_step max_chars) paragraphs st).
Proof.
  induction paragraphs as [|p ps IH]; intros st Hsub Hst; simpl; [exact Hst |].
  apply IH.
  - intros p' Hp'. apply Hsub. now right.
  - apply split_step_bounded; [apply Hsub; now left | exact Hst].
Qed.

End Bound.

Lemma split_pieces_single (c : ascii) (s : string) :
  Forall (fun piece => find_char c piece = None) (split c s).
Proof.
  induction s as [|a s IH]; simpl; [repeat constructor |].
  destruct (Ascii.eqb a c) eqn:Hac; [constructor; [reflexivity | exact IH] |].
  destruct (split c s) as [|x xs]; [repeat constructor; simpl; now rewrite Hac |].
  constructor; [| exact (Forall_inv_tail IH)].
  simpl. now rewrite Hac, (Forall_inv IH).
Qed.

Lemma close_fits (max_chars : Z) (current_chunk : string) :
  ((len current_chunk <= max_chars)%Z \/ single_line current_chunk) ->
  fits max_chars (strip current_chunk).
Proof.
  intros H. pose proof (strip_len current_chunk) as Hlen.
  destruct (Z_le_gt_dec (len (strip current_chunk)) max_chars) as [Hle | Hgt];
    [now left |].
  right. split; [| exact Hgt].
  destruct H as [H | H]; [lia | now apply strip_lacks].
Qed.

Lemma fold_fitting (max_chars : Z) (paragraphs : list string) :
  forall st,
    Forall single_line paragraphs ->
    fitting_state max_chars st ->
    fitting_state max_chars (fold_left (split_step max_chars) paragraphs st).
Proof.
  induction paragraphs as [|p ps IH]; intros [chunks cur] Hps Hst; simpl; [exact Hst |].
  apply IH; [exact (Forall_inv_tail Hps) |].
  destruct Hst as [Hchunks Hcur]. simpl in Hchunks, Hcur.
  destruct (len cur + len p + 1 >? max_chars)%Z eqn:Hcmp.
  - split; simpl.
    + apply Forall_app. split; [exact Hchunks |].
      constructor; [now apply close_fits | constructor].
    + right. exact (Forall_inv Hps).
  - split; simpl; [exact Hchunks |]. left.
    rewrite len_append.
    change (len (String nl p)) with (len (String nl EmptyString +:+ p)).
    rewrite len_append. change (len (String nl EmptyString)) with 1%Z. lia.
Qed.

(** C6. For every text and every limit, every chunk is at most [max_chars]
    long, except a chunk that is a single line longer than [max_chars].
    When the limit is not negative, that chunk is a line of the text,
    trimmed, and the line itself is longer than [max_chars]. *)
Theorem chunks_within_max_chars (content : string) (max_chars : Z) :
  Forall (fits max_chars) (split_dom_content content max_chars) /\
  ((0 <= max_chars)%Z ->
   Forall (within content max_chars) (split_dom_content content max_chars)).
Proof.
  unfold split_dom_content. split.
  - pose proof (fold_fitting max_chars (split nl content) ([], EmptyString)
                  (split_pieces_single nl content)) as Hfold.
    destruct (fold_left (split_step max_chars) (split nl content) ([], EmptyString))
      as [chunks current_chunk].
    destruct Hfold as [Hchunks Hcur].
    + split; simpl; [constructor | right; reflexivity].
    + simpl in Hchunks, Hcur.
      destruct (nonempty current_chunk); [| exact Hchunks].
      apply Forall_app. split; [exact Hchunks |].
      constructor; [now apply close_fits | constructor].
  - intros Hmax.
    pose proof (fold_bounded content max_chars (split nl content) ([], EmptyString)
                  (fun p H => H)) as Hfold.
    destruct (fold_left (split_step max_chars) (split nl content) ([], EmptyString))
      as [chunks current_chunk].
    destruct Hfold as [Hchunks Hcur].
    + split; simpl; [constructor | left; exact Hmax].
    + simpl in Hchunks, Hcur.
      destruct (nonempty current_chunk); [| exact Hchunks].
      apply Forall_app. split; [exact Hchunks |].
      constructor; [now apply close_within | constructor].
Qed.

Lemma split_not_nil (c : ascii) (s : string) : split c s <> [].
Proof.
  destruct s as [|a s]; simpl; [discriminate |].
  destruct (Ascii.eqb a c); [discriminate |].
  destruct (split c s); discriminate.
Qed.

Lemma join_cons2 (sep x y : string) (l : list string) :
  join sep (x :: y :: l) = x +:+ sep +:+ join sep (y :: l).
Proof. reflexivity. Qed.

Lemma join_split (c : ascii) (s : string) :
  join (String c EmptyString) (split c s) = s.
Proof.
  induction s as [|a s IH]; [reflexivity |].
  simpl split. pose proof (split_not_nil c s) as Hne.
  destruct (Ascii.eqb a c) eqn:Hac.
  - apply Ascii.eqb_eq in Hac. subst a.
    destruct (split c s) as [|y l]; [congruence |].
    rewrite join_cons2, IH. reflexivity.
  - destruct (split c s) as [|y l]; [congruence |].
    rewrite <- IH. destruct l; reflexivity.
Qed.

Lemma join_snoc (sep x : string) (l : list string) :
  l <> [] -> join sep (l ++ [x]) = join sep l +:+ sep +:+ x.
Proof.
  induction l as [|a l IH]; intros Hne; [congruence |].
  destruct l as [|b l]; [reflexivity |].
  change ((a :: b :: l) ++ [x])%list with (a :: b :: (l ++ [x]))%list.
  rewrite !join_cons2, append_assoc, append_assoc. do 2 f_equal.
  apply (IH ltac:(discriminate)).
Qed.

Lemma join_snoc_extend (sep x y : string) (l : list string) :
  join sep (l ++ [x +:+ sep +:+ y]) = join sep (l ++ [x]) +:+ sep +:+ y.
Proof.
  induction l as [|a l IH]; [reflexivity |].
  destruct l as [|b l].
  - simpl. now rewrite !append_assoc.
  - change ((a :: b :: l) ++ ?t)%list with (a :: b :: (l ++ t))%list.
    rewrite !join_cons2, append_assoc, append_assoc. do 2 f_equal.
    apply IH.
Qed.

Lemma rstrip_ends_clean (s : string) : ends_clean s = true -> rstrip s = s.
Proof.
  induction s as [|a s IH]; [discriminate |]. intros H.
  rewrite rstrip_cons. destruct s as [|b s].
  - simpl in *. now destruct (isspace a).
  - rewrite IH by exact H. reflexivity.
Qed.

Lemma lstrip_starts_clean (s : string) : starts_clean s = true -> lstrip s = s.
Proof. destruct s as [|a s]; simpl; [discriminate |]. now destruct (isspace a). Qed.

Lemma strip_tidy (g : string) : tidy g -> strip g = g.
Proof.
  intros [Hs He]. unfold strip.
  now rewrite lstrip_starts_clean, rstrip_ends_clean.
Qed.

Lemma strip_nl_tidy (g : string) : tidy g -> strip (String nl g) = g.
Proof. intros H. unfold strip. cbn [lstrip]. now apply strip_tidy. Qed.

Lemma tidy_nonempty (g : string) : tidy g -> nonempty g = true.
Proof. intros [Hs _]. now destruct g. Qed.

Lemma ends_clean_append (x p : string) :
  ends_clean p = true -> ends_clean (x +:+ p) = true.
Proof.
  intros Hp. induction x as [|a x IH]; [exact Hp |].
  simpl append. destruct (x +:+ p) eqn:Hxp; [discriminate IH | exact IH].
Qed.

Lemma tidy_append (g p : string) : tidy g -> tidy p -> tidy (g +:+ String nl p).
Proof.
  intros [Hgs Hge] [Hps Hpe]. split.
  - now destruct g.
  - apply ends_clean_append. destruct p; [discriminate | exact Hpe].
Qed.

Lemma split_step_first (max_chars : Z) (p : string) :
  tidy p -> joined_state [p] (split_step max_chars ([], EmptyString) p).
Proof.
  intros Hp. split; [discriminate |]. exists p. split; [exact Hp |].
  unfold split_step.
  destruct (len EmptyString + len p + 1 >? max_chars)%Z; simpl; auto.
Qed.

Lemma split_step_joined (max_chars : Z) (done : list string)
    (st : list string * string) (p : string) :
  tidy p -> joined_state done st ->
  joined_state (done ++ [p]) (split_step max_chars st p).
Proof.
  destruct st as [chunks cur]. intros Hp (Hdone & g & Hg & Hcur & Hjoin).
  simpl in Hcur, Hjoin.
  split; [now destruct done |].
  assert (Hstrip : strip cur = g).
  { destruct Hcur as [-> | ->]; [now apply strip_tidy | now apply strip_nl_tidy]. }
  unfold split_step.
  destruct (len cur + len p + 1 >? max_chars)%Z.
  - exists p. split; [exact Hp |]. split; [now left |]. simpl fst.
    rewrite Hstrip, List.filter_app. simpl List.filter.
    rewrite (tidy_nonempty g Hg).
    rewrite join_snoc by (now destruct (List.filter nonempty chunks)).
    rewrite Hjoin. symmetry. now apply join_snoc.
  - exists (g +:+ String nl p). split; [now apply tidy_append |]. split.
    + destruct Hcur as [-> | ->]; [now left | now right].
    + simpl fst.
      change (g +:+ String nl p) with (g +:+ String nl EmptyString +:+ p).
      rewrite join_snoc_extend, Hjoin. symmetry. now apply join_snoc.
Qed.

Lemma fold_joined (max_chars : Z) (ps : list string) :
  forall done st,
    Forall tidy ps -> joined_state done st ->
    joined_state (done ++ ps) (fold_left (split_step max_chars) ps st).
Proof.
  induction ps as [|p ps IH]; intros done st Hps Hst; simpl.
  - now rewrite app_nil_r.
  - pose proof (Forall_inv Hps) as Hp. pose proof (Forall_inv_tail Hps) as Hps'.
    replace (done ++ p :: ps)%list with ((done ++ [p]) ++ ps)%list
      by now rewrite <- app_assoc.
    apply IH; [exact Hps' |]. now apply split_step_joined.
Qed.

(** C5, as amended. When every line of the text is non-empty and neither
    starts nor ends with white space, then for every limit the non-empty
    chunks, joined by a newline, are the text again. *)
Theorem rejoin_tidy_text (content : string) (max_chars : Z) :
  Forall tidy (split nl content) ->
  rejoin (split_dom_content content max_chars) = content.
Proof.
  intros Htidy. unfold split_dom_content, rejoin.
  pose proof (join_split nl content) as Hcontent.
  destruct (split nl content) as [|p ps] eqn:Hsplit;
    [now apply split_not_nil in Hsplit |].
  pose proof (Forall_inv Htidy) as Hp. pose proof (Forall_inv_tail Htidy) as Hps.
  pose proof (fold_joined max_chars ps [p] _ Hps (split_step_first max_chars p Hp))
    as Hfold.
  cbn [fold_left].
  destruct (fold_left (split_step max_chars) ps
              (split_step max_chars ([], EmptyString) p)) as [chunks cur].
  destruct Hfold as (_ & g & Hg & Hcur & Hjoin). simpl in Hcur, Hjoin.
  assert (Hne : nonempty cur = true).
  { destruct Hcur as [-> | ->]; [now apply tidy_nonempty | reflexivity]. }
  assert (Hstrip : strip cur = g).
  { destruct Hcur as [-> | ->]; [now apply strip_tidy | now apply strip_nl_tidy]. }
  rewrite Hne, Hstrip, List.filter_app. simpl List.filter.
  rewrite (tidy_nonempty g Hg), Hjoin. exact Hcontent.
Qed.

End Chunker.

(** C5, as stated, fails: the one-line text [ a] comes back as the single
    chunk [a], the leading space trimmed away. *)
Lemma rejoin_counterexample :
  ~ (forall (content : string) (max_chars : Z),
       ChunkSpec.rejoin (Scraper.split_dom_content content max_chars) = content).
Proof.
  intros H. specialize (H " a" Scraper.default_max_chars).
  vm_compute in H. discriminate H.
Qed.

(** The statement at a two-line text cut into two chunks. *)
Lemma rejoin_tidy_text_witness :
  Forall ChunkSpec.tidy (Py.split Py.nl ("ab" +:+ String Py.nl "c d")) /\
  ChunkSpec.rejoin (Scraper.split_dom_content ("ab" +:+ String Py.nl "c d") 3)
  = "ab" +:+ String Py.nl "c d".
Proof.
  assert (H : Forall ChunkSpec.tidy (Py.split Py.nl ("ab" +:+ String Py.nl "c d"))).
  { repeat constructor. }
  split; [exact H |].
  exact (rejoin_tidy_text ("ab" +:+ String Py.nl "c d") 3 H).
Defined.

(** The statement at a two-line text and the limit 2. *)
Lemma chunks_within_max_chars_witness :
  Forall (ChunkSpec.within ("ab" +:+ String Py.nl "c d") 2)
         (Scraper.split_dom_content ("ab" +:+ String Py.nl "c d") 2).
Proof.
  apply (proj2 (chunks_within_max_chars ("ab" +:+ String Py.nl "c d") 2)). lia.
Defined.

(** ** The filter *)

Section Filter.
Import Py Json Sys FilterSpec.
Variable E : Env.

Lemma str_contains_empty (hay : string) : str_contains EmptyString hay = true.
Proof. now destruct hay. Qed.

Lemma any_requirement_strings (keyword : string) (reqs : list json) :
  forallb is_string reqs = true ->
  exists b, Matcher.any_requirement keyword reqs = Ok b.
Proof.
  induction reqs as [|r reqs IH]; simpl; [eauto |].
  intros H. apply andb_prop in H as [Hr Hreqs].
  destruct r; try discriminate.
  destruct (str_contains keyword (lower s)); eauto.
Qed.

Lemma job_passes_total (location keyword : string) (job : json) :
  job_listing job -> exists b, Matcher.job_passes E location keyword job = Ok b.
Proof.
  intros (fields & -> & Hreqs).
  unfold Matcher.job_passes, Matcher.keyword_match. simpl.
  destruct (str_contains keyword _); simpl; [eauto |].
  destruct (str_contains keyword _); simpl; [eauto |].
  destruct (fields !! "requirements") as [[| | | | |reqs|]|]; try contradiction; simpl.
  - destruct (any_requirement_strings keyword reqs Hreqs) as [b ->]. simpl. eauto.
  - eauto.
Qed.

Lemma filter_loop_total (location keyword : string) (jobs : list json) :
  forall filtered,
    Forall job_listing jobs ->
    exists out, Matcher.filter_loop E location keyword jobs filtered = Ok out.
Proof.
  induction jobs as [|job jobs IH]; intros filtered Hjobs; simpl; [eauto |].
  destruct (job_passes_total location keyword job (Forall_inv Hjobs)) as [b ->].
  simpl. apply IH. exact (Forall_inv_tail Hjobs).
Qed.

Lemma filter_loop_ok (location keyword : string) (jobs : list json) :
  forall filtered out,
    Matcher.filter_loop E location keyword jobs filtered = Ok out ->
    out = (filtered ++ List.filter (passes E location keyword) jobs)%list.
Proof.
  induction jobs as [|job jobs IH]; intros filtered out H; simpl in H.
  - injection H as <-. simpl. now rewrite app_nil_r.
  - simpl. unfold passes at 1.
    destruct (Matcher.job_passes E location keyword job) as [[|]|e]; simpl in H;
      try discriminate.
    + apply IH in H. now rewrite <- app_assoc in H.
    + now apply IH in H.
Qed.

Lemma filter_loop_all_pass (location keyword : string) (jobs : list json) :
  forall filtered,
    Forall (fun job => Matcher.job_passes E location keyword job = Ok true) jobs ->
    Matcher.filter_loop E location keyword jobs filtered = Ok (filtered ++ jobs)%list.
Proof.
  induction jobs as [|job jobs IH]; intros filtered H; simpl.
  - now rewrite app_nil_r.
  - rewrite (Forall_inv H). simpl. rewrite IH by exact (Forall_inv_tail H).
    now rewrite <- app_assoc.
Qed.

Lemma in_firstn {A} (n : nat) (x : A) (l : list A) :
  In x (firstn n l) -> In x l.
Proof.
  revert l. induction n as [|n IH]; intros [|a l] H; simpl in *; try tauto.
  destruct H as [-> | H]; [now left | right; now apply IH].
Qed.

Lemma passes_true (location keyword : string) (job : json) :
  passes E location keyword job = true ->
  Matcher.job_passes E location keyword job = Ok true.
Proof.
  unfold passes.
  destruct (Matcher.job_passes E location keyword job) as [[|]|]; congruence.
Qed.

Lemma prefix_iff (needle hay : string) :
  String.prefix needle hay = true <-> exists after, hay = needle +:+ after.
Proof.
  revert hay. induction needle as [|c needle IH]; intros hay.
  - split; [intros _; now exists hay | intros _; now destruct hay].
  - destruct hay as [|a hay]; simpl.
    + split; [discriminate | intros [after H]; discriminate H].
    + destruct (ascii_dec c a) as [<- | Hne].
      * rewrite IH. split; intros [after H]; exists after; [now rewrite H |].
        now injection H.
      * split; [discriminate | intros [after H]; injection H as H _; congruence].
Qed.

(** [needle in hay] holds exactly of the substrings. *)
Lemma str_contains_iff (needle hay : string) :
  str_contains needle hay = true <-> is_substring needle hay.
Proof.
  unfold is_substring. induction hay as [|a hay IH].
  - cbn [str_contains]. rewrite orb_false_r, prefix_iff. split.
    + intros [after H]. now exists EmptyString, after.
    + intros ([|b before] & after & H); [now exists after | discriminate H].
  - cbn [str_contains]. rewrite orb_true_iff, prefix_iff, IH. split.
    + intros [[after H] | (before & after & H)].
      * now exists EmptyString, after.
      * exists (String a before), after. now rewrite H.
    + intros ([|b before] & after & H).
      * left. now exists after.
      * right. injection H as _ H. now exists before, after.
Qed.

Lemma lower_empty (s : string) : lower s = EmptyString <-> s = EmptyString.
Proof. destruct s; simpl; split; congruence. Qed.

Lemma any_requirement_spec (keyword : string) (reqs : list json) :
  forallb is_string reqs = true ->
  exists b,
    Matcher.any_requirement keyword reqs = Ok b /\
    (b = true <->
     exists req, In (JStr req) reqs /\ str_contains keyword (lower req) = true).
Proof.
  induction reqs as [|r reqs IH]; intros H.
  - exists false. split; [reflexivity |].
    split; [discriminate | intros (req & [] & _)].
  - cbn [forallb] in H. apply andb_prop in H as [Hr Hreqs].
    destruct r as [| | | |s| |]; try discriminate. cbn [Matcher.any_requirement].
    destruct (str_contains keyword (lower s)) eqn:Hs.
    + exists true. split; [reflexivity |]. split; [| reflexivity].
      intros _. exists s. split; [now left | exact Hs].
    + destruct (IH Hreqs) as (b & Hb & Hiff). exists b. split; [exact Hb |].
      rewrite Hiff. split.
      * intros (req & Hin & Hreq). exists req. split; [now right | exact Hreq].
      * intros (req & [Heq | Hin] & Hreq); [| now exists req].
        injection Heq as ->. congruence.
Qed.

Lemma in_requirement_strings (fields : gmap string json) (reqs : list json)
    (req : string) :
  fields !! "requirements" = Some (JArr reqs) ->
  In req (requirement_strings (JObj fields)) <-> In (JStr req) reqs.
Proof.
  intros H. unfold requirement_strings. rewrite H. rewrite in_flat_map. split.
  - intros (r & Hin & Hr). destruct r as [| | | |s| |]; cbn in Hr; try contradiction.
    destruct Hr as [<- | []]. exact Hin.
  - intros Hin. exists (JStr req). split; [exact Hin | now left].
Qed.

(** On a job of the data model the code's two tests are the design
    document's: the job is kept exactly when it passes both. *)
Lemma passes_iff_both_tests (location keyword : string) (job : json) :
  job_listing job ->
  passes E (lower location) (lower keyword) job = true <->
  passes_both_tests E location keyword job.
Proof.
  intros (fields & -> & Hreqs).
  unfold passes, Matcher.job_passes, passes_both_tests, passes_location_test,
    passes_keyword_test, occurs_in.
  cbn [get bind field_text].
  set (job_location := lower (Matcher.str E
         match fields !! "location" with Some x => x | None => JStr EmptyString end)).
  set (job_title := lower (Matcher.str E
         match fields !! "job_title" with Some x => x | None => JStr EmptyString end)).
  set (job_description := lower (Matcher.str E
         match fields !! "description" with Some x => x | None => JStr EmptyString end)).
  assert (Hloc : job_location
                 = lower match fields !! "location" with
                         | Some (JStr s) => s
                         | Some v => repr E v
                         | None => EmptyString
                         end).
  { unfold job_location. destruct (fields !! "location") as [[]|]; reflexivity. }
  assert (Htitle : job_title
                   = lower match fields !! "job_title" with
                           | Some (JStr s) => s
                           | Some v => repr E v
                           | None => EmptyString
                           end).
  { unfold job_title. destruct (fields !! "job_title") as [[]|]; reflexivity. }
  assert (Hdesc : job_description
                  = lower match fields !! "description" with
                          | Some (JStr s) => s
                          | Some v => repr E v
                          | None => EmptyString
                          end).
  { unfold job_description. destruct (fields !! "description") as [[]|]; reflexivity. }
  rewrite <- Hloc, <- Htitle, <- Hdesc. clear Hloc Htitle Hdesc.
  assert (Hlocation :
    Matcher.location_match (lower location) job_location = true <->
    location = EmptyString \/ is_substring (lower location) job_location).
  { unfold Matcher.location_match. rewrite orb_true_iff, str_contains_iff.
    rewrite <- (lower_empty location).
    destruct (lower location); cbn; intuition congruence. }
  assert (Hkeyword : exists b,
    Matcher.keyword_match (lower keyword) job_title job_description (JObj fields) = Ok b /\
    (b = true <->
     str_contains (lower keyword) job_title = true \/
     str_contains (lower keyword) job_description = true \/
     exists req, In req (requirement_strings (JObj fields)) /\
                 str_contains (lower keyword) (lower req) = true)).
  { unfold Matcher.keyword_match.
    destruct (str_contains (lower keyword) job_title); [exists true; tauto |].
    destruct (str_contains (lower keyword) job_description); [exists true; tauto |].
    cbn [get bind].
    destruct (fields !! "requirements") as [[| | | | |reqs|]|] eqn:Hfield;
      try contradiction.
    - cbn [iter bind].
      destruct (any_requirement_spec (lower keyword) reqs Hreqs) as (b & Hb & Hiff).
      exists b. split; [exact Hb |]. rewrite Hiff. split.
      + intros (req & Hin & Hreq). right. right. exists req. split; [| exact Hreq].
        now apply (in_requirement_strings fields reqs req Hfield).
      + intros [H | [H | (req & Hin & Hreq)]]; try discriminate.
        exists req. split; [| exact Hreq].
        now apply (in_requirement_strings fields reqs req Hfield).
    - exists false. split; [reflexivity |]. split; [discriminate |].
      intros [H | [H | (req & Hin & _)]]; try discriminate.
      unfold requirement_strings in Hin. rewrite Hfield in Hin. destruct Hin. }
  destruct Hkeyword as (b & -> & Hb). cbn [bind].
  assert (Hwords :
    (str_contains (lower keyword) job_title = true \/
     str_contains (lower keyword) job_description = true \/
     exists req, In req (requirement_strings (JObj fields)) /\
                 str_contains (lower keyword) (lower req) = true) <->
    (is_substring (lower keyword) job_title \/
     is_substring (lower keyword) job_description \/
     exists req, In req (requirement_strings (JObj fields)) /\
                 is_substring (lower keyword) (lower req))).
  { rewrite !str_contains_iff. split.
    - intros [H | [H | (req & Hin & Hreq)]]; [tauto | tauto |].
      right. right. exists req. now rewrite <- str_contains_iff.
    - intros [H | [H | (req & Hin & Hreq)]]; [tauto | tauto |].
      right. right. exists req. now rewrite str_contains_iff. }
  rewrite <- Hlocation, <- Hwords, <- Hb.
  destruct (Matcher.location_match (lower location) job_location), b;
    cbn; intuition congruence.
Qed.

(** C8. The output of [filter_jobs] is the first five at most, in their
    order, of the jobs that pass both tests, and filtering that output
    again with the same location and keyword returns it unchanged. The
    call returns for every list of jobs of the data model, and on such a
    job passing both tests is what the design document says: the location
    is empty or occurs in the job's location, and the keyword occurs in
    the title, in the description or in a requirement string, letter case
    apart. *)
Theorem filter_jobs_idempotent (jobs : list json) (location keyword : string) :
  (Forall job_listing jobs ->
   exists out, Matcher.filter_jobs E jobs location keyword = Ok out) /\
  (forall out,
     Matcher.filter_jobs E jobs location keyword = Ok out ->
     out = firstn 5 (List.filter (passes E (lower location) (lower keyword)) jobs) /\
     Matcher.filter_jobs E out location keyword = Ok out) /\
  (forall job,
     job_listing job ->
     passes E (lower location) (lower keyword) job = true <->
     passes_both_tests E location keyword job).
Proof.
  unfold Matcher.filter_jobs. split; [| split].
  - intros Hjobs.
    destruct (filter_loop_total (lower location) (lower keyword) jobs [] Hjobs)
      as [filtered ->].
    simpl. eauto.
  - intros out H.
    destruct (Matcher.filter_loop E (lower location) (lower keyword) jobs [])
      as [filtered|e] eqn:Hloop; simpl in H; [| discriminate].
    injection H as <-.
    apply filter_loop_ok in Hloop. simpl in Hloop. subst filtered.
    split; [reflexivity |].
    rewrite filter_loop_all_pass.
    + simpl. now rewrite firstn_firstn.
    + apply List.Forall_forall. intros job Hin.
      apply in_firstn, List.filter_In in Hin. now apply passes_true.
  - intros job. apply passes_iff_both_tests.
Qed.

Lemma job_passes_empty (fields : gmap string json) :
  Matcher.job_passes E EmptyString EmptyString (JObj fields) = Ok true.
Proof.
  unfold Matcher.job_passes, Matcher.keyword_match, Matcher.location_match. simpl.
  now rewrite !str_contains_empty.
Qed.

(** C10. With an empty keyword the keyword test passes for every job that
    is a mapping (the empty string occurs in every string), whatever its
    fields hold; with an empty keyword and an empty location [filter_jobs]
    returns the first min(5, n) jobs, unchanged and in order. *)
Theorem filter_jobs_empty_criteria (jobs : list json) :
  Forall is_mapping jobs ->
  Forall (fun job => keyword_test E (lower EmptyString) job = Ok true) jobs /\
  Matcher.filter_jobs E jobs EmptyString EmptyString
  = Ok (firstn (Nat.min 5 (List.length jobs)) jobs).
Proof.
  intros Hjobs. split.
  - eapply List.Forall_impl; [| exact Hjobs].
    intros job (fields & ->). unfold keyword_test, Matcher.keyword_match. simpl.
    now rewrite str_contains_empty.
  - unfold Matcher.filter_jobs. simpl lower.
    rewrite filter_loop_all_pass.
    + cbn [bind app]. f_equal.
      destruct (Nat.min_spec 5 (List.length jobs)) as [[Hlt ->] | [Hle ->]];
        [reflexivity |].
      rewrite !firstn_all2; [reflexivity | lia | lia].
    + eapply List.Forall_impl; [| exact Hjobs].
      intros job (fields & ->). apply job_passes_empty.
Qed.

End Filter.

(** The filter scenario of the design document: the Kathmandu job is
    retained for location [kathmandu] and keyword [engineer]. *)
Example filter_keeps_kathmandu_job :
  Matcher.filter_jobs Demo.reader_env [Demo.kathmandu_job] "kathmandu" "engineer"
  = Py.Ok [Demo.kathmandu_job].
Proof. vm_compute. reflexivity. Qed.

Lemma kathmandu_job_listing : FilterSpec.job_listing Demo.kathmandu_job.
Proof. eexists. split; [reflexivity | vm_compute; exact I]. Qed.

Lemma titled_job_listing (t : string) : FilterSpec.job_listing (Demo.titled t).
Proof. eexists. split; [reflexivity | vm_compute; exact I]. Qed.

(** The statement at two jobs of which one passes: the Kathmandu job
    passes both tests of the design document and is kept, the other has
    no location and is not. *)
Lemma filter_jobs_idempotent_witness :
  (exists out,
     Matcher.filter_jobs Demo.reader_env [Demo.kathmandu_job; Demo.titled "J1"]
       "Kathmandu" "Engineer" = Py.Ok out) /\
  Matcher.filter_jobs Demo.reader_env [Demo.kathmandu_job] "Kathmandu" "Engineer"
  = Py.Ok [Demo.kathmandu_job] /\
  FilterSpec.passes_both_tests Demo.reader_env "Kathmandu" "Engineer" Demo.kathmandu_job /\
  ~ FilterSpec.passes_both_tests Demo.reader_env "Kathmandu" "Engineer" (Demo.titled "J1").
Proof.
  assert (H : Matcher.filter_jobs Demo.reader_env [Demo.kathmandu_job; Demo.titled "J1"]
                "Kathmandu" "Engineer" = Py.Ok [Demo.kathmandu_job])
    by (vm_compute; reflexivity).
  pose proof (filter_jobs_idempotent Demo.reader_env
                [Demo.kathmandu_job; Demo.titled "J1"] "Kathmandu" "Engineer")
    as (Hreturns & Hout & Hboth).
  split; [| split; [| split]].
  - apply Hreturns.
    repeat constructor; [apply kathmandu_job_listing | apply titled_job_listing].
  - exact (proj2 (Hout _ H)).
  - apply (Hboth _ kathmandu_job_listing). vm_compute. reflexivity.
  - intros Hpass. apply (Hboth _ (titled_job_listing "J1")) in Hpass.
    vm_compute in Hpass. discriminate Hpass.
Defined.

(** The statement at the seven jobs of the ranking scenario. *)
Lemma filter_jobs_empty_criteria_witness :
  Matcher.filter_jobs Demo.reader_env Demo.seven_jobs EmptyString EmptyString
  = Py.Ok (map Demo.titled ["J1"; "J2"; "J3"; "J4"; "J5"]).
Proof.
  refine (proj2 (filter_jobs_empty_criteria Demo.reader_env Demo.seven_jobs _)).
  unfold Demo.seven_jobs. cbn [map].
  repeat (constructor; [eexists; reflexivity |]). constructor.
Defined.

(** ** Ranking *)

Section Ranking.
Import Py Json Sys MatchSpec.
Variable E : Env.

Lemma lt_ints (a b : json) (x y : Z) :
  as_int a = Some x -> as_int b = Some y -> Matcher.lt E a b = Ok (x <? y)%Z.
Proof. intros Ha Hb. unfold Matcher.lt. now rewrite Ha, Hb. Qed.

Lemma Forall_perm {A} (P : A -> Prop) (l l' : list A) :
  Permutation l l' -> Forall P l -> Forall P l'.
Proof.
  intros Hp H. apply List.Forall_forall. intros x Hx.
  apply Permutation_sym in Hp.
  exact (proj1 (List.Forall_forall P l) H x (Permutation_in x Hp Hx)).
Qed.

Lemma insert_desc_spec (kx : json * json) (sorted : list (json * json)) :
  int_keyed kx -> Forall int_keyed sorted ->
  exists r,
    Matcher.insert_desc E kx sorted = Ok r /\
    Permutation (kx :: sorted) r /\
    (StronglySorted key_ge sorted -> StronglySorted key_ge r) /\
    (forall s, List.filter (key_is s) r = List.filter (key_is s) (kx :: sorted)).
Proof.
  intros [zx Hx]. induction sorted as [|ky rest IH]; intros Hall.
  - exists [kx]. simpl. repeat split; auto.
    intros _. repeat constructor.
  - pose proof (Forall_inv Hall) as [zy Hy].
    pose proof (Forall_inv_tail Hall) as Hrest.
    cbn [Matcher.insert_desc]. rewrite (lt_ints _ _ zx zy Hx Hy). cbn [bind].
    assert (Hzx : zkey kx = zx) by (unfold zkey; now rewrite Hx).
    assert (Hzy : zkey ky = zy) by (unfold zkey; now rewrite Hy).
    destruct (zx <? zy)%Z eqn:Hcmp.
    + apply Z.ltb_lt in Hcmp.
      destruct (IH Hrest) as (r & -> & Hperm & Hsorted & Hfilter). cbn [bind].
      exists (ky :: r). split; [reflexivity |]. split; [| split].
      * apply perm_trans with (ky :: kx :: rest); [apply perm_swap |].
        now apply perm_skip.
      * intros Hs. apply StronglySorted_inv in Hs as [Hs Hky].
        constructor; [now apply Hsorted |].
        apply (Forall_perm _ _ _ Hperm). constructor; [| exact Hky].
        unfold key_ge. lia.
      * intros s. cbn [List.filter]. rewrite Hfilter. cbn [List.filter].
        unfold key_is. rewrite Hzx, Hzy.
        destruct (zx =? s)%Z eqn:H1, (zy =? s)%Z eqn:H2; try reflexivity.
        apply Z.eqb_eq in H1, H2. lia.
    + apply Z.ltb_ge in Hcmp.
      exists (kx :: ky :: rest). split; [reflexivity |]. split; [| split].
      * apply Permutation_refl.
      * intros Hs. constructor; [exact Hs |].
        pose proof (StronglySorted_inv Hs) as [_ Hky].
        constructor; [unfold key_ge; lia |].
        eapply List.Forall_impl; [| exact Hky].
        intros kz Hkz. unfold key_ge in *. lia.
      * reflexivity.
Qed.

Lemma sort_desc_spec (l : list (json * json)) :
  Forall int_keyed l ->
  exists r,
    Matcher.sort_desc E l = Ok r /\
    Permutation l r /\
    StronglySorted key_ge r /\
    (forall s, List.filter (key_is s) r = List.filter (key_is s) l).
Proof.
  induction l as [|kx rest IH]; intros Hall.
  - exists []. simpl. repeat split; auto. constructor.
  - destruct (IH (Forall_inv_tail Hall)) as (r0 & Hr0 & Hperm0 & Hsorted0 & Hfilter0).
    destruct (insert_desc_spec kx r0 (Forall_inv Hall)
                (Forall_perm _ _ _ Hperm0 (Forall_inv_tail Hall)))
      as (r & Hr & Hperm & Hsorted & Hfilter).
    exists r. cbn [Matcher.sort_desc]. rewrite Hr0. cbn [bind].
    split; [exact Hr |]. split; [| split].
    + apply perm_trans with (kx :: r0); [now apply perm_skip | exact Hperm].
    + now apply Hsorted.
    + intros s. rewrite Hfilter. cbn [List.filter]. now rewrite Hfilter0.
Qed.

Lemma score_of_key (x k : json) (z : Z) :
  Matcher.score_key x = Ok k -> as_int k = Some z -> score x = z.
Proof. intros Hk Hz. unfold score. now rewrite Hk, Hz. Qed.

Lemma keys_of_spec (l : list json) :
  Forall scored l ->
  exists keyed,
    Matcher.keys_of l = Ok keyed /\
    map snd keyed = l /\
    Forall (fun kx => as_int (fst kx) = Some (score (snd kx))) keyed.
Proof.
  induction l as [|x rest IH]; intros Hall.
  - exists []. simpl. auto.
  - destruct (Forall_inv Hall) as (k & z & Hk & Hz).
    destruct (IH (Forall_inv_tail Hall)) as (keyed & Hkeyed & Hmap & Hkeys).
    exists ((k, x) :: keyed). cbn [Matcher.keys_of]. rewrite Hk, Hkeyed. cbn [bind].
    split; [reflexivity |]. split; [simpl; now rewrite Hmap |].
    constructor; [| exact Hkeys]. simpl. now rewrite (score_of_key x k z Hk Hz).
Qed.

Lemma sorted_by_score (r : list (json * json)) :
  Forall (fun kx => as_int (fst kx) = Some (score (snd kx))) r ->
  StronglySorted key_ge r -> descending (map snd r).
Proof.
  unfold descending. induction r as [|kx r IH]; intros Hkeys Hs; simpl; [constructor |].
  apply StronglySorted_inv in Hs as [Hs Hkx].
  pose proof (Forall_inv Hkeys) as Hx. pose proof (Forall_inv_tail Hkeys) as Hr.
  constructor; [now apply IH |].
  apply List.Forall_map. apply List.Forall_forall. intros ky Hin.
  pose proof (proj1 (List.Forall_forall _ _) Hkx ky Hin) as Hge.
  pose proof (proj1 (List.Forall_forall _ _) Hr ky Hin) as Hy.
  unfold key_ge, zkey in Hge. rewrite Hx, Hy in Hge. exact Hge.
Qed.

Lemma filter_by_score (s : Z) (r : list (json * json)) :
  Forall (fun kx => as_int (fst kx) = Some (score (snd kx))) r ->
  List.filter (fun x => (score x =? s)%Z) (map snd r)
  = map snd (List.filter (key_is s) r).
Proof.
  induction r as [|kx r IH]; intros Hkeys; [reflexivity |].
  pose proof (Forall_inv Hkeys) as Hx.
  assert (Hk : key_is s kx = (score (snd kx) =? s)%Z)
    by (unfold key_is, zkey; now rewrite Hx).
  cbn [map List.filter]. rewrite (IH (Forall_inv_tail Hkeys)), Hk.
  now destruct (score (snd kx) =? s)%Z.
Qed.

(** On matched jobs of the data model the sort returns, and what it returns
    is the stable descending arrangement. *)
Lemma sort_by_score_spec (matched : list json) :
  Forall scored matched ->
  exists out,
    Matcher.sort_by_score E matched = Ok out /\
    Permutation matched out /\ descending out /\ ties_in_order matched out.
Proof.
  intros Hall.
  destruct (keys_of_spec matched Hall) as (keyed & Hkeyed & Hmap & Hkeys).
  assert (Hint : Forall int_keyed keyed).
  { eapply List.Forall_impl; [| exact Hkeys]. intros kx Hkx. now exists (score (snd kx)). }
  destruct (sort_desc_spec keyed Hint) as (r & Hr & Hperm & Hsorted & Hfilter).
  exists (map snd r). unfold Matcher.sort_by_score. rewrite Hkeyed. cbn [bind].
  rewrite Hr. cbn [bind]. split; [reflexivity |].
  pose proof (Forall_perm _ _ _ Hperm Hkeys) as Hkeys_r.
  split; [| split].
  - rewrite <- Hmap. now apply Permutation_map.
  - now apply sorted_by_score.
  - intros s. rewrite (filter_by_score s r Hkeys_r), Hfilter.
    rewrite <- Hmap. symmetry. now apply filter_by_score.
Qed.

(** Whatever the keys are, a sort that returns has rearranged its input. *)
Lemma insert_desc_perm (kx : json * json) (sorted : list (json * json)) :
  forall r, Matcher.insert_desc E kx sorted = Ok r -> Permutation (kx :: sorted) r.
Proof.
  induction sorted as [|ky rest IH]; intros r H; cbn [Matcher.insert_desc] in H.
  - injection H as <-. apply Permutation_refl.
  - destruct (Matcher.lt E (fst kx) (fst ky)) as [[|]|]; cbn [bind] in H;
      try discriminate.
    + destruct (Matcher.insert_desc E kx rest) as [r'|]; cbn [bind] in H;
        [| discriminate].
      injection H as <-.
      apply perm_trans with (ky :: kx :: rest); [apply perm_swap |].
      apply perm_skip. now apply IH.
    + injection H as <-. apply Permutation_refl.
Qed.

Lemma sort_desc_perm (l : list (json * json)) :
  forall r, Matcher.sort_desc E l = Ok r -> Permutation l r.
Proof.
  induction l as [|kx rest IH]; intros r H; cbn [Matcher.sort_desc] in H.
  - injection H as <-. constructor.
  - destruct (Matcher.sort_desc E rest) as [r0|]; cbn [bind] in H; [| discriminate].
    apply insert_desc_perm in H.
    apply perm_trans with (kx :: r0); [apply perm_skip; now apply IH | exact H].
Qed.

Lemma keys_of_snd (l : list json) :
  forall keyed, Matcher.keys_of l = Ok keyed -> map snd keyed = l.
Proof.
  induction l as [|x rest IH]; intros keyed H; cbn [Matcher.keys_of] in H.
  - now injection H as <-.
  - destruct (Matcher.score_key x); cbn [bind] in H; [| discriminate].
    destruct (Matcher.keys_of rest) as [ks|]; cbn [bind] in H; [| discriminate].
    injection H as <-. simpl. now rewrite (IH ks).
Qed.

Lemma sort_by_score_perm (l out : list json) :
  Matcher.sort_by_score E l = Ok out -> Permutation l out.
Proof.
  unfold Matcher.sort_by_score. intros H.
  destruct (Matcher.keys_of l) as [keyed|] eqn:Hkeys; cbn [bind] in H; [| discriminate].
  destruct (Matcher.sort_desc E keyed) as [sorted|] eqn:Hsorted; cbn [bind] in H;
    [| discriminate].
  injection H as <-. rewrite <- (keys_of_snd l keyed Hkeys).
  apply Permutation_map. now apply sort_desc_perm.
Qed.

End Ranking.

(** ** Matching *)

Section Matching.
Import Py Json Sys MatchSpec.
Variable E : Env.

Lemma match_one_mapping (resume_data : json) (fields : gmap string json) (w : World) :
  Matcher.match_one E resume_data (JObj fields) w
  = (Ok (entry_for E resume_data (llm_calls w) (JObj fields)),
     set_llm_calls (S (llm_calls w)) w).
Proof.
  unfold Matcher.match_one, try_except, mbind, lift, Matcher.invoke, entry_for,
    details_for.
  cbn [get with_key].
  destruct (ollama E (llm_calls w) (MatchingPrompt resume_data (JObj fields)))
    as [text|e]; [| reflexivity].
  destruct (Matcher._clean_json_response E text) as [match_data|e]; reflexivity.
Qed.

Lemma set_llm_calls_twice (a b : nat) (w : World) :
  set_llm_calls a (set_llm_calls b w) = set_llm_calls a w.
Proof. reflexivity. Qed.

Lemma match_loop_mappings (resume_data : json) (jobs : list json) :
  forall matched_jobs w,
    Forall is_mapping jobs ->
    Matcher.match_loop E resume_data jobs matched_jobs w
    = (Ok (matched_jobs ++ entries_from E resume_data (llm_calls w) jobs)%list,
       set_llm_calls (llm_calls w + List.length jobs) w).
Proof.
  induction jobs as [|job jobs IH]; intros matched_jobs w Hjobs.
  - destruct w. simpl. unfold ret, set_llm_calls. simpl.
    now rewrite app_nil_r, Nat.add_0_r.
  - destruct (Forall_inv Hjobs) as [fields ->].
    cbn [Matcher.match_loop]. unfold mbind at 1. rewrite match_one_mapping.
    rewrite IH by exact (Forall_inv_tail Hjobs).
    cbn [entries_from List.length]. rewrite <- app_assoc. cbn [app].
    f_equal. rewrite set_llm_calls_twice.
    cbn [llm_calls set_llm_calls]. f_equal. lia.
Qed.

Lemma match_resume_fails (resume_file : string) (jobs : list json) (w w' : World) :
  resume_fails E resume_file w w' ->
  Matcher.match_resume_to_jobs E resume_file jobs w = (Ok [], w').
Proof.
  intros (resume_data & Hparse & Herr).
  unfold Matcher.match_resume_to_jobs, mbind, lift. now rewrite Hparse, Herr.
Qed.

Lemma match_resume_sorts (resume_file : string) (jobs : list json) (w w' : World)
    (matched : list json) :
  matched_by E resume_file jobs w matched w' ->
  Matcher.match_resume_to_jobs E resume_file jobs w
  = (Matcher.sort_by_score E matched, w').
Proof.
  intros (resume_data & w1 & Hparse & Herr & Hloop).
  unfold Matcher.match_resume_to_jobs, mbind, lift.
  now rewrite Hparse, Herr, Hloop.
Qed.

(** The entry of a job carries a [match_details] key. *)
Lemma entry_has_details (resume_data : json) (n : nat) (job : json) :
  is_mapping job ->
  get (entry_for E resume_data n job) "match_details" JNull
  = Ok (details_for E resume_data job n) /\
  entry_of job (entry_for E resume_data n job).
Proof.
  intros [fields ->]. unfold entry_for, entry_of. cbn [get with_key]. split.
  - now rewrite lookup_insert_eq.
  - eauto.
Qed.

(** A job whose model call raises gets the error placeholder, score 0. *)
Lemma failed_call_details (resume_data job : json) (n : nat) (e : exn) :
  ollama E n (MatchingPrompt resume_data job) = Raise e ->
  details_for E resume_data job n = Matcher.error_match_data (exn_str E e) /\
  get (Matcher.error_match_data (exn_str E e)) "match_score" JNull = Ok (JNum 0) /\
  get (Matcher.error_match_data (exn_str E e)) "match_reasoning" JNull
  = Ok (JStr "Error during matching.").
Proof.
  intros H. unfold details_for. rewrite H. repeat split.
Qed.

Lemma entries_from_length (resume_data : json) (jobs : list json) :
  forall n, List.length (entries_from E resume_data n jobs) = List.length jobs.
Proof. induction jobs as [|job jobs IH]; intros n; simpl; [reflexivity | now rewrite IH]. Qed.

(** fapp.py keeps every job: with a resume that parses, the loop appends
    one entry per job, in order, and whatever the sort returns is a
    rearrangement of those entries. *)
Lemma fapp_keeps_every_job (resume_file : string) (jobs : list json)
    (w w1 : World) (resume_data : json) :
  ResumeProcessor.parse_resume_from_file E resume_file w = (Ok resume_data, w1) ->
  contains "error" resume_data = Ok false ->
  Forall is_mapping jobs ->
  let matched := entries_from E resume_data (llm_calls w1) jobs in
  matched_by E resume_file jobs w matched
    (set_llm_calls (llm_calls w1 + List.length jobs) w1) /\
  List.length matched = List.length jobs /\
  forall out w',
    Matcher.match_resume_to_jobs E resume_file jobs w = (Ok out, w') ->
    Permutation matched out.
Proof.
  intros Hparse Herr Hjobs matched.
  assert (Hby : matched_by E resume_file jobs w matched
                  (set_llm_calls (llm_calls w1 + List.length jobs) w1)).
  { exists resume_data, w1. repeat split; auto.
    now rewrite match_loop_mappings. }
  split; [exact Hby |]. split; [apply entries_from_length |].
  intros out w' Hout. rewrite (match_resume_sorts _ _ _ _ _ Hby) in Hout.
  injection Hout as Hsort _. now apply (sort_by_score_perm E).
Qed.

(** f.py drops a job whose model call raises: the round appends nothing. *)
Lemma f_match_one_drops (resume_data : json) (fields : gmap string json)
    (w : World) (e : exn) :
  ollama E (llm_calls w) (MatchingPrompt resume_data (JObj fields)) = Raise e ->
  F.match_one E resume_data (JObj fields) w
  = (Ok None, set_llm_calls (S (llm_calls w)) w).
Proof.
  intros H.
  unfold F.match_one, try_except, mbind, lift, Matcher.invoke. cbn [get].
  now rewrite H.
Qed.

End Matching.

(** [scoredb] decides [scored]. *)
Lemma forallb_scored (l : list Json.json) :
  forallb MatchSpec.scoredb l = true -> Forall MatchSpec.scored l.
Proof.
  induction l as [|x l IH]; simpl; intros H; constructor.
  - apply andb_prop in H as [Hx _]. unfold MatchSpec.scoredb in Hx.
    unfold MatchSpec.scored.
    destruct (Matcher.score_key x) as [k|]; [| discriminate].
    destruct (Json.as_int k) as [z|] eqn:Hz; [| discriminate]. eauto.
  - apply andb_prop in H as [_ Hl]. now apply IH.
Qed.

(** C7. When the resume parses and the matching loop ends with matched jobs
    of the data model, [match_resume_to_jobs] returns them sorted by
    descending match score (every entry's score is at least that of every
    later entry), entries with equal scores keeping the order they had. For
    the seven jobs of the scenario, scored 90, 40, 90, 10, 70, 0, 55, the
    first five of the output have scores 90, 90, 70, 55, 40 and are the
    first, third, fifth, seventh and second job. *)
Theorem ranking_descending_and_stable :
  (forall (E : Sys.Env) (resume_file : string) (jobs : list Json.json)
          (w w' : Sys.World) (matched : list Json.json),
      MatchSpec.matched_by E resume_file jobs w matched w' ->
      Forall MatchSpec.scored matched ->
      exists out,
        Matcher.match_resume_to_jobs E resume_file jobs w = (Py.Ok out, w') /\
        Permutation matched out /\
        MatchSpec.descending out /\
        MatchSpec.ties_in_order matched out) /\
  match fst (Matcher.match_resume_to_jobs Demo.ranking_env Demo.pdf_bytes
               Demo.seven_jobs Demo.world0) with
  | Py.Ok out =>
      map MatchSpec.score (firstn 5 out) = [90; 90; 70; 55; 40]%Z /\
      map Demo.title (firstn 5 out) = ["J1"; "J3"; "J5"; "J7"; "J2"]
  | Py.Raise _ => False
  end.
Proof.
  split.
  - intros E resume_file jobs w w' matched Hby Hscored.
    destruct (sort_by_score_spec E matched Hscored) as (out & Hsort & Hrest).
    exists out. split; [| exact Hrest].
    rewrite (match_resume_sorts E _ _ _ _ _ Hby). now rewrite Hsort.
  - vm_compute. split; reflexivity.
Qed.

(** The statement at the ranking scenario. *)
Lemma ranking_descending_and_stable_witness :
  exists out,
    Matcher.match_resume_to_jobs Demo.ranking_env Demo.pdf_bytes Demo.seven_jobs
      Demo.world0
    = (Py.Ok out, Sys.set_llm_calls 7 Demo.after_parse) /\
    MatchSpec.descending out.
Proof.
  destruct (proj1 ranking_descending_and_stable Demo.ranking_env Demo.pdf_bytes
              Demo.seven_jobs Demo.world0 (Sys.set_llm_calls 7 Demo.after_parse)
              (MatchSpec.entries_from Demo.ranking_env Demo.profile 0 Demo.seven_jobs))
    as (out & Hout & _ & Hdesc & _).
  - exists Demo.profile, Demo.after_parse.
    repeat split; vm_compute; reflexivity.
  - apply forallb_scored. vm_compute. reflexivity.
  - exists out. split; [exact Hout | exact Hdesc].
Defined.

(** C2, on resume_scraper/f.py: with the matching model down, the f.py
    variant returns the empty list for a one-job batch (the handler only
    logs, so the job is dropped), while fapp.py returns the job with the
    error placeholder, score 0. *)
Theorem f_drops_job_whose_match_raises :
  fst (F.match_resume_to_jobs Demo.llm_down_env Demo.pdf_bytes
         [Demo.titled "J1"] Demo.world0) = Py.Ok [] /\
  fst (Matcher.match_resume_to_jobs Demo.llm_down_env Demo.pdf_bytes
         [Demo.titled "J1"] Demo.world0)
  = Py.Ok [Json.JObj (<["match_details" := Matcher.error_match_data "connection refused"]>
                       {["job_title" := Json.JStr "J1"]})].
Proof. split; vm_compute; reflexivity. Qed.

(** ** Scraping *)

Section Scraping.
Import Py Json Sys MatchSpec.
Variable E : Env.

(** [scrape_website] never raises. *)
Lemma scrape_never_raises (url : string) (w : World) :
  exists html w', Scraper.scrape_website E url w = (Ok html, w').
Proof.
  unfold Scraper.scrape_website, try_except, mbind, Scraper.create_webdriver,
    Scraper.get, Scraper.read_page_source, Scraper.quit, lift, ret.
  destruct (chrome E (launched w)); [| eauto].
  destruct (driver_get E (launched w) url); [| eauto].
  destruct (page_source E (launched w) url); [| eauto].
  destruct (driver_quit E (launched w)); eauto.
Qed.

(** When every browser call succeeds the page is returned and the session
    the call started is closed again. *)
Lemma scrape_success_closes (url html : string) (w : World) :
  chrome E (launched w) = Ok () ->
  driver_get E (launched w) url = Ok () ->
  page_source E (launched w) url = Ok html ->
  driver_quit E (launched w) = Ok () ->
  Scraper.scrape_website E url w
  = (Ok html,
     set_sessions (S (launched w))
       (({[launched w]} ∪ open_sessions w) ∖ {[launched w]}) w).
Proof.
  intros Hc Hg Hp Hq.
  unfold Scraper.scrape_website, try_except, mbind, Scraper.create_webdriver,
    Scraper.get, Scraper.read_page_source, Scraper.quit, lift, ret.
  rewrite Hc. cbn [launched set_sessions]. now rewrite Hg, Hp, Hq.
Qed.

(** When the browser starts and the navigation raises, the empty string is
    returned and the session stays open: the handler does not quit. *)
Lemma scrape_failed_get_leaks (url : string) (w : World) (e : exn) :
  chrome E (launched w) = Ok () ->
  driver_get E (launched w) url = Raise e ->
  Scraper.scrape_website E url w
  = (Ok EmptyString,
     set_sessions (S (launched w)) ({[launched w]} ∪ open_sessions w) w).
Proof.
  intros Hc Hg.
  unfold Scraper.scrape_website, try_except, mbind, Scraper.create_webdriver,
    Scraper.get, lift, ret.
  rewrite Hc. cbn [launched set_sessions]. now rewrite Hg.
Qed.

End Scraping.

(** C9, at a page the browser cannot reach: [scrape_website] returns the
    empty string and does not raise, and session 0, which it launched, is
    still open afterwards; on a page that loads, the session is closed. *)
Theorem scrape_leaves_session_open_on_failure :
  Scraper.scrape_website Demo.unreachable_env "https://www.linkedin.com/jobs/search/"
    Demo.world0
  = (Py.Ok EmptyString, Sys.set_sessions 1 {[0%nat]} Demo.world0) /\
  Scraper.scrape_website Demo.reader_env "https://www.linkedin.com/jobs/search/"
    Demo.world0
  = (Py.Ok "<html>", Sys.set_sessions 1 ∅ Demo.world0).
Proof. split; vm_compute; reflexivity. Qed.

(** ** What the pipeline leaves alone *)

Section Frame.
Import Py Json Sys MatchSpec.
Variable E : Env.

Lemma frame_refl (w : World) : frame w w.
Proof. repeat split. Qed.

Lemma frame_trans (w1 w2 w3 : World) : frame w1 w2 -> frame w2 w3 -> frame w1 w3.
Proof. unfold frame. intros (? & ? & ?) (? & ? & ?). repeat split; congruence. Qed.

Lemma preserves_ret {A} (a : A) : preserves (ret a).
Proof. intros w r w' H. injection H as _ <-. apply frame_refl. Qed.

Lemma preserves_lift {A} (r : result A) : preserves (lift r).
Proof. intros w r' w' H. injection H as _ <-. apply frame_refl. Qed.

Lemma preserves_bind {A B} (m : M A) (k : A -> M B) :
  preserves m -> (forall a, preserves (k a)) -> preserves (mbind m k).
Proof.
  intros Hm Hk w r w' H. unfold mbind in H.
  destruct (m w) as [[a|e] w1] eqn:Hmw.
  - exact (frame_trans _ _ _ (Hm _ _ _ Hmw) (Hk a _ _ _ H)).
  - injection H as _ <-. exact (Hm _ _ _ Hmw).
Qed.

Lemma preserves_try {A} (m : M A) (h : exn -> M A) :
  preserves m -> (forall e, preserves (h e)) -> preserves (try_except m h).
Proof.
  intros Hm Hh w r w' H. unfold try_except in H.
  destruct (m w) as [[a|e] w1] eqn:Hmw.
  - injection H as _ <-. exact (Hm _ _ _ Hmw).
  - exact (frame_trans _ _ _ (Hm _ _ _ Hmw) (Hh e _ _ _ H)).
Qed.

(** A primitive step changes only its own fields of the state. *)
Ltac frame_of_step H :=
  repeat match type of H with
         | context [match ?x with _ => _ end] => destruct x
         end;
  injection H as _ <-; repeat split.

Lemma preserves_create_webdriver : preserves (Scraper.create_webdriver E).
Proof. intros w r w' H. unfold Scraper.create_webdriver in H. frame_of_step H. Qed.

Lemma preserves_quit (sid : nat) : preserves (Scraper.quit E sid).
Proof. intros w r w' H. unfold Scraper.quit in H. frame_of_step H. Qed.

Lemma preserves_invoke (p : prompt) : preserves (Matcher.invoke E p).
Proof. intros w r w' H. unfold Matcher.invoke in H. frame_of_step H. Qed.

Lemma preserves_save_file (file_object : string) :
  preserves (ResumeProcessor.save_file E file_object).
Proof. intros w r w' H. unfold ResumeProcessor.save_file in H. frame_of_step H. Qed.

Lemma preserves_extract_text (file_path : string) :
  preserves (ResumeProcessor.extract_text_from_pdf E file_path).
Proof.
  intros w r w' H. unfold ResumeProcessor.extract_text_from_pdf in H. frame_of_step H.
Qed.

Lemma preserves_ats_extractor (resume_data : string) :
  preserves (ResumePraser.ats_extractor E resume_data).
Proof. intros w r w' H. unfold ResumePraser.ats_extractor in H. frame_of_step H. Qed.

Create HintDb frame.
#[local] Hint Resolve preserves_ret preserves_lift preserves_create_webdriver
  preserves_quit preserves_invoke preserves_save_file preserves_extract_text
  preserves_ats_extractor : frame.

(** Composite code: split at every bind and handler, close the steps. *)
Ltac frame_of_code :=
  repeat first
    [ apply preserves_try; [| intros ?]
    | apply preserves_bind; [| intros ?] ];
  auto with frame.

Lemma preserves_scrape_website (url : string) : preserves (Scraper.scrape_website E url).
Proof.
  unfold Scraper.scrape_website, Scraper.get, Scraper.read_page_source. frame_of_code.
Qed.

Lemma preserves_extract_job_details (content : string) :
  preserves (Matcher._extract_job_details E content).
Proof. unfold Matcher._extract_job_details. frame_of_code. Qed.

Lemma preserves_extract_all (split_contents : list string) :
  forall job_listings, preserves (Matcher.extract_all E split_contents job_listings).
Proof.
  induction split_contents as [|content rest IH]; intros job_listings;
    cbn [Matcher.extract_all]; [apply preserves_ret |].
  apply preserves_bind; [apply preserves_extract_job_details | intros job_listing].
  destruct (truthy job_listing); apply IH.
Qed.

Lemma preserves_scrape_sites (job_sites : list string) :
  forall job_listings, preserves (Matcher.scrape_sites E job_sites job_listings).
Proof.
  induction job_sites as [|site rest IH]; intros job_listings;
    cbn [Matcher.scrape_sites]; [apply preserves_ret |].
  apply preserves_bind; [apply preserves_scrape_website | intros html_content].
  destruct (nonempty html_content); [| apply IH].
  apply preserves_bind; [apply preserves_extract_all | intros; apply IH].
Qed.

Lemma preserves_parse_resume (file_object : string) :
  preserves (ResumeProcessor.parse_resume_from_file E file_object).
Proof.
  unfold ResumeProcessor.parse_resume_from_file.
  apply preserves_bind; [apply preserves_save_file | intros [path|]];
    [| apply preserves_ret].
  apply preserves_bind; [apply preserves_extract_text | intros [[|c text]|]];
    try apply preserves_ret.
  apply preserves_bind; [apply preserves_ats_extractor | intros prased_data].
  apply preserves_bind; [apply preserves_lift | intros [|]]; frame_of_code.
Qed.

End Frame.

(** ** The upload flow *)

Section Upload.
Import Py Json Sys MatchSpec AppSpec.
Variable E : Env.

Lemma process_falls_back (filepath location job_preference bytes : string)
    (w0 w1 w2 : World) (listings filtered : list json) :
  upload_dir w0 !! filepath = Some bytes ->
  Matcher.scrape_job_listings E [Fapp.search_url job_preference location] w0
  = (Ok listings, w1) ->
  Matcher.filter_jobs E listings location job_preference = Ok filtered ->
  filtered <> [] ->
  resume_fails E bytes w1 w2 ->
  exists w',
    Fapp.process E filepath location job_preference w0
    = (Ok (Fapp.Redirect "results"), w') /\
    result_file w' = Some (firstn 5 filtered) /\
    flashed w' = (flashed w0 ++ [Fapp.flash_success])%list /\
    upload_dir w' !! filepath = None.
Proof.
  intros Hfile Hscrape Hfilter Hne Hfails.
  pose proof (preserves_scrape_sites E _ _ _ _ _ Hscrape) as (Hdir1 & Hfl1 & _).
  pose proof Hfails as (resume_data & Hparse & _).
  pose proof (preserves_parse_resume E _ _ _ _ Hparse) as (Hdir2 & Hfl2 & _).
  unfold Fapp.process. unfold mbind at 1. rewrite Hscrape.
  unfold mbind at 1, lift at 1. rewrite Hfilter.
  destruct filtered as [|job rest]; [congruence |].
  unfold mbind at 1, open_rb. rewrite Hdir1, Hfile.
  unfold mbind at 1. rewrite (match_resume_fails E bytes (job :: rest) w1 w2 Hfails).
  unfold mbind at 1, os_remove. rewrite Hdir2, Hdir1, Hfile.
  eexists. split; [reflexivity |].
  cbn. rewrite Hfl2, Hfl1. repeat split. apply lookup_delete_eq.
Qed.

End Upload.

(** C1, as amended. For every uploaded document whose resume parse reports
    an error, [match_resume_to_jobs] returns the empty list; the upload
    flow, which reaches the matching step only with a non-empty filtered
    list, then falls back to the filtered jobs: it writes their first five
    to the result file, flashes the success message and redirects to the
    results. *)
Theorem upload_falls_back_on_resume_failure
    (E : Sys.Env) (req : Fapp.request) (w w1 w2 : Sys.World)
    (bytes : string) (filtered : list Json.json) :
  AppSpec.reaches_matching E req w bytes filtered w1 ->
  MatchSpec.resume_fails E bytes w1 w2 ->
  (forall jobs, Matcher.match_resume_to_jobs E bytes jobs w1 = (Py.Ok [], w2)) /\
  exists w',
    Fapp.upload E req w = (Py.Ok (Fapp.Redirect "results"), w') /\
    Sys.result_file w' = Some (firstn 5 filtered) /\
    Sys.flashed w' = (Sys.flashed w ++ [Fapp.flash_success])%list.
Proof.
  intros (file_name & listings & Hpost & Hfile & Hname & Hallowed & Hscrape
          & Hfilter & Hne) Hfails.
  split; [intros jobs; now apply match_resume_fails |].
  destruct (process_falls_back E (Fapp.filepath_of E file_name)
              (Fapp.form_field (Fapp.form_location req))
              (Fapp.form_field (Fapp.form_job_preference req)) bytes
              (Fapp.save_upload (Fapp.filepath_of E file_name) bytes w)
              w1 w2 listings filtered)
    as (w' & Hprocess & Hresult & Hflashed & _); auto.
  { unfold Fapp.save_upload. cbn. apply lookup_insert_eq. }
  exists w'. split; [| split; [exact Hresult | exact Hflashed]].
  unfold Fapp.upload. rewrite Hpost, Hfile, Hname, Hallowed. cbn [negb].
  unfold Sys.mbind at 1, Sys.modify, Sys.try_except. now rewrite Hprocess.
Qed.

(** A PDF without text fails to parse in every state. *)
Lemma blank_pdf_fails (w1 : Sys.World) :
  MatchSpec.resume_fails Demo.blank_pdf_env Demo.pdf_bytes w1
    (Sys.set_data_file (Some Demo.pdf_bytes) w1).
Proof.
  exists (Json.obj [("error", Json.JStr "Failed to extract text from PDF")]).
  split; [reflexivity | vm_compute; reflexivity].
Qed.

(** The statement at the upload of a PDF without text, one job on the page. *)
Lemma upload_falls_back_on_resume_failure_witness :
  exists w',
    Fapp.upload Demo.blank_pdf_env Demo.upload_request Demo.world0
    = (Py.Ok (Fapp.Redirect "results"), w') /\
    Sys.result_file w' = Some [Demo.kathmandu_job] /\
    Sys.flashed w' = [Fapp.flash_success].
Proof.
  refine (proj2 (upload_falls_back_on_resume_failure Demo.blank_pdf_env
                   Demo.upload_request Demo.world0
                   (snd (Matcher.scrape_job_listings Demo.blank_pdf_env
                           [Fapp.search_url "engineer" "kathmandu"]
                           (Fapp.save_upload "upload/cv.pdf" Demo.pdf_bytes Demo.world0)))
                   _ Demo.pdf_bytes [Demo.kathmandu_job] _ (blank_pdf_fails _))).
  exists "cv.pdf", [Demo.kathmandu_job].
  repeat split; try (vm_compute; reflexivity). discriminate.
Defined.

(** C1, as stated, fails: for a PDF without text the parse reports an error
    in every state, yet the upload of the scenario flashes success and
    writes the filtered job to the result file. *)
Lemma upload_resume_failure_counterexample :
  ~ (forall (E : Sys.Env) (req : Fapp.request) (w : Sys.World) (file_name bytes : string),
       Fapp.file_resume req = Some (file_name, bytes) ->
       (forall w1, exists w2, MatchSpec.resume_fails E bytes w1 w2) ->
       forall r w',
         Fapp.upload E req w = (r, w') ->
         Sys.result_file w' = Sys.result_file w /\
         exists f, In f (Sys.flashed w') /\ AppSpec.is_error f).
Proof.
  intros H.
  destruct (H Demo.blank_pdf_env Demo.upload_request Demo.world0 "cv.pdf" Demo.pdf_bytes
              eq_refl (fun w1 => ex_intro _ _ (blank_pdf_fails w1))
              _ _ eq_refl) as [Hfile _].
  vm_compute in Hfile. discriminate Hfile.
Qed.

(** * Further properties of the code *)

#[local] Set Warnings "-clear-no-such-hyp".

(** ** scraper.py *)

Section ScraperMore.
Import Py Json Sys CoverSpec.
Variable E : Env.

Lemma scrape_cases (url : string) (w : World) :
  (exists html,
     chrome E (launched w) = Ok () /\ driver_get E (launched w) url = Ok () /\
     page_source E (launched w) url = Ok html /\ driver_quit E (launched w) = Ok () /\
     Scraper.scrape_website E url w
     = (Ok html, set_sessions (S (launched w))
                   (({[launched w]} ∪ open_sessions w) ∖ {[launched w]}) w)) \/
  (exists e, chrome E (launched w) = Raise e /\
     Scraper.scrape_website E url w = (Ok EmptyString, w)) \/
  (Scraper.scrape_website E url w
   = (Ok EmptyString,
      set_sessions (S (launched w)) ({[launched w]} ∪ open_sessions w) w)).
Proof.
  unfold Scraper.scrape_website, try_except, mbind, Scraper.create_webdriver,
    Scraper.get, Scraper.read_page_source, Scraper.quit, lift, ret.
  destruct (chrome E (launched w)) as [[]|e]; [| right; left; eauto].
  cbn [launched set_sessions open_sessions].
  destruct (driver_get E (launched w) url) as [[]|]; [| right; right; reflexivity].
  destruct (page_source E (launched w) url) as [html|]; [| right; right; reflexivity].
  destruct (driver_quit E (launched w)) as [[]|]; [| right; right; reflexivity].
  left. exists html. repeat split.
Qed.

End ScraperMore.


(** X2. When every open session was launched earlier, that still holds
    after [scrape_website]; the call leaves open at most the one session it
    launched, and none when it returns a page. *)
Theorem scrape_opens_at_most_one_session
    (E : Sys.Env) (url html : string) (w w' : Sys.World) :
  CoverSpec.sessions_known w ->
  Scraper.scrape_website E url w = (Py.Ok html, w') ->
  CoverSpec.sessions_known w' /\
  Sys.open_sessions w' ⊆ Sys.open_sessions w ∪ {[Sys.launched w]} /\
  (html <> EmptyString -> Sys.open_sessions w' = Sys.open_sessions w).
Proof.
  intros Hknown Hrun.
  assert (Hfresh : Sys.launched w ∉ Sys.open_sessions w).
  { intros Hin. apply Hknown in Hin. lia. }
  destruct (scrape_cases E url w)
    as [(page & _ & _ & _ & _ & Heq) | [(e & _ & Heq) | Heq]];
    rewrite Heq in Hrun; injection Hrun as <- <-;
    unfold CoverSpec.sessions_known in *; cbn.
  - split; [| split].
    + intros sid Hsid. assert (Hin : sid ∈ Sys.open_sessions w) by set_solver.
      apply Hknown in Hin. lia.
    + set_solver.
    + intros _. apply leibniz_equiv. set_solver.
  - split; [exact Hknown | split; [set_solver | reflexivity]].
  - split; [| split].
    + intros sid Hsid.
      apply elem_of_union in Hsid as [Hsid | Hsid].
      * apply elem_of_singleton in Hsid. lia.
      * apply Hknown in Hsid. lia.
    + set_solver.
    + intros Hne. now contradict Hne.
Qed.

(** The statement at a page that loads, from the initial state. *)
Lemma scrape_opens_at_most_one_session_witness :
  Sys.open_sessions
    (snd (Scraper.scrape_website Demo.reader_env "https://example.org" Demo.world0))
  = Sys.open_sessions Demo.world0.
Proof.
  refine (proj2 (proj2 (scrape_opens_at_most_one_session Demo.reader_env
                          "https://example.org" "<html>" Demo.world0 _ _ eq_refl)) _).
  - intros sid Hsid. cbn in Hsid. now apply not_elem_of_empty in Hsid.
  - discriminate.
Defined.

Section ChunkerMore.
Import Py Scraper ChunkSpec.

Lemma gtb_false (a b : Z) : (a <= b)%Z -> (a >? b)%Z = false.
Proof. intros H. rewrite Z.gtb_ltb. now apply Z.ltb_ge. Qed.

Lemma fold_left_cons {A B} (f : A -> B -> A) (x : B) (l : list B) (a : A) :
  fold_left f (x :: l) a = fold_left f l (f a x).
Proof. reflexivity. Qed.

Lemma split_step_pair (max_chars : Z) (chunks : list string) (cur p : string) :
  split_step max_chars (chunks, cur) p
  = if (len cur + len p + 1 >? max_chars)%Z
    then ((chunks ++ [strip cur])%list, p)
    else (chunks, cur +:+ String nl p).
Proof. reflexivity. Qed.

Lemma fold_without_closing (max_chars : Z) (ps : list string) :
  forall chunks cur,
    ps <> [] ->
    (len cur + 1 + len (join (String nl EmptyString) ps) <= max_chars)%Z ->
    fold_left (split_step max_chars) ps (chunks, cur)
    = (chunks, cur +:+ String nl EmptyString +:+ join (String nl EmptyString) ps).
Proof.
  induction ps as [|p ps IH]; intros chunks cur Hne Hlen; [congruence |].
  destruct ps as [|q ps].
  - cbn [fold_left join] in *. rewrite split_step_pair.
    rewrite gtb_false by lia. reflexivity.
  - rewrite join_cons2 in *. rewrite !len_append in Hlen.
    change (len (String nl EmptyString)) with 1%Z in Hlen.
    rewrite fold_left_cons, split_step_pair.
    rewrite gtb_false
      by (pose proof (Zle_0_nat (String.length (join (String nl EmptyString) (q :: ps))));
          unfold len in *; lia).
    rewrite IH; [| discriminate |].
    + f_equal. now rewrite !append_assoc.
    + rewrite len_append. change (len (String nl p)) with (len (String nl EmptyString +:+ p)).
      rewrite len_append. change (len (String nl EmptyString)) with 1%Z. lia.
Qed.

Lemma rstrip_idem (s : string) : rstrip (rstrip s) = rstrip s.
Proof.
  induction s as [|c s IH]; [reflexivity |].
  rewrite rstrip_cons. destruct (rstrip s) as [|b r] eqn:Hr.
  - destruct (isspace c) eqn:Hc; [reflexivity |].
    rewrite rstrip_cons. cbn [rstrip]. now rewrite Hc.
  - rewrite rstrip_cons, IH. reflexivity.
Qed.

Lemma rstrip_keeps_start (s : string) :
  lstrip s = s -> lstrip (rstrip s) = rstrip s.
Proof.
  destruct s as [|c s]; [reflexivity |]. intros H.
  assert (Hc : isspace c = false).
  { cbn [lstrip] in H. destruct (isspace c) eqn:Hc; [| reflexivity].
    pose proof (lstrip_length s) as Hlen. rewrite H in Hlen. simpl in Hlen. lia. }
  rewrite rstrip_cons. destruct (rstrip s); rewrite ?Hc; cbn [lstrip]; now rewrite Hc.
Qed.

Lemma lstrip_idem (s : string) : lstrip (lstrip s) = lstrip s.
Proof.
  induction s as [|c s IH]; [reflexivity |].
  cbn [lstrip]. destruct (isspace c) eqn:Hc; [exact IH |].
  cbn [lstrip]. now rewrite Hc.
Qed.

Lemma strip_idem (s : string) : strip (strip s) = strip s.
Proof.
  unfold strip. rewrite (rstrip_keeps_start (lstrip s) (lstrip_idem s)).
  apply rstrip_idem.
Qed.

Lemma fold_trimmed (max_chars : Z) (ps : list string) :
  forall chunks cur,
    Forall (fun chunk => strip chunk = chunk) chunks ->
    (chunks <> [] \/ nonempty cur = true) ->
    let st := fold_left (split_step max_chars) ps (chunks, cur) in
    Forall (fun chunk => strip chunk = chunk) (fst st) /\
    (fst st <> [] \/ nonempty (snd st) = true).
Proof.
  induction ps as [|p ps IH]; intros chunks cur Hall Hne; [now split |].
  rewrite fold_left_cons, split_step_pair.
  destruct (len cur + len p + 1 >? max_chars)%Z.
  - apply IH.
    + apply Forall_app. split; [exact Hall |].
      constructor; [apply strip_idem | constructor].
    + left. now destruct chunks.
  - apply IH; [exact Hall |]. right. now destruct cur.
Qed.

End ChunkerMore.

(** X3. A text that fits, newline in front included, comes back as one
    chunk: the text trimmed. *)
Theorem split_short_text (content : string) (max_chars : Z) :
  (Py.len content + 1 <= max_chars)%Z ->
  Scraper.split_dom_content content max_chars = [Py.strip content].
Proof.
  intros Hlen. unfold Scraper.split_dom_content.
  rewrite (fold_without_closing max_chars (Py.split Py.nl content) [] EmptyString).
  - rewrite join_split. reflexivity.
  - apply split_not_nil.
  - rewrite join_split. change (Py.len EmptyString) with 0%Z. lia.
Qed.

(** The statement at a two-line text and the default limit. *)
Lemma split_short_text_witness :
  Scraper.split_dom_content (" ab" +:+ String Py.nl "c ") Scraper.default_max_chars
  = ["ab" +:+ String Py.nl "c"].
Proof.
  refine (split_short_text (" ab" +:+ String Py.nl "c ") Scraper.default_max_chars _).
  vm_compute. discriminate.
Defined.

(** X4. [split_dom_content] never returns the empty list, and every chunk
    it returns is trimmed: trimming it again changes nothing. *)
Theorem chunks_trimmed_and_present (content : string) (max_chars : Z) :
  Scraper.split_dom_content content max_chars <> [] /\
  Forall (fun chunk => Py.strip chunk = chunk)
         (Scraper.split_dom_content content max_chars).
Proof.
  unfold Scraper.split_dom_content.
  pose proof (split_not_nil Py.nl content) as Hne.
  destruct (Py.split Py.nl content) as [|p ps]; [congruence |].
  cbn [fold_left].
  assert (Hfirst :
    Forall (fun chunk => Py.strip chunk = chunk)
           (fst (Scraper.split_step max_chars ([], EmptyString) p)) /\
    (fst (Scraper.split_step max_chars ([], EmptyString) p) <> [] \/
     Py.nonempty (snd (Scraper.split_step max_chars ([], EmptyString) p)) = true)).
  { unfold Scraper.split_step.
    destruct (Py.len EmptyString + Py.len p + 1 >? max_chars)%Z; cbn.
    - split; [repeat constructor | left; discriminate].
    - split; [constructor | right; reflexivity]. }
  destruct (Scraper.split_step max_chars ([], EmptyString) p) as [chunks1 cur1].
  destruct Hfirst as [Hall1 Hne1].
  pose proof (fold_trimmed max_chars ps chunks1 cur1 Hall1 Hne1) as [Hall Hlast].
  destruct (fold_left (Scraper.split_step max_chars) ps (chunks1, cur1))
    as [chunks cur]. cbn in Hall, Hlast.
  destruct (Py.nonempty cur) eqn:Hcur.
  - split; [now destruct chunks |].
    apply Forall_app. split; [exact Hall |].
    constructor; [apply strip_idem | constructor].
  - split; [| exact Hall]. destruct Hlast; [assumption | congruence].
Qed.

(** ** The two sanitizers *)

Section SanitizersMore.
Import Py Json Sys SanitizerSpec.

Lemma prefix_append_self (pat rest : string) :
  String.prefix pat (pat +:+ rest) = true.
Proof.
  induction pat as [|p pat IH]; [now destruct rest |].
  simpl. destruct (ascii_dec p p); [exact IH | congruence].
Qed.

Lemma replace_skip (pat rep t rest : string) :
  replace_from pat rep (String.length t) (t +:+ rest) = replace_from pat rep O rest.
Proof.
  induction t as [|a t IH]; [reflexivity |].
  change (String a t +:+ rest) with (String a (t +:+ rest)).
  now rewrite replace_from_cons.
Qed.

(** An occurrence at the very start is replaced, and the search goes on
    behind it. *)
Lemma replace_leading (p0 : ascii) (pat' rep rest : string) :
  replace (String p0 pat') rep (String p0 pat' +:+ rest)
  = rep +:+ replace (String p0 pat') rep rest.
Proof.
  unfold replace.
  change (String p0 pat' +:+ rest) with (String p0 (pat' +:+ rest)).
  rewrite replace_from_cons.
  change (String p0 (pat' +:+ rest)) with (String p0 pat' +:+ rest).
  rewrite prefix_append_self.
  replace (String.length (String p0 pat') - 1)%nat with (String.length pat')
    by (simpl; lia).
  now rewrite replace_skip.
Qed.

(** A text without the pattern's first character is left as it is. *)
Lemma remove_absent (p0 : ascii) (pat' s : string) :
  find_char p0 s = None -> replace (String p0 pat') EmptyString s = s.
Proof.
  intros H. unfold replace.
  rewrite <- (append_empty_r s) at 1.
  rewrite remove_keeps_body by exact H. apply append_empty_r.
Qed.

Lemma cleaned_plain (s : string) : lacks "`" s -> cleaned s = strip s.
Proof.
  intros H. unfold cleaned, Matcher.fence, Matcher.fence_json.
  now rewrite (remove_absent "`" "``json" s H), (remove_absent "`" "``" s H).
Qed.

Lemma cleaned_fenced (s : string) :
  lacks "`" s -> cleaned (Matcher.fence_json +:+ s +:+ Matcher.fence) = strip s.
Proof.
  intros H. unfold cleaned, Matcher.fence, Matcher.fence_json.
  rewrite replace_leading. simpl append at 1.
  unfold replace at 2. rewrite remove_keeps_body by exact H.
  change (replace_from "```json" EmptyString 0 "```") with "```".
  unfold replace. rewrite remove_keeps_body by exact H.
  change (replace_from "```" EmptyString 0 "```") with EmptyString.
  now rewrite append_empty_r.
Qed.

Lemma praser_clean_unfold (text : string) :
  ResumePraser.clean_json_response text
  = let text' := replace "```" EmptyString (replace "```json" EmptyString text) in
    match find_char "{" text', rfind_char "}" text' with
    | Some start, Some last => strip_control (slice text' start (last + 1))
    | _, _ => text'
    end.
Proof.
  unfold ResumePraser.clean_json_response, ResumePraser.fence,
    ResumePraser.fence_json, index, rindex. cbv zeta.
  destruct (find_char "{" _); [| reflexivity].
  destruct (rfind_char "}" _); reflexivity.
Qed.

End SanitizersMore.

(** X5. [_clean_json_response] of fapp.py lets through only what
    [json.loads] itself raises: an exception that leaves it was raised by
    one of its two [json.loads] calls and is not a decode error. A missing
    brace and a decode error are caught, and a value it returns is the
    empty mapping or something [json.loads] read from a text. *)
Theorem sanitizer_raises_only_what_loads_raises (E : Sys.Env) (response : string) :
  match Matcher._clean_json_response E response with
  | Py.Ok v => v = Json.JObj ∅ \/ exists text, Sys.json_loads E text = Json.Parsed v
  | Py.Raise e =>
      (forall msg, e <> Py.JSONDecodeError msg) /\
      exists text, Sys.json_loads E text = Json.LoadsRaised e
  end.
Proof.
  rewrite clean_unfold.
  set (text := SanitizerSpec.cleaned response).
  assert (Hrepair :
    match
      Py.except_ValueError
        (let* start := Py.index "{" text in
         let* last := Py.rindex "}" text in
         Json.loads_result
           (Sys.json_loads E (Py.strip_control (Py.slice text start (last + 1)))))
        (fun _ => Py.Ok (Json.JObj ∅))
    with
    | Py.Ok v => v = Json.JObj ∅ \/ exists t, Sys.json_loads E t = Json.Parsed v
    | Py.Raise e =>
        (forall msg, e <> Py.JSONDecodeError msg) /\
        exists t, Sys.json_loads E t = Json.LoadsRaised e
    end).
  { unfold Py.index, Py.rindex.
    destruct (Py.find_char "{" text) as [start|]; cbn; [| now left].
    destruct (Py.rfind_char "}" text) as [last|]; cbn; [| now left].
    destruct (Sys.json_loads E (Py.strip_control (Py.slice text start (last + 1))))
      as [v|m|e] eqn:Hspan; cbn; [right; eauto | now left |].
    destruct e; cbn; try (now left); (split; [discriminate | eauto]). }
  destruct (Sys.json_loads E text) as [v|m|e] eqn:Hwhole; cbn;
    [right; eauto | exact Hrepair |].
  destruct e; cbn; try exact Hrepair; (split; [discriminate | eauto]).
Qed.

(** The statement at a run of 4301 digits, on which [json.loads] gives a
    plain [ValueError]. *)
Example sanitizer_raises_value_error :
  exists text, JsonText.loads text = Json.LoadsRaised Py.ValueError.
Proof. exists Demo.long_number. vm_compute. reflexivity. Qed.

(** X6. Wrapping a reply that has no backtick in a json code fence does not
    change what [_clean_json_response] returns. *)
Theorem sanitizer_ignores_fence (E : Sys.Env) (reply : string) :
  SanitizerSpec.lacks "`" reply ->
  Matcher._clean_json_response E (Matcher.fence_json +:+ reply +:+ Matcher.fence)
  = Matcher._clean_json_response E reply.
Proof.
  intros H. rewrite !clean_unfold.
  now rewrite (cleaned_fenced reply H), (cleaned_plain reply H).
Qed.

(** The statement at a fenced object on lines of its own. *)
Lemma sanitizer_ignores_fence_witness :
  Matcher._clean_json_response Demo.reader_env
    (Matcher.fence_json +:+ String Py.nl ("{" +:+ Demo.q +:+ "a" +:+ Demo.q +:+ ": 1}")
       +:+ Matcher.fence)
  = Py.Ok (Json.obj [("a", Json.JNum 1)]).
Proof.
  rewrite (sanitizer_ignores_fence Demo.reader_env
             (String Py.nl ("{" +:+ Demo.q +:+ "a" +:+ Demo.q +:+ ": 1}")) eq_refl).
  vm_compute. reflexivity.
Defined.

(** X7. [clean_json_response] of resume_praser.py returns exactly the text
    of an embedded object, control characters removed, when no opening brace
    comes before it, no closing brace after it and it has no backtick. *)
Theorem praser_clean_extracts_object (pre body post : string) :
  SanitizerSpec.first_is "{" body = true ->
  SanitizerSpec.last_is "}" body = true ->
  SanitizerSpec.lacks "{" pre ->
  SanitizerSpec.lacks "}" post ->
  SanitizerSpec.lacks "`" body ->
  ResumePraser.clean_json_response (pre +:+ body +:+ post) = Py.strip_control body.
Proof.
  intros Hfirst Hlast Hpre Hpost Htick.
  rewrite praser_clean_unfold. cbv zeta.
  destruct (first_is_inv _ _ Hfirst) as (mid & ->).
  rewrite (remove_around_body "`" "{" "``json" pre mid post eq_refl Htick).
  rewrite (remove_around_body "`" "{" "``" _ mid _ eq_refl Htick).
  set (pre2 := Py.replace "```" EmptyString (Py.replace "```json" EmptyString pre)).
  set (post2 := Py.replace "```" EmptyString (Py.replace "```json" EmptyString post)).
  assert (Hpre2 : Py.find_char "{" pre2 = None) by now apply remove_lacks, remove_lacks.
  assert (Hpost2 : Py.find_char "}" post2 = None) by now apply remove_lacks, remove_lacks.
  destruct (last_is_inv _ _ Hlast) as (b0 & Hb0).
  assert (Hstart : Py.find_char "{" (pre2 +:+ String "{" mid +:+ post2)
                   = Some (String.length pre2)).
  { change (String "{" mid +:+ post2) with (String "{" (mid +:+ post2)).
    now apply find_char_first. }
  assert (Hend : Py.rfind_char "}" (pre2 +:+ String "{" mid +:+ post2)
                 = Some (String.length pre2 + String.length b0)%nat).
  { rewrite Hb0, append_assoc. simpl append.
    rewrite <- append_assoc, rfind_char_last by exact Hpost2.
    now rewrite length_append. }
  rewrite Hstart, Hend.
  replace (String.length pre2 + String.length b0 + 1)%nat
    with (String.length pre2 + String.length (String "{" mid))%nat
    by (rewrite Hb0, length_append; simpl; lia).
  now rewrite slice_middle.
Qed.

(** The statement at a fenced profile with a line break inside it. *)
Lemma praser_clean_extracts_object_witness :
  ResumePraser.clean_json_response
    ("```json" +:+ String Py.nl
       ("{" +:+ String Py.nl (Demo.q +:+ "Full Name" +:+ Demo.q +:+ ": 1}"))
       +:+ String Py.nl "```")
  = "{" +:+ Demo.q +:+ "Full Name" +:+ Demo.q +:+ ": 1}".
Proof.
  refine (praser_clean_extracts_object ("```json" +:+ String Py.nl EmptyString)
            ("{" +:+ String Py.nl (Demo.q +:+ "Full Name" +:+ Demo.q +:+ ": 1}"))
            (String Py.nl "```") _ _ _ _ _); reflexivity.
Defined.

(** X8. On a text with no opening brace or no closing brace
    [clean_json_response] of resume_praser.py returns the text with the
    fence markers removed and nothing else changed (it is not trimmed and
    control characters stay). *)
Theorem praser_clean_without_braces (text : string) :
  SanitizerSpec.lacks "{" text \/ SanitizerSpec.lacks "}" text ->
  ResumePraser.clean_json_response text
  = Py.replace "```" EmptyString (Py.replace "```json" EmptyString text).
Proof.
  intros H. rewrite praser_clean_unfold. cbv zeta.
  destruct H as [H | H];
    apply (remove_lacks _ "```json"), (remove_lacks _ "```") in H.
  - unfold SanitizerSpec.lacks in H. now rewrite H.
  - apply rfind_none_iff in H. rewrite H.
    now destruct (Py.find_char "{" _).
Qed.

(** The statement at a fenced apology. *)
Lemma praser_clean_without_braces_witness :
  ResumePraser.clean_json_response ("```" +:+ String Py.nl " sorry " +:+ "```")
  = String Py.nl " sorry ".
Proof.
  exact (praser_clean_without_braces ("```" +:+ String Py.nl " sorry " +:+ "```")
           (or_introl eq_refl)).
Defined.

(** ** What each stage leaves alone *)

Section Keeps.
Import Py Json Sys CoverSpec.
Variable R : World -> World -> Prop.
Hypothesis R_refl : forall w, R w w.
Hypothesis R_trans : forall w1 w2 w3, R w1 w2 -> R w2 w3 -> R w1 w3.

Lemma keeps_ret {A} (a : A) : keeps R (ret a).
Proof. intros w r w' H. injection H as _ <-. apply R_refl. Qed.

Lemma keeps_lift {A} (r : result A) : keeps R (lift r).
Proof. intros w r' w' H. injection H as _ <-. apply R_refl. Qed.

Lemma keeps_bind {A B} (m : M A) (k : A -> M B) :
  keeps R m -> (forall a, keeps R (k a)) -> keeps R (mbind m k).
Proof.
  intros Hm Hk w r w' H. unfold mbind in H.
  destruct (m w) as [[a|e] w1] eqn:Hmw.
  - exact (R_trans _ _ _ (Hm _ _ _ Hmw) (Hk a _ _ _ H)).
  - injection H as _ <-. exact (Hm _ _ _ Hmw).
Qed.

Lemma keeps_try {A} (m : M A) (h : exn -> M A) :
  keeps R m -> (forall e, keeps R (h e)) -> keeps R (try_except m h).
Proof.
  intros Hm Hh w r w' H. unfold try_except in H.
  destruct (m w) as [[a|e] w1] eqn:Hmw.
  - injection H as _ <-. exact (Hm _ _ _ Hmw).
  - exact (R_trans _ _ _ (Hm _ _ _ Hmw) (Hh e _ _ _ H)).
Qed.

End Keeps.

Section Stages.
Import Py Json Sys CoverSpec.
Variable E : Env.

Lemma same_llm_refl (w : World) : same_llm w w.
Proof. reflexivity. Qed.

Lemma same_llm_trans (w1 w2 w3 : World) :
  same_llm w1 w2 -> same_llm w2 w3 -> same_llm w1 w3.
Proof. unfold same_llm. congruence. Qed.

Lemma same_resume_refl (w : World) : same_resume_state w w.
Proof. split; reflexivity. Qed.

Lemma same_resume_trans (w1 w2 w3 : World) :
  same_resume_state w1 w2 -> same_resume_state w2 w3 -> same_resume_state w1 w3.
Proof. unfold same_resume_state. intros [] []. split; congruence. Qed.

(** A primitive step changes only its own fields of the state. *)
Ltac step_keeps H :=
  repeat match type of H with
         | context [match ?x with _ => _ end] => destruct x
         end;
  injection H as _ <-; repeat split.

(** The resume parser does not invoke the matching model. *)
Lemma parse_keeps_llm (file_object : string) :
  keeps same_llm (ResumeProcessor.parse_resume_from_file E file_object).
Proof.
  assert (Hsave : keeps same_llm (ResumeProcessor.save_file E file_object)).
  { intros w r w' H. unfold ResumeProcessor.save_file in H. step_keeps H. }
  assert (Htext : forall path, keeps same_llm (ResumeProcessor.extract_text_from_pdf E path)).
  { intros path w r w' H. unfold ResumeProcessor.extract_text_from_pdf in H. step_keeps H. }
  assert (Hats : forall text, keeps same_llm (ResumePraser.ats_extractor E text)).
  { intros text w r w' H. unfold ResumePraser.ats_extractor in H. step_keeps H. }
  unfold ResumeProcessor.parse_resume_from_file.
  apply (keeps_bind _ same_llm_trans); [exact Hsave | intros [path|]];
    [| apply (keeps_ret _ same_llm_refl)].
  apply (keeps_bind _ same_llm_trans); [apply Htext | intros [[|c text]|]];
    try apply (keeps_ret _ same_llm_refl).
  apply (keeps_bind _ same_llm_trans); [apply Hats | intros prased_data].
  apply (keeps_bind _ same_llm_trans); [apply (keeps_lift _ same_llm_refl) | intros [|]].
  - apply (keeps_bind _ same_llm_trans); [apply (keeps_lift _ same_llm_refl) |].
    intros; apply (keeps_ret _ same_llm_refl).
  - apply (keeps_ret _ same_llm_refl).
Qed.

(** Scraping does not touch the resume. *)
Lemma scrape_keeps_resume (job_sites : list string) :
  forall job_listings,
    keeps same_resume_state (Matcher.scrape_sites E job_sites job_listings).
Proof.
  assert (Hsite : forall url, keeps same_resume_state (Scraper.scrape_website E url)).
  { intros url w r w' H.
    destruct (scrape_cases E url w)
      as [(html & _ & _ & _ & _ & Heq) | [(e & _ & Heq) | Heq]];
      rewrite Heq in H; injection H as _ <-; split; reflexivity. }
  assert (Hjob : forall content,
             keeps same_resume_state (Matcher._extract_job_details E content)).
  { intros content w r w' H.
    unfold Matcher._extract_job_details, try_except, mbind, Matcher.invoke, lift, ret in H.
    destruct (ollama E (llm_calls w) (JobExtractPrompt content)) as [reply|e];
      [destruct (Matcher._clean_json_response E reply) |];
      injection H as _ <-; split; reflexivity. }
  assert (Hall : forall cs js, keeps same_resume_state (Matcher.extract_all E cs js)).
  { induction cs as [|c cs IH]; intros js; cbn [Matcher.extract_all];
      [apply (keeps_ret _ same_resume_refl) |].
    apply (keeps_bind _ same_resume_trans); [apply Hjob | intros j].
    destruct (truthy j); apply IH. }
  induction job_sites as [|site rest IH]; intros job_listings;
    cbn [Matcher.scrape_sites]; [apply (keeps_ret _ same_resume_refl) |].
  apply (keeps_bind _ same_resume_trans); [apply Hsite | intros html].
  destruct (nonempty html); [| apply IH].
  apply (keeps_bind _ same_resume_trans); [apply Hall | intros; apply IH].
Qed.

Lemma pages_text_append (l1 l2 : list (result (option string))) :
  ResumeProcessor.pages_text (l1 ++ l2)
  = ResumeProcessor.pages_text l1 +:+ ResumeProcessor.pages_text l2.
Proof.
  induction l1 as [|p l1 IH]; [reflexivity |].
  cbn [app ResumeProcessor.pages_text]. now rewrite IH, append_assoc.
Qed.

Lemma pages_text_empty (pages : list (result (option string))) :
  Forall no_text pages -> ResumeProcessor.pages_text pages = EmptyString.
Proof.
  induction pages as [|p pages IH]; intros H; [reflexivity |].
  cbn [ResumeProcessor.pages_text].
  rewrite (Forall_inv H : ResumeProcessor.page_text p = EmptyString).
  now rewrite IH by exact (Forall_inv_tail H).
Qed.

Lemma error_mapping_has_error (msg : string) (raw : json) :
  contains "error" (ResumePraser.error_mapping msg raw) = Ok true /\
  subscript_str (ResumePraser.error_mapping msg raw) "error" = Ok (JStr msg).
Proof.
  unfold ResumePraser.error_mapping, obj, contains, subscript_str.
  cbn [list_to_map foldr uncurry fst snd]. now rewrite lookup_insert_eq.
Qed.

End Stages.

(** ** resume_processor.py and resume_praser.py *)

(** X9. [extract_text_from_pdf] tolerates a page that gives no text (its
    [extract_text()] raises, or returns [None] or the empty string): the
    text is that of the pages before it followed by that of the pages after
    it. *)
Theorem extract_text_skips_silent_page
    (E : Sys.Env) (file_path bytes : string) (w : Sys.World)
    (before after : list (Py.result (option string))) (p : Py.result (option string)) :
  Sys.data_file w = Some bytes ->
  Sys.pdf_reader E bytes = Py.Ok (before ++ p :: after)%list ->
  CoverSpec.no_text p ->
  ResumeProcessor.extract_text_from_pdf E file_path w
  = (Py.Ok (Some (ResumeProcessor.pages_text before +:+ ResumeProcessor.pages_text after)),
     w).
Proof.
  intros Hfile Hpages Hp. unfold ResumeProcessor.extract_text_from_pdf.
  rewrite Hfile, Hpages, pages_text_append.
  cbn [ResumeProcessor.pages_text]. unfold CoverSpec.no_text in Hp. now rewrite Hp.
Qed.

(** The statement at a three-page file whose middle page raises. *)
Lemma extract_text_skips_silent_page_witness :
  ResumeProcessor.extract_text_from_pdf Scenes.torn_pdf_env
    ResumeProcessor.data_path (Sys.set_data_file (Some Demo.pdf_bytes) Demo.world0)
  = (Py.Ok (Some "Jane Doe"), Sys.set_data_file (Some Demo.pdf_bytes) Demo.world0).
Proof.
  exact (extract_text_skips_silent_page Scenes.torn_pdf_env
           ResumeProcessor.data_path Demo.pdf_bytes
           (Sys.set_data_file (Some Demo.pdf_bytes) Demo.world0)
           [Py.Ok (Some "Jane ")] [Py.Ok (Some "Doe")]
           (Py.Raise (Py.External "bad page")) eq_refl eq_refl eq_refl).
Defined.

(** X10. When the uploaded bytes are saved but the PDF reader fails or no
    page gives any text, [parse_resume_from_file] returns the mapping with
    the error [Failed to extract text from PDF], and the Gemini model is not
    asked: only the data file changes. *)
Theorem parse_without_text_skips_model
    (E : Sys.Env) (file_object : string) (w : Sys.World) :
  Sys.write_data_file E file_object = Py.Ok () ->
  ((exists e, Sys.pdf_reader E file_object = Py.Raise e) \/
   (exists pages, Sys.pdf_reader E file_object = Py.Ok pages /\
                  Forall CoverSpec.no_text pages)) ->
  ResumeProcessor.parse_resume_from_file E file_object w
  = (Py.Ok (Json.obj [("error", Json.JStr "Failed to extract text from PDF")]),
     Sys.set_data_file (Some file_object) w).
Proof.
  intros Hsave Hread.
  unfold ResumeProcessor.parse_resume_from_file, Sys.mbind, ResumeProcessor.save_file,
    ResumeProcessor.extract_text_from_pdf.
  rewrite Hsave. cbn [Sys.data_file Sys.set_data_file].
  destruct Hread as [(e & ->) | (pages & -> & Hpages)]; [reflexivity |].
  now rewrite (pages_text_empty pages Hpages).
Qed.

(** The statement at a scanned PDF: two pages, neither with text. *)
Lemma parse_without_text_skips_model_witness :
  Sys.gemini_calls
    (snd (ResumeProcessor.parse_resume_from_file Scenes.scanned_pdf_env
            Demo.pdf_bytes Demo.world0))
  = 0%nat.
Proof.
  rewrite (parse_without_text_skips_model Scenes.scanned_pdf_env
             Demo.pdf_bytes Demo.world0 eq_refl).
  - reflexivity.
  - right. eexists. split; [reflexivity |]. repeat constructor.
Defined.

(** X11. When the PDF gives text and the Gemini model fails on it (the call
    raises, or the reply, once cleaned, is not JSON), [parse_resume_from_file]
    returns a mapping with an [error] key after exactly one call of the
    model; for an unparseable reply the mapping keeps the raw reply. *)
Theorem parse_reports_model_failure
    (E : Sys.Env) (file_object : string) (w : Sys.World)
    (pages : list (Py.result (option string))) :
  Sys.write_data_file E file_object = Py.Ok () ->
  Sys.pdf_reader E file_object = Py.Ok pages ->
  Py.nonempty (ResumeProcessor.pages_text pages) = true ->
  let text := ResumeProcessor.pages_text pages in
  let w' := Sys.set_gemini_calls (S (Sys.gemini_calls w))
              (Sys.set_data_file (Some file_object) w) in
  (forall e,
     Sys.gemini E (Sys.gemini_calls w) text = Py.Raise e ->
     ResumeProcessor.parse_resume_from_file E file_object w
     = (Py.Ok (ResumePraser.error_mapping (Sys.exn_str E e) Json.JNull), w')) /\
  (forall reply msg,
     Sys.gemini E (Sys.gemini_calls w) text = Py.Ok (Py.Ok reply) ->
     Sys.json_loads E (ResumePraser.clean_json_response reply) = Json.DecodeError msg ->
     ResumeProcessor.parse_resume_from_file E file_object w
     = (Py.Ok (ResumePraser.error_mapping (Sys.exn_str E (Py.JSONDecodeError msg))
                 (Json.JStr reply)), w')).
Proof.
  intros Hsave Hread. cbv zeta.
  unfold ResumeProcessor.parse_resume_from_file, ResumeProcessor.save_file,
    ResumeProcessor.extract_text_from_pdf, ResumePraser.ats_extractor, Sys.mbind, Sys.lift.
  rewrite Hsave. cbn [Sys.data_file Sys.set_data_file Sys.gemini_calls]. rewrite Hread.
  generalize (ResumeProcessor.pages_text pages). intros [|c rest] Htext; [discriminate |].
  change (Sys.gemini_calls (Sys.set_data_file (Some file_object) w))
    with (Sys.gemini_calls w).
  split.
  - intros e He. rewrite He.
    destruct (error_mapping_has_error (Sys.exn_str E e) Json.JNull) as [Hc Hs].
    rewrite Hc, Hs. reflexivity.
  - intros reply msg Hr Hl. rewrite Hr, Hl. cbn [Json.loads_result].
    destruct (error_mapping_has_error (Sys.exn_str E (Py.JSONDecodeError msg))
                (Json.JStr reply)) as [Hc Hs].
    rewrite Hc, Hs. reflexivity.
Qed.

(** The statement where the resume model answers in prose: the reply comes
    back under [raw_response]. *)
Lemma parse_reports_model_failure_witness :
  exists msg w',
    ResumeProcessor.parse_resume_from_file Scenes.prose_gemini_env
      Demo.pdf_bytes Demo.world0
    = (Py.Ok (ResumePraser.error_mapping msg (Json.JStr "I cannot read this resume.")), w')
    /\ Sys.gemini_calls w' = 1%nat.
Proof.
  destruct (parse_reports_model_failure Scenes.prose_gemini_env Demo.pdf_bytes
              Demo.world0 [Py.Ok (Some "Jane Doe, engineer")]
              eq_refl eq_refl eq_refl) as [_ H].
  eexists. eexists. split.
  - apply (H "I cannot read this resume."); [reflexivity |]. vm_compute. reflexivity.
  - reflexivity.
Defined.

(** ** The matching step *)

Section MatchingMore.
Import Py Json Sys MatchSpec CoverSpec.
Variable E : Env.

Lemma in_entries_from (resume_data : json) (jobs : list json) :
  forall n x,
    In x (entries_from E resume_data n jobs) ->
    exists job m, In job jobs /\ x = entry_for E resume_data m job.
Proof.
  induction jobs as [|job jobs IH]; intros n x H; cbn [entries_from] in H; [destruct H |].
  destruct H as [<- | H].
  - exists job, n. split; [now left | reflexivity].
  - destruct (IH _ _ H) as (job' & m & Hin & ->). exists job', m. split; [now right | reflexivity].
Qed.

Lemma entries_from_app (resume_data : json) (before after : list json) :
  forall n,
    entries_from E resume_data n (before ++ after)
    = (entries_from E resume_data n before
         ++ entries_from E resume_data (n + List.length before) after)%list.
Proof.
  induction before as [|job before IH]; intros n; cbn [app entries_from List.length].
  - now rewrite Nat.add_0_r.
  - rewrite IH. do 3 f_equal. lia.
Qed.

Lemma entry_same_fields (resume_data : json) (n : nat) (job : json) :
  is_mapping job -> same_fields job (entry_for E resume_data n job).
Proof.
  intros [fields ->] key Hkey. cbn [entry_for get].
  rewrite lookup_insert_ne by congruence. reflexivity.
Qed.

Lemma entry_contains_details (resume_data : json) (n : nat) (job : json) :
  is_mapping job -> contains "match_details" (entry_for E resume_data n job) = Ok true.
Proof. intros [fields ->]. cbn [entry_for contains]. now rewrite lookup_insert_eq. Qed.

(** The state and the unsorted entries of a run whose resume parses. *)
Lemma match_resume_run (resume_file : string) (jobs : list json) (w w1 : World)
    (resume_data : json) :
  ResumeProcessor.parse_resume_from_file E resume_file w = (Ok resume_data, w1) ->
  contains "error" resume_data = Ok false ->
  Forall is_mapping jobs ->
  Matcher.match_resume_to_jobs E resume_file jobs w
  = (Matcher.sort_by_score E (entries_from E resume_data (llm_calls w1) jobs),
     set_llm_calls (llm_calls w1 + List.length jobs) w1).
Proof.
  intros Hparse Herr Hjobs.
  unfold Matcher.match_resume_to_jobs, mbind, lift. rewrite Hparse, Herr.
  now rewrite match_loop_mappings.
Qed.

Lemma score_key_raises (x : json) (e : exn) :
  Matcher.score_key x = Raise e -> e = AttributeError.
Proof.
  unfold Matcher.score_key. destruct x; cbn [get bind]; try congruence.
  destruct (match fields !! "match_details" with Some v => v | None => JObj ∅ end);
    cbn [get]; congruence.
Qed.

Lemma keys_of_attribute_error (l : list json) :
  Exists (fun x => Matcher.score_key x = Raise AttributeError) l ->
  Matcher.keys_of l = Raise AttributeError.
Proof.
  induction l as [|x l IH]; intros H; [now apply Exists_nil in H |].
  cbn [Matcher.keys_of]. destruct (Matcher.score_key x) as [k|e] eqn:Hk; cbn [bind].
  - apply Exists_cons in H as [H | H]; [congruence |]. now rewrite (IH H).
  - now rewrite (score_key_raises x e Hk).
Qed.

Lemma sort_desc_sorted (l : list (json * json)) :
  Forall int_keyed l -> StronglySorted key_ge l -> Matcher.sort_desc E l = Ok l.
Proof.
  induction l as [|kx rest IH]; intros Hk Hs; [reflexivity |].
  apply StronglySorted_inv in Hs as [Hs Hall]. cbn [Matcher.sort_desc].
  rewrite (IH (Forall_inv_tail Hk) Hs). cbn [bind].
  destruct rest as [|ky rest]; [reflexivity |]. cbn [Matcher.insert_desc].
  destruct (Forall_inv Hk) as [zx Hx].
  destruct (Forall_inv (Forall_inv_tail Hk)) as [zy Hy].
  rewrite (lt_ints E _ _ zx zy Hx Hy). cbn [bind].
  assert (Hge : key_ge kx ky) by exact (Forall_inv Hall).
  unfold key_ge, zkey in Hge. rewrite Hx, Hy in Hge.
  destruct (Z.ltb_spec zx zy); [lia | reflexivity].
Qed.

Lemma keyed_sorted (keyed : list (json * json)) :
  Forall (fun kx => as_int (fst kx) = Some (score (snd kx))) keyed ->
  descending (map snd keyed) -> StronglySorted key_ge keyed.
Proof.
  induction keyed as [|kx rest IH]; intros Hk Hs; [constructor |].
  cbn [map] in Hs. apply StronglySorted_inv in Hs as [Hs Hall]. constructor.
  - exact (IH (Forall_inv_tail Hk) Hs).
  - apply List.Forall_forall. intros ky Hin. unfold key_ge, zkey.
    rewrite (Forall_inv Hk).
    rewrite (proj1 (List.Forall_forall _ _) (Forall_inv_tail Hk) ky Hin).
    exact (proj1 (List.Forall_forall _ _) Hall (snd ky) (in_map snd _ _ Hin)).
Qed.

Lemma sort_by_score_sorted (l : list json) :
  Forall scored l -> descending l -> Matcher.sort_by_score E l = Ok l.
Proof.
  intros Hl Hs. destruct (keys_of_spec l Hl) as (keyed & Hkeys & Hsnd & Hk).
  unfold Matcher.sort_by_score. rewrite Hkeys. cbn [bind].
  rewrite sort_desc_sorted.
  - cbn [bind]. now rewrite Hsnd.
  - eapply List.Forall_impl; [| exact Hk]. intros kx H. now exists (score (snd kx)).
  - apply keyed_sorted; [exact Hk | now rewrite Hsnd].
Qed.

End MatchingMore.

(** X12. When the resume parse reports an error, neither variant of
    [match_resume_to_jobs] asks the matching model: both return the empty
    list in the state the parse left, whose count of matching-model calls is
    the one before the run. *)
Theorem failed_resume_costs_no_match_call
    (E : Sys.Env) (resume_file : string) (jobs : list Json.json) (w w' : Sys.World) :
  MatchSpec.resume_fails E resume_file w w' ->
  Matcher.match_resume_to_jobs E resume_file jobs w = (Py.Ok [], w') /\
  F.match_resume_to_jobs E resume_file jobs w = (Py.Ok [], w') /\
  Sys.llm_calls w' = Sys.llm_calls w.
Proof.
  intros Hfail. split; [exact (match_resume_fails E _ _ _ _ Hfail) |].
  destruct Hfail as (resume_data & Hparse & Herr). split.
  - unfold F.match_resume_to_jobs, Sys.mbind, Sys.lift. now rewrite Hparse, Herr.
  - exact (parse_keeps_llm E resume_file w _ w' Hparse).
Qed.

(** The statement at a PDF without text and the seven jobs. *)
Lemma failed_resume_costs_no_match_call_witness :
  F.match_resume_to_jobs Demo.blank_pdf_env Demo.pdf_bytes Demo.seven_jobs Demo.world0
  = (Py.Ok [], Sys.set_data_file (Some Demo.pdf_bytes) Demo.world0).
Proof.
  exact (proj1 (proj2 (failed_resume_costs_no_match_call Demo.blank_pdf_env
                         Demo.pdf_bytes Demo.seven_jobs Demo.world0 _
                         (blank_pdf_fails Demo.world0)))).
Defined.

(** X13. With a resume that parses and jobs that are mappings, the fapp.py
    [match_resume_to_jobs] asks the matching model exactly once per job,
    whatever the model answers, and a returned list has as many entries as
    there are jobs. *)
Theorem matching_asks_model_once_per_job
    (E : Sys.Env) (resume_file : string) (jobs : list Json.json) (w w1 : Sys.World)
    (resume_data : Json.json) :
  ResumeProcessor.parse_resume_from_file E resume_file w = (Py.Ok resume_data, w1) ->
  Json.contains "error" resume_data = Py.Ok false ->
  Forall Json.is_mapping jobs ->
  Sys.llm_calls (snd (Matcher.match_resume_to_jobs E resume_file jobs w))
  = (Sys.llm_calls w + List.length jobs)%nat /\
  forall out,
    fst (Matcher.match_resume_to_jobs E resume_file jobs w) = Py.Ok out ->
    List.length out = List.length jobs.
Proof.
  intros Hparse Herr Hjobs.
  rewrite (match_resume_run E _ _ _ _ _ Hparse Herr Hjobs). cbn [fst snd]. split.
  - cbn [Sys.llm_calls Sys.set_llm_calls].
    now rewrite (parse_keeps_llm E resume_file w _ w1 Hparse).
  - intros out Hout. apply (sort_by_score_perm E) in Hout.
    rewrite <- (Permutation_length Hout). apply entries_from_length.
Qed.

(** The statement at the seven jobs of the ranking scenario. *)
Lemma matching_asks_model_once_per_job_witness :
  Sys.llm_calls (snd (Matcher.match_resume_to_jobs Demo.ranking_env Demo.pdf_bytes
                        Demo.seven_jobs Demo.world0))
  = 7%nat.
Proof.
  refine (proj1 (matching_asks_model_once_per_job Demo.ranking_env Demo.pdf_bytes
                   Demo.seven_jobs Demo.world0 Demo.after_parse Demo.profile _ _ _)).
  - vm_compute. reflexivity.
  - vm_compute. reflexivity.
  - repeat constructor; eexists; reflexivity.
Defined.

(** X14. With a resume that parses and jobs that are mappings, every entry
    the fapp.py [match_resume_to_jobs] returns is one of the jobs with a
    [match_details] key set: it has that key, and every other key reads as
    it does in the job. *)
Theorem matched_entries_keep_job_fields
    (E : Sys.Env) (resume_file : string) (jobs : list Json.json) (w w1 : Sys.World)
    (resume_data : Json.json) :
  ResumeProcessor.parse_resume_from_file E resume_file w = (Py.Ok resume_data, w1) ->
  Json.contains "error" resume_data = Py.Ok false ->
  Forall Json.is_mapping jobs ->
  forall out,
    fst (Matcher.match_resume_to_jobs E resume_file jobs w) = Py.Ok out ->
    Forall (fun entry =>
              Json.contains "match_details" entry = Py.Ok true /\
              exists job, In job jobs /\ CoverSpec.same_fields job entry) out.
Proof.
  intros Hparse Herr Hjobs out Hout.
  rewrite (match_resume_run E _ _ _ _ _ Hparse Herr Hjobs) in Hout. cbn [fst] in Hout.
  apply (sort_by_score_perm E) in Hout.
  apply List.Forall_forall. intros entry Hin.
  apply (Permutation_in _ (Permutation_sym Hout)) in Hin.
  destruct (in_entries_from E _ _ _ _ Hin) as (job & m & Hjob & ->).
  assert (Hmap : Json.is_mapping job)
    by exact (proj1 (List.Forall_forall _ _) Hjobs job Hjob).
  split; [now apply entry_contains_details |].
  exists job. split; [exact Hjob | now apply entry_same_fields].
Qed.

(** The statement at the ranking scenario: the first entry returned has its
    [match_details]. *)
Lemma matched_entries_keep_job_fields_witness :
  exists first rest,
    fst (Matcher.match_resume_to_jobs Demo.ranking_env Demo.pdf_bytes
           Demo.seven_jobs Demo.world0) = Py.Ok (first :: rest) /\
    Json.contains "match_details" first = Py.Ok true.
Proof.
  eexists. eexists. split; [vm_compute; reflexivity |].
  refine (proj1 (Forall_inv (matched_entries_keep_job_fields Demo.ranking_env
                   Demo.pdf_bytes Demo.seven_jobs Demo.world0 Demo.after_parse
                   Demo.profile _ _ _ (_ :: _) _))).
  - vm_compute. reflexivity.
  - vm_compute. reflexivity.
  - repeat constructor; eexists; reflexivity.
  - vm_compute. reflexivity.
Defined.

(** X15. A reply of the matching model that the sanitizer reads as a truthy
    value other than a mapping (a number, a list, a string) is stored as the
    job's [match_details], and the sort key then raises: the fapp.py
    [match_resume_to_jobs] raises [AttributeError] for the whole batch,
    wherever that job stands in the list. *)
Theorem non_mapping_details_abort_batch
    (E : Sys.Env) (resume_file : string) (before after : list Json.json)
    (job : Json.json) (w w1 : Sys.World) (resume_data : Json.json)
    (reply : string) (v : Json.json) :
  ResumeProcessor.parse_resume_from_file E resume_file w = (Py.Ok resume_data, w1) ->
  Json.contains "error" resume_data = Py.Ok false ->
  Forall Json.is_mapping (before ++ job :: after)%list ->
  Sys.ollama E (Sys.llm_calls w1 + List.length before)
    (Sys.MatchingPrompt resume_data job) = Py.Ok reply ->
  Matcher._clean_json_response E reply = Py.Ok v ->
  Json.truthy v = true ->
  CoverSpec.not_mapping v ->
  fst (Matcher.match_resume_to_jobs E resume_file (before ++ job :: after)%list w)
  = Py.Raise Py.AttributeError.
Proof.
  intros Hparse Herr Hjobs Hreply Hclean Htruthy Hv.
  rewrite (match_resume_run E _ _ _ _ _ Hparse Herr Hjobs). cbn [fst].
  unfold Matcher.sort_by_score. rewrite keys_of_attribute_error; [reflexivity |].
  rewrite entries_from_app. apply Exists_app. right.
  cbn [MatchSpec.entries_from]. apply Exists_cons_hd.
  destruct (proj1 (List.Forall_forall _ _) Hjobs job) as [fields ->];
    [apply in_or_app; right; now left |].
  unfold Matcher.score_key. cbn [MatchSpec.entry_for Json.get Py.bind].
  rewrite lookup_insert_eq. unfold MatchSpec.details_for.
  rewrite Hreply, Hclean, Htruthy. now destruct v.
Qed.

(** The statement where the model answers 85 to every job. *)
Lemma non_mapping_details_abort_batch_witness :
  fst (Matcher.match_resume_to_jobs Scenes.bare_number_env Demo.pdf_bytes
         ([Demo.titled "J1"] ++ Demo.titled "J2" :: [Demo.titled "J3"])%list Demo.world0)
  = Py.Raise Py.AttributeError.
Proof.
  refine (non_mapping_details_abort_batch Scenes.bare_number_env Demo.pdf_bytes
            [Demo.titled "J1"] [Demo.titled "J3"] (Demo.titled "J2")
            Demo.world0 Demo.after_parse Demo.profile "85" (Json.JNum 85)
            _ _ _ eq_refl _ eq_refl I).
  - vm_compute. reflexivity.
  - vm_compute. reflexivity.
  - repeat constructor; eexists; reflexivity.
  - vm_compute. reflexivity.
Defined.

(** X16. On matched jobs whose scores are integers, the ranking leaves a
    list that is already in descending order as it is; so ranking a ranked
    list again changes nothing. *)
Theorem ranking_keeps_ranked_list (E : Sys.Env) (matched : list Json.json) :
  Forall MatchSpec.scored matched ->
  (MatchSpec.descending matched -> Matcher.sort_by_score E matched = Py.Ok matched) /\
  (forall out,
     Matcher.sort_by_score E matched = Py.Ok out ->
     Matcher.sort_by_score E out = Py.Ok out).
Proof.
  intros Hall. split; [now apply sort_by_score_sorted |].
  intros out Hout.
  destruct (sort_by_score_spec E matched Hall) as (out' & Hout' & Hperm & Hdesc & _).
  assert (out' = out) as -> by congruence.
  apply sort_by_score_sorted; [exact (Forall_perm _ _ _ Hperm Hall) | exact Hdesc].
Qed.

(** The statement at three ranked entries, two of them tied. *)
Lemma ranking_keeps_ranked_list_witness :
  Matcher.sort_by_score Demo.reader_env Scenes.ranked_jobs = Py.Ok Scenes.ranked_jobs.
Proof.
  refine (proj1 (ranking_keeps_ranked_list Demo.reader_env Scenes.ranked_jobs _) _).
  - apply forallb_scored. vm_compute. reflexivity.
  - repeat (constructor; [| repeat (constructor; [vm_compute; discriminate |]); constructor]).
    constructor.
Defined.

(** ** The filter and the file-name test *)

Section FilterMore.
Import Py Json Sys FilterSpec CoverSpec SanitizerSpec.
Variable E : Env.

Lemma lower_char_idem (c : ascii) : lower_char (lower_char c) = lower_char c.
Proof. destruct c as [[] [] [] [] [] [] [] []]; reflexivity. Qed.

Lemma lower_idem (s : string) : lower (lower s) = lower s.
Proof.
  induction s as [|c s IH]; [reflexivity |].
  cbn [lower]. now rewrite lower_char_idem, IH.
Qed.

Lemma filter_loop_app (location keyword : string) (before rest : list json) :
  forall filtered,
    Matcher.filter_loop E location keyword (before ++ rest) filtered
    = bind (Matcher.filter_loop E location keyword before filtered)
        (Matcher.filter_loop E location keyword rest).
Proof.
  induction before as [|job before IH]; intros filtered; [reflexivity |].
  cbn [app Matcher.filter_loop].
  destruct (Matcher.job_passes E location keyword job) as [keep|e]; cbn [bind];
    [apply IH | reflexivity].
Qed.

Lemma job_passes_not_mapping (location keyword : string) (job : json) :
  not_mapping job ->
  Matcher.job_passes E location keyword job = Raise AttributeError.
Proof. destruct job; cbn; tauto. Qed.

Lemma substring_from_start (s : string) (n : nat) :
  (String.length s <= n)%nat -> substring 0 n s = s.
Proof.
  revert n. induction s as [|c s IH]; intros [|n] H; cbn in *; try reflexivity; try lia.
  rewrite IH by lia. reflexivity.
Qed.

Lemma substring_after_char (c : ascii) (stem ext : string) (n : nat) :
  substring (S (String.length stem)) n (stem +:+ String c ext) = substring 0 n ext.
Proof. induction stem as [|a stem IH]; [now destruct ext | exact IH]. Qed.

End FilterMore.

(** X17. [filter_jobs] compares in lower case: lower-casing the location
    and the keyword before the call changes nothing, neither the jobs kept
    nor an exception raised. *)
Theorem filter_ignores_case_of_criteria
    (E : Sys.Env) (jobs : list Json.json) (location keyword : string) :
  Matcher.filter_jobs E jobs (Py.lower location) (Py.lower keyword)
  = Matcher.filter_jobs E jobs location keyword.
Proof. unfold Matcher.filter_jobs. now rewrite !lower_idem. Qed.

(** X18. A job that is not a mapping makes [filter_jobs] raise
    [AttributeError], wherever it stands after well-formed jobs, also when
    five jobs have been kept before it is reached: the loop reads every
    job and the cut to five comes last. *)
Theorem filter_raises_on_non_mapping_job
    (E : Sys.Env) (before after : list Json.json) (bad : Json.json)
    (location keyword : string) :
  Forall FilterSpec.job_listing before ->
  CoverSpec.not_mapping bad ->
  Matcher.filter_jobs E (before ++ bad :: after)%list location keyword
  = Py.Raise Py.AttributeError.
Proof.
  intros Hbefore Hbad. unfold Matcher.filter_jobs. rewrite filter_loop_app.
  destruct (filter_loop_total E (Py.lower location) (Py.lower keyword) before []
              Hbefore) as [out ->].
  cbn [Py.bind Matcher.filter_loop]. now rewrite job_passes_not_mapping.
Qed.

(** The statement where six jobs that pass come before a string. *)
Lemma filter_raises_on_non_mapping_job_witness :
  Matcher.filter_jobs Demo.reader_env
    (map Demo.titled ["J1"; "J2"; "J3"; "J4"; "J5"; "J6"] ++ Json.JStr "J7" :: [])%list
    EmptyString EmptyString
  = Py.Raise Py.AttributeError.
Proof.
  refine (filter_raises_on_non_mapping_job Demo.reader_env
            (map Demo.titled ["J1"; "J2"; "J3"; "J4"; "J5"; "J6"]) [] (Json.JStr "J7")
            EmptyString EmptyString _ I).
  repeat constructor; eexists; (split; [reflexivity | vm_compute; exact I]).
Defined.

(** X19. [allowed_file] reads the extension after the last dot, without
    regard to case: a name ending in a dot and a dot-free extension is
    accepted exactly when the lower-cased extension is one of the allowed
    ones, and a name without any dot is refused. *)
Theorem allowed_file_reads_last_extension (stem ext : string) :
  SanitizerSpec.lacks "." ext ->
  Fapp.allowed_file (stem +:+ String "." ext) = CoverSpec.allowed_ext ext /\
  Fapp.allowed_file ext = false.
Proof.
  intros Hext. unfold Fapp.allowed_file. split.
  - rewrite (rfind_char_last "." stem ext Hext), substring_after_char.
    rewrite substring_from_start; [reflexivity |].
    rewrite length_append. cbn [String.length]. lia.
  - now rewrite (proj2 (rfind_none_iff "." ext) Hext).
Qed.

(** The statement at [cv.final.PDF] and at [cv.pdf.exe]. *)
Lemma allowed_file_reads_last_extension_witness :
  Fapp.allowed_file "cv.final.PDF" = true /\ Fapp.allowed_file "cv.pdf.exe" = false.
Proof.
  split.
  - exact (proj1 (allowed_file_reads_last_extension "cv.final" "PDF" eq_refl)).
  - exact (proj1 (allowed_file_reads_last_extension "cv.pdf" "exe" eq_refl)).
Defined.

(** ** Scraping the job listings *)

Section ListingsMore.
Import Py Json Sys CoverSpec.
Variable E : Env.

Lemma extract_never_raises (content : string) (w : World) :
  exists job_listing w',
    Matcher._extract_job_details E content w = (Ok job_listing, w').
Proof.
  unfold Matcher._extract_job_details, try_except, mbind, Matcher.invoke, lift, ret.
  destruct (ollama E (llm_calls w) (JobExtractPrompt content)) as [reply|e]; [| eauto].
  destruct (Matcher._clean_json_response E reply); eauto.
Qed.

Lemma extract_all_truthy (split_contents : list string) :
  forall job_listings w,
    Forall (fun job => truthy job = true) job_listings ->
    exists out w',
      Matcher.extract_all E split_contents job_listings w = (Ok out, w') /\
      Forall (fun job => truthy job = true) out.
Proof.
  induction split_contents as [|content rest IH]; intros job_listings w Hacc;
    cbn [Matcher.extract_all]; [unfold ret; eauto |].
  unfold mbind. destruct (extract_never_raises content w) as (job & w1 & ->).
  destruct (truthy job) eqn:Hjob; apply IH; [| exact Hacc].
  apply Forall_app. split; [exact Hacc | now repeat constructor].
Qed.

Lemma scrape_sites_truthy (job_sites : list string) :
  forall job_listings w,
    Forall (fun job => truthy job = true) job_listings ->
    exists out w',
      Matcher.scrape_sites E job_sites job_listings w = (Ok out, w') /\
      Forall (fun job => truthy job = true) out.
Proof.
  induction job_sites as [|site rest IH]; intros job_listings w Hacc;
    cbn [Matcher.scrape_sites]; [unfold ret; eauto |].
  unfold mbind at 1. destruct (scrape_never_raises E site w) as (html & w1 & ->).
  destruct (nonempty html); [| now apply IH].
  unfold mbind at 1.
  destruct (extract_all_truthy
              (Scraper.split_dom_content (Scraper.clean_body_content E html)
                 Scraper.default_max_chars) job_listings w1 Hacc)
    as (out & w2 & -> & Hout).
  now apply IH.
Qed.

Lemma scrape_website_keeps_llm (url : string) :
  keeps same_llm (Scraper.scrape_website E url).
Proof.
  intros w r w' H.
  destruct (scrape_cases E url w)
    as [(html & _ & _ & _ & _ & Heq) | [(e & _ & Heq) | Heq]];
    rewrite Heq in H; injection H as _ <-; reflexivity.
Qed.

End ListingsMore.

(** X20. [scrape_job_listings] never raises, whatever the browser and the
    model do; every listing it returns is truthy (no [None], no empty
    mapping); and it leaves the resume side alone: the Gemini call count and
    the data file are as before. *)
Theorem scraped_listings_are_truthy
    (E : Sys.Env) (job_sites : list string) (w : Sys.World) :
  exists job_listings w',
    Matcher.scrape_job_listings E job_sites w = (Py.Ok job_listings, w') /\
    Forall (fun job => Json.truthy job = true) job_listings /\
    CoverSpec.same_resume_state w w'.
Proof.
  destruct (scrape_sites_truthy E job_sites [] w (List.Forall_nil _))
    as (out & w' & Hrun & Hout).
  exists out, w'. split; [exact Hrun |]. split; [exact Hout |].
  exact (scrape_keeps_resume E job_sites [] w _ w' Hrun).
Qed.

(** X21. A site whose scrape comes back empty gives no listing and costs no
    call of the extraction model. *)
Theorem empty_page_gives_no_listing
    (E : Sys.Env) (url : string) (w w1 : Sys.World) :
  Scraper.scrape_website E url w = (Py.Ok EmptyString, w1) ->
  Matcher.scrape_job_listings E [url] w = (Py.Ok [], w1) /\
  Sys.llm_calls w1 = Sys.llm_calls w.
Proof.
  intros Hrun. split.
  - unfold Matcher.scrape_job_listings. cbn [Matcher.scrape_sites].
    unfold Sys.mbind. now rewrite Hrun.
  - exact (scrape_website_keeps_llm E url w _ w1 Hrun).
Qed.

(** The statement at a page the browser cannot reach. *)
Lemma empty_page_gives_no_listing_witness :
  fst (Matcher.scrape_job_listings Demo.unreachable_env ["https://example.org"]
         Demo.world0)
  = Py.Ok [].
Proof.
  refine (f_equal fst (proj1 (empty_page_gives_no_listing Demo.unreachable_env
            "https://example.org" Demo.world0 _ _))).
  vm_compute. reflexivity.
Defined.

(** ** The upload view *)

Section UploadMore.
Import Py Json Sys MatchSpec AppSpec CoverSpec.
Variable E : Env.

Lemma preserves_match_one (resume_data job : json) :
  preserves (Matcher.match_one E resume_data job).
Proof.
  unfold Matcher.match_one. apply preserves_try; [| intros e; apply preserves_lift].
  apply preserves_bind; [apply preserves_lift | intros _title].
  apply preserves_bind; [apply preserves_invoke | intros match_result].
  apply preserves_bind; [apply preserves_lift | intros match_data].
  apply preserves_lift.
Qed.

Lemma preserves_match_loop (resume_data : json) (jobs : list json) :
  forall matched_jobs, preserves (Matcher.match_loop E resume_data jobs matched_jobs).
Proof.
  induction jobs as [|job jobs IH]; intros matched_jobs; cbn [Matcher.match_loop];
    [apply preserves_ret |].
  apply preserves_bind; [apply preserves_match_one | intros entry; apply IH].
Qed.

Lemma preserves_match_resume (resume_file : string) (jobs : list json) :
  preserves (Matcher.match_resume_to_jobs E resume_file jobs).
Proof.
  unfold Matcher.match_resume_to_jobs.
  apply preserves_bind; [apply preserves_parse_resume | intros resume_data].
  apply preserves_bind; [apply preserves_lift | intros [|]]; [apply preserves_ret |].
  apply preserves_bind; [apply preserves_match_loop | intros; apply preserves_lift].
Qed.

Lemma on_error_run (filepath bytes : string) (e : exn) (w : World) :
  upload_dir w !! filepath = Some bytes ->
  Fapp.on_error filepath e w
  = (Ok (Fapp.Redirect "upload"),
     set_upload_dir (delete filepath (upload_dir w))
       (set_flashed (flashed w ++ [FlashExn "Error processing resume: " e "error"])%list
          w)).
Proof.
  intros H. unfold Fapp.on_error, mbind, do_flash, modify, gets, os_remove, ret.
  cbn [upload_dir set_flashed]. rewrite H. cbn [upload_dir set_flashed].
  now rewrite H.
Qed.

Lemma firstn_5_bounds (l : list json) :
  l <> [] -> firstn 5 l <> [] /\ (List.length (firstn 5 l) <= 5)%nat.
Proof.
  intros H. split; [destruct l; [congruence | discriminate] |].
  rewrite length_firstn. lia.
Qed.

(** What the [try] block of [upload] comes to when the uploaded file is in
    the upload folder: the results with a written result file, the upload
    page with the message that no job matched, or an exception that leaves
    folder, messages and result file as they were. *)
Lemma process_outcomes (filepath location job_preference bytes : string) (w0 : World) :
  upload_dir w0 !! filepath = Some bytes ->
  exists r w',
    Fapp.process E filepath location job_preference w0 = (r, w') /\
    ((r = Ok (Fapp.Redirect "results") /\
      upload_dir w' = delete filepath (upload_dir w0) /\
      flashed w' = (flashed w0 ++ [Fapp.flash_success])%list /\
      exists top, result_file w' = Some top /\ top <> [] /\ (List.length top <= 5)%nat) \/
     (r = Ok (Fapp.Redirect "upload") /\
      upload_dir w' = delete filepath (upload_dir w0) /\
      flashed w' = (flashed w0 ++ [Flash "No jobs matched your criteria." "error"])%list /\
      result_file w' = result_file w0) \/
     ((exists e, r = Raise e) /\ frame w0 w')).
Proof.
  intros Hfile. unfold Fapp.process. unfold mbind at 1.
  destruct (Matcher.scrape_job_listings E
              [Fapp.search_url job_preference location] w0)
    as [[listings|e] w1] eqn:Hscrape;
    pose proof (preserves_scrape_sites E _ _ _ _ _ Hscrape) as Hframe1;
    [| eexists _, _; split; [reflexivity | right; right; eauto]].
  destruct Hframe1 as (Hdir1 & Hfl1 & Hres1).
  unfold mbind at 1, lift at 1.
  destruct (Matcher.filter_jobs E listings location job_preference)
    as [[|job rest]|e];
    [| | eexists _, _; split; [reflexivity | right; right; split; [eauto | now repeat split]]].
  - unfold mbind, do_flash, modify, os_remove, ret. cbn [upload_dir set_flashed].
    rewrite Hdir1, Hfile. eexists _, _. split; [reflexivity |].
    right. left. cbn. now rewrite Hfl1, Hres1.
  - unfold mbind at 1, open_rb. rewrite Hdir1, Hfile. unfold mbind at 1.
    destruct (Matcher.match_resume_to_jobs E bytes (job :: rest) w1)
      as [[matched|e] w2] eqn:Hmatch;
      pose proof (preserves_match_resume _ _ _ _ _ Hmatch) as (Hdir2 & Hfl2 & Hres2);
      [| eexists _, _; split; [reflexivity |];
         right; right; split; [eauto | repeat split; congruence]].
    unfold mbind, os_remove, modify, do_flash, ret. rewrite Hdir2, Hdir1, Hfile.
    eexists _, _. split; [reflexivity |]. left. cbn. rewrite Hfl2, Hfl1.
    repeat split. eexists. split; [reflexivity |].
    apply firstn_5_bounds. destruct matched; discriminate.
Qed.

(** The [try] block with its handler, from a state in which the uploaded
    file is in the upload folder. *)
Lemma try_block_outcomes (filepath location job_preference bytes : string)
    (w0 : World) :
  upload_dir w0 !! filepath = Some bytes ->
  exists endpoint f w',
    try_except (Fapp.process E filepath location job_preference)
      (Fapp.on_error filepath) w0
    = (Ok (Fapp.Redirect endpoint), w') /\
    upload_dir w' = delete filepath (upload_dir w0) /\
    flashed w' = (flashed w0 ++ [f])%list /\
    ((endpoint = "results" /\ f = Fapp.flash_success /\
      exists top, result_file w' = Some top /\ top <> [] /\ (List.length top <= 5)%nat) \/
     (endpoint = "upload" /\ is_error f /\ result_file w' = result_file w0)).
Proof.
  intros Hsaved. unfold try_except.
  destruct (process_outcomes filepath location job_preference bytes w0 Hsaved)
    as (r & w' & -> & [(-> & Hdir & Hfl & Hres)
                      | [(-> & Hdir & Hfl & Hres) | ([e ->] & Hdir & Hfl & Hres)]]).
  - eexists _, _, _. split; [reflexivity |]. rewrite Hdir, Hfl. repeat split; auto.
  - eexists _, _, _. split; [reflexivity |]. rewrite Hdir, Hfl.
    repeat split; auto. right. repeat split; auto.
  - rewrite (on_error_run filepath bytes e w') by now rewrite Hdir.
    eexists _, _, _. split; [reflexivity |]. cbn. rewrite Hdir, Hfl.
    repeat split; auto. right. repeat split; auto.
Qed.

(** The whole view for an accepted upload. *)
Lemma accepted_upload_outcomes (req : Fapp.request) (file_name bytes : string)
    (w : World) :
  accepted req file_name bytes ->
  exists endpoint f w',
    Fapp.upload E req w = (Ok (Fapp.Redirect endpoint), w') /\
    upload_dir w' = delete (Fapp.filepath_of E file_name) (upload_dir w) /\
    flashed w' = (flashed w ++ [f])%list /\
    ((endpoint = "results" /\ f = Fapp.flash_success /\
      exists top, result_file w' = Some top /\ top <> [] /\ (List.length top <= 5)%nat) \/
     (endpoint = "upload" /\ is_error f /\ result_file w' = result_file w)).
Proof.
  intros (Hpost & Hfile & Hname & Hallowed).
  unfold Fapp.upload. rewrite Hpost, Hfile, Hname, Hallowed. cbn [negb].
  unfold mbind at 1, modify.
  set (filepath := Fapp.filepath_of E file_name).
  set (w0 := Fapp.save_upload filepath bytes w).
  assert (Hsaved : upload_dir w0 !! filepath = Some bytes) by apply lookup_insert_eq.
  assert (Hdir0 : delete filepath (upload_dir w0) = delete filepath (upload_dir w))
    by apply delete_insert_eq.
  destruct (try_block_outcomes filepath (Fapp.form_field (Fapp.form_location req))
              (Fapp.form_field (Fapp.form_job_preference req)) bytes w0 Hsaved)
    as (endpoint & f & w' & -> & Hdir & Hfl & Hcases).
  exists endpoint, f, w'. split; [reflexivity |]. rewrite Hdir, Hfl. repeat split; auto.
Qed.

(** The view for a POST that is turned away. *)
Lemma turned_away_outcome (req : Fapp.request) (w : World) :
  turned_away req ->
  exists f,
    is_error f /\
    Fapp.upload E req w
    = (Ok (Fapp.Redirect "upload"), set_flashed (flashed w ++ [f])%list w).
Proof.
  intros [Hpost Hfile]. unfold Fapp.upload. rewrite Hpost.
  destruct (Fapp.file_resume req) as [[file_name bytes]|];
    [| eexists; split; [| reflexivity]; reflexivity].
  destruct Hfile as [-> | Hallowed]; [eexists; split; [| reflexivity]; reflexivity |].
  destruct (nonempty file_name); cbn [negb];
    [rewrite Hallowed |]; eexists; (split; [| reflexivity]); reflexivity.
Qed.

(** Every POST is either accepted or turned away. *)
Lemma post_accepted_or_turned_away (req : Fapp.request) :
  Fapp.method req = Fapp.POST ->
  turned_away req \/ exists file_name bytes, accepted req file_name bytes.
Proof.
  intros Hpost. unfold turned_away, accepted.
  destruct (Fapp.file_resume req) as [[file_name bytes]|] eqn:Hfile; [| now left].
  destruct (nonempty file_name) eqn:Hname; [| left; split; [auto | now left]].
  destruct (Fapp.allowed_file file_name) eqn:Hallowed;
    [| left; split; [auto | now right]].
  right. exists file_name, bytes. tauto.
Qed.

End UploadMore.

(** X22. Once the uploaded file is saved, no exception raised by scraping,
    filtering, opening the upload or matching leaves the [try] block of
    [upload]: with its handler the block ends every run in a redirect after
    exactly one flash, to the results with the success message, or to the
    upload page with an error message and the result file as it was.
    (Flashing, removing a file that exists and writing the result file are
    taken to succeed.) *)
Theorem saved_upload_always_redirects
    (E : Sys.Env) (filepath location job_preference bytes : string) (w0 : Sys.World) :
  Sys.upload_dir w0 !! filepath = Some bytes ->
  exists endpoint f w',
    Sys.try_except (Fapp.process E filepath location job_preference)
      (Fapp.on_error filepath) w0
    = (Py.Ok (Fapp.Redirect endpoint), w') /\
    Sys.flashed w' = (Sys.flashed w0 ++ [f])%list /\
    ((endpoint = "results" /\ f = Fapp.flash_success) \/
     (endpoint = "upload" /\ AppSpec.is_error f /\
      Sys.result_file w' = Sys.result_file w0)).
Proof.
  intros Hsaved.
  destruct (try_block_outcomes E filepath location job_preference bytes w0 Hsaved)
    as (endpoint & f & w' & Hrun & _ & Hfl & Hcases).
  exists endpoint, f, w'. split; [exact Hrun |]. split; [exact Hfl |].
  destruct Hcases as [(-> & -> & _) | (-> & Herr & Hres)]; auto.
Qed.

(** The statement where the extraction model answers with a JSON list: the
    listing is not a mapping, [filter_jobs] raises [AttributeError], and the
    handler reports it. *)
Lemma saved_upload_always_redirects_witness :
  exists w',
    Sys.try_except (Fapp.process Scenes.list_listing_env "upload/cv.pdf" "kathmandu" "engineer")
      (Fapp.on_error "upload/cv.pdf")
      (Fapp.save_upload "upload/cv.pdf" Demo.pdf_bytes Demo.world0)
    = (Py.Ok (Fapp.Redirect "upload"), w') /\
    Sys.flashed w'
    = [Sys.FlashExn "Error processing resume: " Py.AttributeError "error"].
Proof.
  destruct (saved_upload_always_redirects Scenes.list_listing_env "upload/cv.pdf"
              "kathmandu" "engineer" Demo.pdf_bytes
              (Fapp.save_upload "upload/cv.pdf" Demo.pdf_bytes Demo.world0))
    as (endpoint & f & w' & Hrun & Hfl & _).
  - apply lookup_insert_eq.
  - exists w'. revert Hrun Hfl. vm_compute. intros Hrun Hfl.
    injection Hrun as <- <-. split; reflexivity.
Defined.

(** X23. Whatever happens to an accepted upload (no job found, matching
    done, an exception in between), the uploaded file is gone from the
    upload folder when [upload] returns. *)
Theorem upload_removes_uploaded_file
    (E : Sys.Env) (req : Fapp.request) (file_name bytes : string) (w : Sys.World) :
  CoverSpec.accepted req file_name bytes ->
  Sys.upload_dir (snd (Fapp.upload E req w))
  = delete (Fapp.filepath_of E file_name) (Sys.upload_dir w).
Proof.
  intros Hacc.
  destruct (accepted_upload_outcomes E req file_name bytes w Hacc)
    as (endpoint & f & w' & -> & Hdir & _). exact Hdir.
Qed.

(** The statement at the upload of [cv.pdf]. *)
Lemma upload_removes_uploaded_file_witness :
  Sys.upload_dir (snd (Fapp.upload Demo.blank_pdf_env Demo.upload_request Demo.world0))
    !! "upload/cv.pdf" = None.
Proof.
  rewrite (upload_removes_uploaded_file Demo.blank_pdf_env Demo.upload_request
             "cv.pdf" Demo.pdf_bytes Demo.world0).
  - apply lookup_delete_eq.
  - repeat split.
Defined.

(** X24. [upload] writes the result file only when it redirects to the
    results, and then with one to five entries; with any other response
    the result file is as it was. *)
Theorem result_file_written_only_with_results
    (E : Sys.Env) (req : Fapp.request) (w w' : Sys.World) (resp : Fapp.response) :
  Fapp.upload E req w = (Py.Ok resp, w') ->
  (resp = Fapp.Redirect "results" ->
   exists top,
     Sys.result_file w' = Some top /\ top <> [] /\ (List.length top <= 5)%nat) /\
  (resp <> Fapp.Redirect "results" -> Sys.result_file w' = Sys.result_file w).
Proof.
  intros Hrun. destruct (Fapp.method req) eqn:Hmethod.
  - unfold Fapp.upload in Hrun. rewrite Hmethod in Hrun. injection Hrun as <- <-.
    split; [discriminate | reflexivity].
  - destruct (post_accepted_or_turned_away req Hmethod)
      as [Haway | (file_name & bytes & Hacc)].
    + destruct (turned_away_outcome E req w Haway) as (f & _ & Heq).
      rewrite Heq in Hrun. injection Hrun as <- <-. split; [discriminate | reflexivity].
    + destruct (accepted_upload_outcomes E req file_name bytes w Hacc)
        as (endpoint & f & w1 & Heq & _ & _ & Hcases).
      rewrite Heq in Hrun. injection Hrun as <- <-.
      destruct Hcases as [(-> & _ & top & Htop & Hne & Hlen) | (-> & _ & Hres)].
      * split; [| congruence]. intros _. exists top. repeat split; auto.
      * split; [discriminate | auto].
Qed.

(** The statement at the upload of a PDF without text: the result file then
    holds the one job found. *)
Lemma result_file_written_only_with_results_witness :
  exists top,
    Sys.result_file
      (snd (Fapp.upload Demo.blank_pdf_env Demo.upload_request Demo.world0))
    = Some top /\
    top <> [].
Proof.
  destruct (proj1 (result_file_written_only_with_results Demo.blank_pdf_env
                     Demo.upload_request Demo.world0 _ _
                     ltac:(vm_compute; reflexivity)) eq_refl)
    as (top & Htop & Hne & _).
  exists top. split; [exact Htop | exact Hne].
Defined.

(** X25. When the filter keeps no job, an accepted upload ends on the
    upload page with the message that no job matched, before the resume is
    read: no call of the Gemini model, the data file and the result file as
    they were, and no call of the matching model beyond the scrape's. *)
Theorem no_filtered_jobs_stops_before_resume
    (E : Sys.Env) (req : Fapp.request) (file_name bytes : string)
    (w w1 : Sys.World) (listings : list Json.json) :
  CoverSpec.accepted req file_name bytes ->
  Matcher.scrape_job_listings E
    [Fapp.search_url (Fapp.form_field (Fapp.form_job_preference req))
                     (Fapp.form_field (Fapp.form_location req))]
    (Fapp.save_upload (Fapp.filepath_of E file_name) bytes w)
  = (Py.Ok listings, w1) ->
  Matcher.filter_jobs E listings (Fapp.form_field (Fapp.form_location req))
    (Fapp.form_field (Fapp.form_job_preference req)) = Py.Ok [] ->
  exists w',
    Fapp.upload E req w = (Py.Ok (Fapp.Redirect "upload"), w') /\
    Sys.flashed w'
    = (Sys.flashed w ++ [Sys.Flash "No jobs matched your criteria." "error"])%list /\
    CoverSpec.same_resume_state w w' /\
    Sys.result_file w' = Sys.result_file w /\
    Sys.llm_calls w' = Sys.llm_calls w1.
Proof.
  intros (Hpost & Hfile & Hname & Hallowed) Hscrape Hfilter.
  pose proof (preserves_scrape_sites E _ _ _ _ _ Hscrape) as (Hdir1 & Hfl1 & Hres1).
  pose proof (scrape_keeps_resume E _ _ _ _ _ Hscrape) as (Hgem1 & Hdata1).
  unfold Fapp.upload. rewrite Hpost, Hfile, Hname, Hallowed. cbn [negb].
  unfold Sys.mbind at 1, Sys.modify, Sys.try_except, Fapp.process.
  unfold Sys.mbind at 1. rewrite Hscrape.
  unfold Sys.mbind at 1, Sys.lift at 1. rewrite Hfilter.
  unfold Sys.mbind, Sys.do_flash, Sys.modify, Sys.os_remove, Sys.ret.
  cbn [Sys.upload_dir Sys.set_flashed]. rewrite Hdir1.
  unfold Fapp.save_upload at 1. cbn [Sys.upload_dir Sys.set_upload_dir].
  rewrite lookup_insert_eq. eexists. split; [reflexivity |].
  cbn. rewrite Hfl1, Hres1. repeat split; auto.
Qed.

(** The statement at a page the browser cannot reach. *)
Lemma no_filtered_jobs_stops_before_resume_witness :
  exists w',
    Fapp.upload Demo.unreachable_env Demo.upload_request Demo.world0
    = (Py.Ok (Fapp.Redirect "upload"), w') /\
    Sys.flashed w' = [Sys.Flash "No jobs matched your criteria." "error"] /\
    Sys.gemini_calls w' = 0%nat.
Proof.
  destruct (no_filtered_jobs_stops_before_resume Demo.unreachable_env
              Demo.upload_request "cv.pdf" Demo.pdf_bytes Demo.world0 _ []
              ltac:(repeat split) ltac:(vm_compute; reflexivity) eq_refl)
    as (w' & Hrun & Hfl & (Hgem & _) & _).
  exists w'. split; [exact Hrun |]. split; [exact Hfl | exact Hgem].
Defined.

(** X26. A POST without a usable file (no [resume] part, an empty file
    name, or an extension that is not allowed) only flashes an error and
    redirects to the upload page: nothing is saved, scraped or asked of a
    model. *)
Theorem turned_away_changes_only_flashes
    (E : Sys.Env) (req : Fapp.request) (w : Sys.World) :
  CoverSpec.turned_away req ->
  exists f,
    AppSpec.is_error f /\
    Fapp.upload E req w
    = (Py.Ok (Fapp.Redirect "upload"),
       Sys.set_flashed (Sys.flashed w ++ [f])%list w).
Proof. apply turned_away_outcome. Qed.

(** The statement at the upload of [cv.exe]. *)
Lemma turned_away_changes_only_flashes_witness :
  exists f,
    Fapp.upload Demo.reader_env
      {| Fapp.method := Fapp.POST; Fapp.file_resume := Some ("cv.exe", "MZ");
         Fapp.form_location := None; Fapp.form_job_preference := None |} Demo.world0
    = (Py.Ok (Fapp.Redirect "upload"), Sys.set_flashed [f] Demo.world0).
Proof.
  destruct (turned_away_changes_only_flashes Demo.reader_env
              {| Fapp.method := Fapp.POST; Fapp.file_resume := Some ("cv.exe", "MZ");
                 Fapp.form_location := None; Fapp.form_job_preference := None |}
              Demo.world0) as (f & _ & Hrun).
  - split; [reflexivity | right; reflexivity].
  - exists f. exact Hrun.
Defined.

(** ** The f.py variant and replies that are not mappings *)

Section VariantMore.
Import Py Json Sys MatchSpec CoverSpec.
Variable E : Env.

Lemma f_match_one_mapping (resume_data : json) (fields : gmap string json) (w : World) :
  F.match_one E resume_data (JObj fields) w
  = (Ok (f_entry E resume_data (llm_calls w) (JObj fields)),
     set_llm_calls (S (llm_calls w)) w).
Proof.
  unfold F.match_one, try_except, mbind, lift, ret, Matcher.invoke, f_entry.
  cbn [get with_key].
  destruct (ollama E (llm_calls w) (MatchingPrompt resume_data (JObj fields)))
    as [text|e]; [| reflexivity].
  destruct (Matcher._clean_json_response E text) as [match_data|e]; reflexivity.
Qed.

Lemma f_match_loop_mappings (resume_data : json) (jobs : list json) :
  forall matched_jobs w,
    Forall is_mapping jobs ->
    F.match_loop E resume_data jobs matched_jobs w
    = (Ok (matched_jobs ++ f_entries_from E resume_data (llm_calls w) jobs)%list,
       set_llm_calls (llm_calls w + List.length jobs) w).
Proof.
  induction jobs as [|job jobs IH]; intros matched_jobs w Hjobs.
  - destruct w. cbn. unfold ret, set_llm_calls. cbn.
    now rewrite app_nil_r, Nat.add_0_r.
  - destruct (Forall_inv Hjobs) as [fields ->].
    cbn [F.match_loop]. unfold mbind at 1. rewrite f_match_one_mapping.
    cbn [f_entries_from List.length].
    destruct (f_entry E resume_data (llm_calls w) (JObj fields)) as [entry|];
      rewrite IH by exact (Forall_inv_tail Hjobs);
      rewrite set_llm_calls_twice; cbn [llm_calls set_llm_calls];
      [rewrite <- app_assoc; cbn [app] |]; do 2 f_equal; lia.
Qed.

Lemma f_entries_bound (resume_data : json) (jobs : list json) :
  forall n, (List.length (f_entries_from E resume_data n jobs) <= List.length jobs)%nat.
Proof.
  induction jobs as [|job jobs IH]; intros n; cbn [f_entries_from List.length]; [lia |].
  destruct (f_entry E resume_data n job); cbn [List.length]; specialize (IH (S n)); lia.
Qed.

Lemma f_entry_of_job (resume_data job entry : json) (n : nat) :
  f_entry E resume_data n job = Some entry ->
  contains "match_details" entry = Ok true /\ same_fields job entry.
Proof.
  unfold f_entry. destruct job; try discriminate.
  destruct (ollama E n _) as [text|]; [| discriminate].
  destruct (Matcher._clean_json_response E text) as [v|]; [| discriminate].
  intros H. injection H as <-. split.
  - cbn [contains]. now rewrite lookup_insert_eq.
  - intros key Hkey. cbn [get]. rewrite lookup_insert_ne by congruence. reflexivity.
Qed.

Lemma in_f_entries_from (resume_data : json) (jobs : list json) :
  forall n entry,
    In entry (f_entries_from E resume_data n jobs) ->
    exists job m, In job jobs /\ f_entry E resume_data m job = Some entry.
Proof.
  induction jobs as [|job jobs IH]; intros n entry H; cbn [f_entries_from] in H;
    [destruct H |].
  destruct (f_entry E resume_data n job) as [x|] eqn:Hx.
  - destruct H as [<- | H]; [exists job, n; split; [now left | exact Hx] |].
    destruct (IH _ _ H) as (job' & m & Hin & Hm). exists job', m. split; [now right | auto].
  - destruct (IH _ _ H) as (job' & m & Hin & Hm). exists job', m. split; [now right | auto].
Qed.

(** A parsed reply that is not a mapping, after the text is read. *)
Lemma parse_non_mapping (file_object : string) (w : World)
    (pages : list (result (option string))) (reply : string) (v : json) :
  write_data_file E file_object = Ok () ->
  pdf_reader E file_object = Ok pages ->
  nonempty (ResumeProcessor.pages_text pages) = true ->
  gemini E (gemini_calls w) (ResumeProcessor.pages_text pages) = Ok (Ok reply) ->
  json_loads E (ResumePraser.clean_json_response reply) = Parsed v ->
  not_mapping v ->
  ResumeProcessor.parse_resume_from_file E file_object w
  = (non_mapping_outcome v,
     set_gemini_calls (S (gemini_calls w)) (set_data_file (Some file_object) w)).
Proof.
  intros Hsave Hread Htext Hreply Hloads Hv. revert Htext Hreply.
  unfold ResumeProcessor.parse_resume_from_file, ResumeProcessor.save_file,
    ResumeProcessor.extract_text_from_pdf, ResumePraser.ats_extractor, mbind, lift.
  rewrite Hsave. cbn [data_file set_data_file gemini_calls]. rewrite Hread.
  generalize (ResumeProcessor.pages_text pages). intros [|c rest] Htext Hreply;
    [discriminate |].
  change (gemini_calls (set_data_file (Some file_object) w)) with (gemini_calls w).
  rewrite Hreply, Hloads. cbn [loads_result]. unfold non_mapping_outcome.
  destruct v; cbn [contains subscript_str]; try reflexivity; try contradiction.
  - now destruct (str_contains "error" s).
  - now destruct (existsb (is_str "error") items).
Qed.

End VariantMore.

(** X27. With a resume that parses and jobs that are mappings, the f.py
    [match_resume_to_jobs] also asks the matching model once per job, but a
    returned list may be shorter than the job list: it has at most as many
    entries, each of them one of the jobs with a [match_details] key set. *)
Theorem f_variant_returns_some_of_the_jobs
    (E : Sys.Env) (resume_file : string) (jobs : list Json.json) (w w1 : Sys.World)
    (resume_data : Json.json) :
  ResumeProcessor.parse_resume_from_file E resume_file w = (Py.Ok resume_data, w1) ->
  Json.contains "error" resume_data = Py.Ok false ->
  Forall Json.is_mapping jobs ->
  Sys.llm_calls (snd (F.match_resume_to_jobs E resume_file jobs w))
  = (Sys.llm_calls w + List.length jobs)%nat /\
  forall out,
    fst (F.match_resume_to_jobs E resume_file jobs w) = Py.Ok out ->
    (List.length out <= List.length jobs)%nat /\
    Forall (fun entry =>
              Json.contains "match_details" entry = Py.Ok true /\
              exists job, In job jobs /\ CoverSpec.same_fields job entry) out.
Proof.
  intros Hparse Herr Hjobs.
  unfold F.match_resume_to_jobs, Sys.mbind, Sys.lift. rewrite Hparse, Herr.
  rewrite f_match_loop_mappings by exact Hjobs. cbn [app fst snd]. split.
  - cbn [Sys.llm_calls Sys.set_llm_calls].
    now rewrite (parse_keeps_llm E resume_file w _ w1 Hparse).
  - intros out Hout. apply (sort_by_score_perm E) in Hout. split.
    + rewrite <- (Permutation_length Hout). apply f_entries_bound.
    + apply List.Forall_forall. intros entry Hin.
      apply (Permutation_in _ (Permutation_sym Hout)) in Hin.
      destruct (in_f_entries_from E _ _ _ _ Hin) as (job & m & Hjob & Hentry).
      destruct (f_entry_of_job E _ _ _ _ Hentry) as [Hdetails Hsame].
      split; [exact Hdetails |]. exists job. split; [exact Hjob | exact Hsame].
Qed.

(** The statement with the matching model down: three calls, no entry. *)
Lemma f_variant_returns_some_of_the_jobs_witness :
  Sys.llm_calls (snd (F.match_resume_to_jobs Demo.llm_down_env Demo.pdf_bytes
                        (map Demo.titled ["J1"; "J2"; "J3"]) Demo.world0))
  = 3%nat.
Proof.
  refine (proj1 (f_variant_returns_some_of_the_jobs Demo.llm_down_env Demo.pdf_bytes
                   (map Demo.titled ["J1"; "J2"; "J3"]) Demo.world0 Demo.after_parse
                   Demo.profile _ _ _)).
  - vm_compute. reflexivity.
  - vm_compute. reflexivity.
  - repeat constructor; eexists; reflexivity.
Defined.

(** X28. When the Gemini reply parses to JSON that is not a mapping,
    [parse_resume_from_file] has no error mapping to return: a number, a
    boolean or [null] makes the test [in] raise [TypeError]; a list or a
    string in which [error] is found raises [TypeError] at the subscript;
    any other list or string is returned as the resume data. Both variants
    of [match_resume_to_jobs] raise where the parse does. *)
Theorem non_mapping_profile_outcome
    (E : Sys.Env) (file_object : string) (w : Sys.World)
    (pages : list (Py.result (option string))) (reply : string) (v : Json.json)
    (jobs : list Json.json) :
  Sys.write_data_file E file_object = Py.Ok () ->
  Sys.pdf_reader E file_object = Py.Ok pages ->
  Py.nonempty (ResumeProcessor.pages_text pages) = true ->
  Sys.gemini E (Sys.gemini_calls w) (ResumeProcessor.pages_text pages)
  = Py.Ok (Py.Ok reply) ->
  Sys.json_loads E (ResumePraser.clean_json_response reply) = Json.Parsed v ->
  CoverSpec.not_mapping v ->
  fst (ResumeProcessor.parse_resume_from_file E file_object w)
  = CoverSpec.non_mapping_outcome v /\
  (CoverSpec.non_mapping_outcome v = Py.Raise Py.TypeError ->
   fst (Matcher.match_resume_to_jobs E file_object jobs w) = Py.Raise Py.TypeError /\
   fst (F.match_resume_to_jobs E file_object jobs w) = Py.Raise Py.TypeError).
Proof.
  intros Hsave Hread Htext Hreply Hloads Hv.
  pose proof (parse_non_mapping E file_object w pages reply v
                Hsave Hread Htext Hreply Hloads Hv) as Hparse.
  split; [now rewrite Hparse |].
  intros Hraise. rewrite Hraise in Hparse.
  unfold Matcher.match_resume_to_jobs, F.match_resume_to_jobs, Sys.mbind.
  now rewrite Hparse.
Qed.

(** The statement where the resume model answers with the list [1, 2]:
    the list is returned as the resume data. *)
Lemma non_mapping_profile_outcome_witness :
  fst (ResumeProcessor.parse_resume_from_file Scenes.list_gemini_env
         Demo.pdf_bytes Demo.world0)
  = Py.Ok (Json.JArr [Json.JNum 1; Json.JNum 2]).
Proof.
  refine (proj1 (non_mapping_profile_outcome Scenes.list_gemini_env Demo.pdf_bytes
                   Demo.world0 [Py.Ok (Some "Jane Doe, engineer")] "[1, 2]"
                   (Json.JArr [Json.JNum 1; Json.JNum 2]) []
                   eq_refl eq_refl eq_refl eq_refl _ I)).
  vm_compute. reflexivity.
Defined.
